(** * Uber receipt extraction: a shallow embedding and its properties

    The development embeds the two Python modules of the repository,
    [extract_uber_data.py] and [process_uber_receipts.py], and proves
    properties of the extraction they implement.

    Definitions:
    - [Py]    : the fragments of Python's [str], [float], [dict] and
                exception behaviour that the two modules rely on;
    - [Re]    : a backtracking matcher for the regular expressions that the
                modules pass to [re.search] and [re.split];
    - [Json]  : the [json.loads] decoder;
    - [ExtractUberData], [ProcessUberReceipts] : the two source files;
    - [PyLib] : printing, files, [sorted], [sum] and the dict that counts;
    - [ProcessUberReceiptsScript], [ExtractUberDataScript] : the functions
                of the two files that read a file and print a report;
    - [Spec], [Terms] : the vocabulary of the statements.

    Proofs:
    - [ListFacts], [StrFacts] : lists and [str] methods;
    - [ReFacts] : the matcher is sound and complete for the language of a
                pattern, and [re.search] returns the leftmost match;
    - [BatchFacts], [DateFacts], [AmountFacts], [ExtractFacts],
      [PassengerFacts], [ParseFacts] : the steps of the extraction;
    - [FuelFacts] : the bounds used for termination are never reached;
    - [Examples] : the definitions evaluated on small inputs;
    - [RowFacts], [FloatFacts], [ShapeFacts], [StrictFacts] : the output
                lists row by row, and the shape of their entries;
    - [ScriptFacts], [SortFacts], [MarkerFacts], [DemoFacts] : the
                functions that read a file and print a report;
    - the properties of the specification, [C1] to [C10];
    - further properties of the two files, [X1] to [X20].

    Python leaves three things open.  The Unicode tables are fixed to
    those of Unicode 14.0; the order in which the set of known names is
    iterated is the argument [family_order] of the extraction; the nesting
    depth that the JSON decoder accepts is its argument
    [recursion_limit].  The functions that print take two more arguments:
    the files that [open] finds, and the summation that [sum] performs on
    floats, which differs between versions of CPython.  A printed line is
    kept as the values that it shows. *)

From Stdlib Require Import String Ascii.
From Stdlib Require Import List NArith ZArith Bool Lia Permutation Sorted.
From Stdlib Require Import Floats.SpecFloat.
Import ListNotations.

Set Implicit Arguments.
Set Warnings "-register-all".

(* ================================================================== *)
(** * Python values, strings and exceptions                            *)
(* ================================================================== *)

Module Py.

Local Open Scope N_scope.
Local Open Scope list_scope.

(** A Python [str] is a sequence of Unicode code points. *)
Definition char := N.
Definition str := list char.

(** ASCII literals of the source are written as Rocq strings. *)
Definition chr (a : ascii) : char := N_of_ascii a.

(** A one-character literal. *)
Definition ch (s : string) : char :=
  match s with
  | String a _ => chr a
  | EmptyString => 0
  end.

Fixpoint lit (s : string) : str :=
  match s with
  | EmptyString => []
  | String a s' => chr a :: lit s'
  end.

Arguments ch s%_string.
Arguments lit s%_string.

(** The non-ASCII letters and symbols that occur in the source's patterns;
    comments write them as Python escapes. *)
Definition a_ring : char := 229.      (* U+00E5 *)
Definition a_uml : char := 228.       (* U+00E4 *)
Definition o_uml : char := 246.       (* U+00F6 *)
Definition A_ring : char := 197.      (* U+00C5 *)
Definition A_uml : char := 196.       (* U+00C4 *)
Definition O_uml : char := 214.       (* U+00D6 *)
Definition euro : char := 8364.       (* U+20AC *)
Definition pound : char := 163.       (* U+00A3 *)

Fixpoint str_eqb (a b : str) : bool :=
  match a, b with
  | [], [] => true
  | x :: a', y :: b' => N.eqb x y && str_eqb a' b'
  | _, _ => false
  end.

(** ** Unicode tables (Unicode 14.0, as shipped with CPython 3.11) *)

(** [str.isspace] for one code point; also what [\s] matches. *)
Definition isspace (c : char) : bool :=
  ((9 <=? c) && (c <=? 13)) || ((28 <=? c) && (c <=? 32))
  || (c =? 133) || (c =? 160) || (c =? 5760)
  || ((8192 <=? c) && (c <=? 8202))
  || (c =? 8232) || (c =? 8233) || (c =? 8239) || (c =? 8287)
  || (c =? 12288).

(** The code points of the digit zero of every decimal-digit block
    (general category Nd); each block is ten consecutive code points with
    the values 0 to 9. *)
Definition decimal_zeros : list char :=
  [ 0x30; 0x660; 0x6f0; 0x7c0; 0x966; 0x9e6; 0xa66; 0xae6; 0xb66; 0xbe6;
    0xc66; 0xce6; 0xd66; 0xde6; 0xe50; 0xed0; 0xf20; 0x1040; 0x1090;
    0x17e0; 0x1810; 0x1946; 0x19d0; 0x1a80; 0x1a90; 0x1b50; 0x1bb0;
    0x1c40; 0x1c50; 0xa620; 0xa8d0; 0xa900; 0xa9d0; 0xa9f0; 0xaa50;
    0xabf0; 0xff10; 0x104a0; 0x10d30; 0x11066; 0x110f0; 0x11136; 0x111d0;
    0x112f0; 0x11450; 0x114d0; 0x11650; 0x116c0; 0x11730; 0x118e0;
    0x11950; 0x11c50; 0x11d50; 0x11da0; 0x16a60; 0x16ac0; 0x16b50;
    0x1d7ce; 0x1d7d8; 0x1d7e2; 0x1d7ec; 0x1d7f6; 0x1e140; 0x1e2f0;
    0x1e950; 0x1fbf0 ]%N.

(** The decimal value of a code point, when it is a decimal digit. *)
Definition decimal (c : char) : option N :=
  match find (fun z => (z <=? c) && (c <? z + 10)) decimal_zeros with
  | Some z => Some (c - z)
  | None => None
  end.

(** [str.isdecimal] for one code point; also what [\d] matches. *)
Definition isdecimal (c : char) : bool :=
  match decimal c with Some _ => true | None => false end.

(** [str.lower] for one code point.  ASCII and Latin-1 capitals move to
    their small letter; U+0130 and U+212A are the two code points outside
    ASCII whose lower-case form contains an ASCII letter.  Every other code
    point is left as it is: its lower-case form never contains an ASCII
    letter, and the modules compare lower-cased text with ASCII words only. *)
Definition lower_char (c : char) : str :=
  if (65 <=? c) && (c <=? 90) then [c + 32]
  else if (192 <=? c) && (c <=? 222) && negb (c =? 215) then [c + 32]
  else if c =? 304 then [105; 775]
  else if c =? 8490 then [107]
  else [c].

Definition lower (s : str) : str := flat_map lower_char s.

(** ** [str] methods *)

Fixpoint lstrip (s : str) : str :=
  match s with
  | c :: s' => if isspace c then lstrip s' else s
  | [] => []
  end.

Definition rstrip (s : str) : str := rev (lstrip (rev s)).

Definition strip (s : str) : str := rstrip (lstrip s).

(** [s.split()]: the maximal runs of non-whitespace code points.
    [cur] is the run being read, in reverse. *)
Fixpoint split_aux (cur : str) (s : str) : list str :=
  match s with
  | [] => match cur with [] => [] | _ => [rev cur] end
  | c :: s' =>
      if isspace c
      then match cur with
           | [] => split_aux [] s'
           | _ => rev cur :: split_aux [] s'
           end
      else split_aux (c :: cur) s'
  end.

Definition split (s : str) : list str := split_aux [] s.

(** [s.zfill(width)]: zeros are inserted after a leading sign. *)
Definition zfill (width : nat) (s : str) : str :=
  let fill := (width - length s)%nat in
  match fill with
  | O => s
  | _ =>
      match s with
      | c :: rest =>
          if (c =? ch "+") || (c =? ch "-")
          then c :: repeat (ch "0") fill ++ rest
          else repeat (ch "0") fill ++ s
      | [] => repeat (ch "0") fill
      end
  end.

(** [s.replace(a, b)] for single-character [a] and [b]. *)
Definition replace (a b : char) (s : str) : str :=
  map (fun c => if c =? a then b else c) s.

Definition startswith (c : char) (s : str) : bool :=
  match s with x :: _ => x =? c | [] => false end.

Definition endswith (c : char) (s : str) : bool := startswith c (rev s).

(** [c in s]. *)
Definition contains (c : char) (s : str) : bool := existsb (N.eqb c) s.

(** [s.find(c)], for a [c] that occurs in [s]; the length of [s] otherwise. *)
Fixpoint find_char (c : char) (s : str) : nat :=
  match s with
  | [] => 0%nat
  | x :: s' => if x =? c then 0%nat else S (find_char c s')
  end.

(** [s[i:j]]. *)
Definition slice (i j : nat) (s : str) : str := firstn (j - i) (skipn i s).

(** ** Exceptions *)

(** The exceptions that the modelled code can raise.  [JSONDecodeError] is
    a subclass of [ValueError] in Python; the handlers of the source either
    name it exactly or catch [Exception], so the classes are kept apart. *)
Inductive exn : Type :=
| JSONDecodeError
| RecursionError
| TypeError
| AttributeError
| IndexError
| ValueError_float                      (* could not convert string to float *)
| ValueError_int_max_str_digits         (* integer string conversion limit *)
| ValueError_FailedToParse (cause : exn)  (* "Failed to parse emails data: ..." *)
| ValueError_Inconsistent (dates passengers costs currencies : nat)
                                        (* "Inconsistent list lengths: ..." *)
| ValueError_NoValidReceipts.           (* "No valid receipts were extracted ..." *)

Inductive outcome (A : Type) : Type :=
| Ret (a : A)
| Raise (e : exn).
Arguments Ret {A} a.
Arguments Raise {A} e.

Definition bind {A B} (m : outcome A) (f : A -> outcome B) : outcome B :=
  match m with
  | Ret a => f a
  | Raise e => Raise e
  end.

Notation "x <- m ;; k" := (bind m (fun x => k))
  (at level 61, m at next level, right associativity).

(** [try: body  except Exception: handler]. *)
Definition try_except {A} (body : outcome A) (handler : exn -> outcome A)
  : outcome A :=
  match body with
  | Ret a => Ret a
  | Raise e => handler e
  end.

Definition is_JSONDecodeError (e : exn) : bool :=
  match e with JSONDecodeError => true | _ => false end.

(** ** [float] *)

(** A Python float is an IEEE 754 binary64 number. *)
Definition float := spec_float.

Definition prec : Z := 53.
Definition emax : Z := 1024.

(** The binary64 number nearest to [m * 10^e] (ties to even), negated when
    [neg] is set. *)
Definition float_of_decimal (neg : bool) (m : N) (e : Z) : float :=
  match m with
  | N0 => S754_zero neg
  | Npos p =>
      match e with
      | Zneg k =>
          SFdiv prec emax (S754_finite neg p 0)
                (S754_finite false (Pos.pow 10 k) 0)
      | Z0 => binary_round prec emax neg p 0
      | Zpos k => binary_round prec emax neg (p * Pos.pow 10 k) 0
      end
  end.

(** Reads a run of decimal digits: the number read so far, how many digits
    were read, and the rest of the text. *)
Fixpoint read_digits (acc : N) (n : nat) (s : str) : N * nat * str :=
  match s with
  | c :: s' =>
      match decimal c with
      | Some d => read_digits (10 * acc + d) (S n) s'
      | None => (acc, n, s)
      end
  | [] => (acc, n, s)
  end.

(** [float(s)] on the texts that reach it in the two modules: what a class
    of digits, [.] and [,] has matched, with every [,] replaced by [.]
    (lemmas [float_argument] and [strict_float_argument]).  On digits and
    points [float] accepts at most one point and at least one digit, and
    raises [ValueError] otherwise.  Signs, exponents, underscores and
    surrounding blanks cannot occur in such text and are not part of this
    definition. *)
Definition py_float (s : str) : outcome float :=
  let '(ip, ni, s1) := read_digits 0 0%nat s in
  match s1 with
  | [] =>
      match ni with
      | O => Raise ValueError_float
      | _ => Ret (float_of_decimal false ip 0)
      end
  | c :: s2 =>
      if c =? ch "."
      then
        let '(m, nf, s3) := read_digits ip 0%nat s2 in
        match s3, (ni + nf)%nat with
        | [], S _ => Ret (float_of_decimal false m (- Z.of_nat nf))
        | _, _ => Raise ValueError_float
        end
      else Raise ValueError_float
  end.

(** ** Values *)

(** The Python objects that reach the extraction: what [json.loads] can
    return, which is also what a caller passes in. *)
Inductive value : Type :=
| VNone
| VBool (b : bool)
| VInt (z : Z)
| VFloat (f : float)
| VStr (s : str)
| VList (l : list value)
| VDict (d : list (str * value)).

(** [d.get(key, default)] on the items of a dict. *)
Fixpoint dict_get (d : list (str * value)) (key : str) (default : value)
  : value :=
  match d with
  | [] => default
  | (k, v) :: d' => if str_eqb k key then v else dict_get d' key default
  end.

(** [d[key] = v]: an existing key keeps its place. *)
Fixpoint dict_set (d : list (str * value)) (key : str) (v : value)
  : list (str * value) :=
  match d with
  | [] => [(key, v)]
  | (k, w) :: d' =>
      if str_eqb k key then (k, v) :: d' else (k, w) :: dict_set d' key v
  end.

(** [v.get(key, default)]: only a dict has the method. *)
Definition py_get (v : value) (key : str) (default : value) : outcome value :=
  match v with
  | VDict d => Ret (dict_get d key default)
  | _ => Raise AttributeError
  end.

(** [l[i]]. *)
Definition index {A} (l : list A) (i : nat) : outcome A :=
  match nth_error l i with
  | Some x => Ret x
  | None => Raise IndexError
  end.

(** [iter(v)]: the items of a list, the keys of a dict, the characters of a
    string; other objects are not iterable. *)
Definition py_iter (v : value) : outcome (list value) :=
  match v with
  | VList l => Ret l
  | VDict d => Ret (map (fun kv => VStr (fst kv)) d)
  | VStr s => Ret (map (fun c => VStr [c]) s)
  | _ => Raise TypeError
  end.

(** Truth value of an optional string, as in [if passenger:]. *)
Definition truthy (p : option str) : bool :=
  match p with
  | Some (_ :: _) => true
  | _ => false
  end.

End Py.

(* ================================================================== *)
(** * Regular expressions                                              *)
(* ================================================================== *)

Module Re.

Import Py.
Local Open Scope N_scope.
Local Open Scope list_scope.

(** The members of a bracketed class. *)
Inductive item : Type :=
| One (c : char)            (* a single character *)
| Range (lo hi : char)      (* lo-hi *)
| Digit                     (* \d *)
| Space.                    (* \s *)

Definition item_mem (c : char) (it : item) : bool :=
  match it with
  | One x => c =? x
  | Range lo hi => (lo <=? c) && (c <=? hi)
  | Digit => isdecimal c
  | Space => isspace c
  end.

(** The constructs that the patterns of the two modules use. *)
Inductive regex : Type :=
| Eps                               (* the empty pattern *)
| Chr (c : char)                    (* a literal character *)
| Cls (items : list item)           (* [...], \d, \s *)
| Any                               (* . : anything but a newline *)
| Seq (r1 r2 : regex)
| Alt (r1 r2 : regex)               (* r1|r2 *)
| Star (greedy : bool) (r : regex)  (* r* when greedy, r*? otherwise *)
| Group (n : nat) (r : regex).      (* the n-th capturing group *)

(** The spans of the capturing groups that have taken part in a match,
    most recent first. *)
Definition captures := list (nat * (nat * nat)).

(** The result of trying a pattern at one position: where the match ends
    and what the groups captured. *)
Definition result := option (nat * captures).

(** A continuation receives the position reached, the text that remains
    and the captures so far. *)
Definition cont := nat -> str -> captures -> result.

Definition or_else (a : result) (b : result) : result :=
  match a with
  | Some x => Some x
  | None => b
  end.

(** Repetition.  [step] matches the repeated pattern once.  A greedy
    repetition tries one more round before it tries to go on; a lazy one
    tries to go on first.  A round that consumes nothing is not repeated, so
    [n], the length of the remaining text, bounds the number of rounds. *)
Fixpoint repeat_match (step : nat -> str -> captures -> cont -> result)
    (greedy : bool) (k : cont) (n : nat) (i : nat) (s : str) (c : captures)
  : result :=
  match n with
  | O => k i s c
  | S n' =>
      let more :=
        step i s c
             (fun i' s' c' =>
                if (i <? i')%nat
                then repeat_match step greedy k n' i' s' c'
                else None) in
      if greedy then or_else more (k i s c) else or_else (k i s c) more
  end.

(** [match_at r i s c k]: match [r] against the text [s], which starts at
    position [i] of the subject, and hand what follows to [k].  Alternatives
    are tried in the order of a backtracking matcher: the result is the
    first success. *)
Fixpoint match_at (r : regex) (i : nat) (s : str) (c : captures) (k : cont)
  {struct r} : result :=
  match r with
  | Eps => k i s c
  | Chr x =>
      match s with
      | y :: s' => if y =? x then k (S i) s' c else None
      | [] => None
      end
  | Cls items =>
      match s with
      | y :: s' => if existsb (item_mem y) items then k (S i) s' c else None
      | [] => None
      end
  | Any =>
      match s with
      | y :: s' => if y =? 10 then None else k (S i) s' c
      | [] => None
      end
  | Seq r1 r2 => match_at r1 i s c (fun i' s' c' => match_at r2 i' s' c' k)
  | Alt r1 r2 => or_else (match_at r1 i s c k) (match_at r2 i s c k)
  | Star greedy r1 => repeat_match (match_at r1) greedy k (length s) i s c
  | Group n r1 =>
      match_at r1 i s c (fun i' s' c' => k i' s' ((n, (i, i')) :: c'))
  end.

Infix "+++" := Seq (at level 60, right associativity).

(** ** Derived forms *)

Definition Plus (r : regex) : regex := Seq r (Star true r).     (* r+ *)
Definition Opt (r : regex) : regex := Alt r Eps.                (* r? *)
Definition Lazy (r : regex) : regex := Star false r.            (* r*? *)

(** A literal string. *)
Fixpoint Str (s : str) : regex :=
  match s with
  | [] => Eps
  | [c] => Chr c
  | c :: s' => Seq (Chr c) (Str s')
  end.

Definition digit : regex := Cls [Digit].      (* \d *)
Definition space : regex := Cls [Space].      (* \s *)

(** ** Match objects *)

Record rmatch : Type := mk_match {
  m_start : nat;
  m_end : nat;
  m_groups : captures
}.

Fixpoint lookup (n : nat) (c : captures) : option (nat * nat) :=
  match c with
  | [] => None
  | (g, span) :: c' => if Nat.eqb g n then Some span else lookup n c'
  end.

(** [m.group(n)] for [n >= 1] on the subject [body]; [None] when the group
    took no part in the match. *)
Definition group (body : str) (m : rmatch) (n : nat) : option str :=
  match lookup n (m_groups m) with
  | Some (a, b) => Some (slice a b body)
  | None => None
  end.

(** [re.search]: the match at the leftmost position that has one.  [s] is
    the text from position [i] on. *)
Fixpoint search_from (r : regex) (i : nat) (s : str) : option rmatch :=
  match match_at r i s [] (fun e _ c => Some (e, c)) with
  | Some (e, c) => Some (mk_match i e c)
  | None =>
      match s with
      | [] => None
      | _ :: s' => search_from r (S i) s'
      end
  end.

Definition search (r : regex) (body : str) : option rmatch :=
  search_from r 0 body.

(** [re.split] for a pattern without capturing groups that matches no empty
    text: the pieces between successive matches.  Every match is at least one
    character long, so [n], the length of the text, bounds their number. *)
Fixpoint split_aux (r : regex) (n : nat) (s : str) : list str :=
  match n with
  | O => [s]
  | S n' =>
      match search r s with
      | Some m => firstn (m_start m) s :: split_aux r n' (skipn (m_end m) s)
      | None => [s]
      end
  end.

Definition split (r : regex) (s : str) : list str :=
  split_aux r (length s) s.

End Re.

(* ================================================================== *)
(** * [json.loads]                                                     *)
(* ================================================================== *)

Module Json.

Import Py.
Local Open Scope N_scope.
Local Open Scope list_scope.

Definition quote : char := 34.
Definition backslash : char := 92.

(** JSON whitespace: space, tab, line feed, carriage return. *)
Definition is_ws (c : char) : bool :=
  (c =? 32) || (c =? 9) || (c =? 10) || (c =? 13).

Fixpoint skip_ws (s : str) : str :=
  match s with
  | c :: s' => if is_ws c then skip_ws s' else s
  | [] => []
  end.

(** [strip_prefix p s]: what follows [p] in [s], when [s] starts with [p]. *)
Fixpoint strip_prefix (p s : str) : option str :=
  match p, s with
  | [], _ => Some s
  | x :: p', y :: s' => if x =? y then strip_prefix p' s' else None
  | _ :: _, [] => None
  end.

Definition is_digit (c : char) : bool := (48 <=? c) && (c <=? 57).

Definition hex_val (c : char) : option N :=
  if is_digit c then Some (c - 48)
  else if (97 <=? c) && (c <=? 102) then Some (c - 87)
  else if (65 <=? c) && (c <=? 70) then Some (c - 55)
  else None.

(** Four hexadecimal digits, as after [\u]. *)
Definition hex4 (s : str) : option (N * str) :=
  match s with
  | a :: b :: c :: d :: rest =>
      match hex_val a, hex_val b, hex_val c, hex_val d with
      | Some x, Some y, Some z, Some w =>
          Some (4096 * x + 256 * y + 16 * z + w, rest)
      | _, _, _, _ => None
      end
  | _ => None
  end.

(** The character that a one-letter escape stands for. *)
Definition escape (c : char) : option char :=
  if c =? quote then Some quote
  else if c =? backslash then Some backslash
  else if c =? ch "/" then Some (ch "/")
  else if c =? ch "b" then Some 8
  else if c =? ch "f" then Some 12
  else if c =? ch "n" then Some 10
  else if c =? ch "r" then Some 13
  else if c =? ch "t" then Some 9
  else None.

(** A [\uXXXX] escape whose digits start at [s]; a high surrogate that is
    followed by an escaped low surrogate is joined with it. *)
Definition unicode_escape (s : str) : option (char * str) :=
  match hex4 s with
  | None => None
  | Some (u, rest) =>
      if (55296 <=? u) && (u <=? 56319)
      then
        match rest with
        | b :: x :: rest' =>
            if (b =? backslash) && (x =? ch "u")
            then
              match hex4 rest' with
              | Some (u2, rest'') =>
                  if (56320 <=? u2) && (u2 <=? 57343)
                  then Some (65536 + (1024 * (u - 55296) + (u2 - 56320)),
                             rest'')
                  else Some (u, rest)
              | None => Some (u, rest)
              end
            else Some (u, rest)
        | _ => Some (u, rest)
        end
      else Some (u, rest)
  end.

(** The body of a string, after its opening quote; [acc] is the text read
    so far, in reverse.  Control characters are refused (strict mode).  [n]
    bounds the number of characters read by the length of the text. *)
Fixpoint scanstring (n : nat) (s : str) (acc : str) : outcome (str * str) :=
  match n with
  | O => Raise JSONDecodeError
  | S n' =>
      match s with
      | [] => Raise JSONDecodeError
      | c :: s' =>
          if c =? quote then Ret (rev acc, s')
          else if c =? backslash then
            match s' with
            | [] => Raise JSONDecodeError
            | e :: s'' =>
                if e =? ch "u" then
                  match unicode_escape s'' with
                  | Some (u, rest) => scanstring n' rest (u :: acc)
                  | None => Raise JSONDecodeError
                  end
                else
                  match escape e with
                  | Some x => scanstring n' s'' (x :: acc)
                  | None => Raise JSONDecodeError
                  end
            end
          else if c <? 32 then Raise JSONDecodeError
          else scanstring n' s' (c :: acc)
      end
  end.

(** A run of ASCII digits: its value, its length and the rest. *)
Fixpoint ascii_digits (acc : N) (n : nat) (s : str) : N * nat * str :=
  match s with
  | c :: s' =>
      if is_digit c then ascii_digits (10 * acc + (c - 48)) (S n) s'
      else (acc, n, s)
  | [] => (acc, n, s)
  end.

(** The largest number of digits that [int] converts from text (the
    default of CPython 3.11). *)
Definition int_max_str_digits : nat := 4300.

(** The optional fraction of a number: [.] and at least one digit. *)
Definition fraction (m : N) (s : str) : option (N * nat * str) :=
  match s with
  | c :: s' =>
      if c =? ch "." then
        match ascii_digits m 0%nat s' with
        | (_, O, _) => None
        | r => Some r
        end
      else None
  | [] => None
  end.

(** The optional exponent of a number: [e] or [E], a sign, and at least one
    digit. *)
Definition exponent (s : str) : option (Z * str) :=
  match s with
  | c :: s' =>
      if (c =? ch "e") || (c =? ch "E") then
        let '(neg, s1) :=
          match s' with
          | x :: s'' =>
              if x =? ch "-" then (true, s'')
              else if x =? ch "+" then (false, s'')
              else (false, s')
          | [] => (false, s')
          end in
        match ascii_digits 0 0%nat s1 with
        | (_, O, _) => None
        | (e, _, rest) =>
            Some (if neg then (- Z.of_N e)%Z else Z.of_N e, rest)
        end
      else None
  | [] => None
  end.

(** A number: an optional minus sign, then [0] or a run of digits that does
    not start with [0], then an optional fraction and an optional exponent.
    Without fraction and exponent it is an [int], otherwise a [float]. *)
Definition match_number (s : str) : outcome (value * str) :=
  let '(neg, s0) :=
    match s with
    | c :: s' => if c =? ch "-" then (true, s') else (false, s)
    | [] => (false, s)
    end in
  let int_part :=
    match s0 with
    | c :: s' =>
        if c =? ch "0" then Some (0, 1%nat, s')
        else if is_digit c then Some (ascii_digits 0 0%nat s0)
        else None
    | [] => None
    end in
  match int_part with
  | None => Raise JSONDecodeError
  | Some (ip, ni, s1) =>
      let '(m, nf, s2, has_frac) :=
        match fraction ip s1 with
        | Some (m, nf, s2) => (m, nf, s2, true)
        | None => (ip, 0%nat, s1, false)
        end in
      match exponent s2 with
      | Some (e, s3) =>
          Ret (VFloat (float_of_decimal neg m (e - Z.of_nat nf)), s3)
      | None =>
          if has_frac
          then Ret (VFloat (float_of_decimal neg m (- Z.of_nat nf)), s2)
          else if (int_max_str_digits <? ni)%nat
               then Raise ValueError_int_max_str_digits
               else Ret (VInt (if neg then (- Z.of_N ip)%Z else Z.of_N ip),
                         s2)
      end
  end.

(** The items of an array, after [[] and blanks, when the array is not
    empty.  [scan] reads one value; [acc] is what was read, in reverse. *)
Fixpoint array_items (scan : str -> outcome (value * str)) (n : nat)
    (s : str) (acc : list value) : outcome (value * str) :=
  match n with
  | O => Raise JSONDecodeError
  | S n' =>
      bind (scan s) (fun vs =>
        let '(v, s1) := vs in
        match skip_ws s1 with
        | c :: s2 =>
            if c =? ch "]" then Ret (VList (rev (v :: acc)), s2)
            else if c =? ch "," then
              array_items scan n' (skip_ws s2) (v :: acc)
            else Raise JSONDecodeError
        | [] => Raise JSONDecodeError
        end)
  end.

(** The members of an object, after [{] and blanks, when the object is not
    empty.  A key that comes again replaces the earlier value. *)
Fixpoint object_items (scan : str -> outcome (value * str)) (n : nat)
    (s : str) (acc : list (str * value)) : outcome (value * str) :=
  match n with
  | O => Raise JSONDecodeError
  | S n' =>
      match s with
      | q :: s0 =>
          if q =? quote then
            bind (scanstring (length s0) s0 []) (fun ks =>
              let '(key, s1) := ks in
              match skip_ws s1 with
              | c :: s2 =>
                  if c =? ch ":" then
                    bind (scan (skip_ws s2)) (fun vs =>
                      let '(v, s3) := vs in
                      let acc' := dict_set acc key v in
                      match skip_ws s3 with
                      | d :: s4 =>
                          if d =? ch "}" then Ret (VDict acc', s4)
                          else if d =? ch "," then
                            object_items scan n' (skip_ws s4) acc'
                          else Raise JSONDecodeError
                      | [] => Raise JSONDecodeError
                      end)
                  else Raise JSONDecodeError
              | [] => Raise JSONDecodeError
              end)
          else Raise JSONDecodeError
      | [] => Raise JSONDecodeError
      end
  end.

(** The constants of the decoder. *)
Definition constant (s : str) : option (value * str) :=
  match strip_prefix (lit "null") s with
  | Some r => Some (VNone, r)
  | None =>
  match strip_prefix (lit "true") s with
  | Some r => Some (VBool true, r)
  | None =>
  match strip_prefix (lit "false") s with
  | Some r => Some (VBool false, r)
  | None =>
  match strip_prefix (lit "NaN") s with
  | Some r => Some (VFloat S754_nan, r)
  | None =>
  match strip_prefix (lit "Infinity") s with
  | Some r => Some (VFloat (S754_infinity false), r)
  | None =>
  match strip_prefix (lit "-Infinity") s with
  | Some r => Some (VFloat (S754_infinity true), r)
  | None => None
  end end end end end end.

(** One JSON value at the start of [s].  Entering an array or an object
    uses one level of [depth]; the decoder raises [RecursionError] when none
    is left. *)
Fixpoint scan_once (depth : nat) (s : str) {struct depth}
  : outcome (value * str) :=
  match s with
  | [] => Raise JSONDecodeError
  | c :: s' =>
      if c =? quote then
        bind (scanstring (length s') s' []) (fun r => Ret (VStr (fst r), snd r))
      else if c =? ch "{" then
        match depth with
        | O => Raise RecursionError
        | S d =>
            match skip_ws s' with
            | x :: s'' =>
                if x =? ch "}" then Ret (VDict [], s'')
                else object_items (scan_once d) (length s') (skip_ws s') []
            | [] => Raise JSONDecodeError
            end
        end
      else if c =? ch "[" then
        match depth with
        | O => Raise RecursionError
        | S d =>
            match skip_ws s' with
            | x :: s'' =>
                if x =? ch "]" then Ret (VList [], s'')
                else array_items (scan_once d) (length s') (skip_ws s') []
            | [] => Raise JSONDecodeError
            end
        end
      else
        match constant s with
        | Some r => Ret r
        | None => match_number s
        end
  end.

(** [json.loads(s)] with room for [limit] nested arrays and objects. *)
Definition loads (limit : nat) (s : str) : outcome value :=
  if startswith 65279 s then Raise JSONDecodeError
  else
    bind (scan_once limit (skip_ws s)) (fun r =>
      match skip_ws (snd r) with
      | [] => Ret (fst r)
      | _ :: _ => Raise JSONDecodeError
      end).

End Json.

(* ================================================================== *)
(** * [extract_uber_data.py]                                           *)
(* ================================================================== *)

Module ExtractUberData.

Import Py Re.
Local Open Scope list_scope.

(** One extracted receipt: the dictionary that
    [extract_receipt_from_email] returns. *)
Record receipt : Type := mk_receipt {
  cost : option float;
  currency : option str;
  date : option str;
  passenger : option str
}.

(** The four parallel output lists. *)
Record columns : Type := mk_columns {
  dates : list (option str);
  passenger_names : list (option str);
  costs : list float;
  currencies : list str
}.

(** ** Patterns *)

(** [[A-Za-z$\u20ac\xa3]] *)
Definition currency_class : regex :=
  Cls [Range (ch "A") (ch "Z"); Range (ch "a") (ch "z"); One (ch "$");
       One euro; One pound].

(** [[\d\.,]] *)
Definition amount_class : regex := Cls [Digit; One (ch "."); One (ch ",")].

(** [[A-Za-z\xe5\xe4\xf6\xc5\xc4\xd6]] *)
Definition name_class : regex :=
  Cls [Range (ch "A") (ch "Z"); Range (ch "a") (ch "z");
       One a_ring; One a_uml; One o_uml; One A_ring; One A_uml; One O_uml].

(** [[a-zA-Z\xe5\xe4\xf6\xc5\xc4\xd6]] *)
Definition month_class : regex :=
  Cls [Range (ch "a") (ch "z"); Range (ch "A") (ch "Z");
       One a_ring; One a_uml; One o_uml; One A_ring; One A_uml; One O_uml].

(** [(Totalt|Avbokningsavgift)] *)
Definition keyword : regex :=
  Group 1 (Alt (Str (lit "Totalt")) (Str (lit "Avbokningsavgift"))).

(** [(Totalt|Avbokningsavgift)\s+([\d\.,]+)\s+([A-Za-z$\u20ac\xa3]+)] *)
Definition total_pattern : regex :=
  keyword +++ Plus space +++ Group 2 (Plus amount_class) +++ Plus space
  +++ Group 3 (Plus currency_class).

(** The relaxed pattern: group 1 is [\d+[\.,]?\d*], then come [\s*] and
    group 2, [[A-Za-z$\u20ac\xa3]+]. *)
Definition total_pattern2 : regex :=
  Group 1 (Plus digit +++ Opt (Cls [One (ch "."); One (ch ",")])
           +++ Star true digit)
  +++ Star true space +++ Group 2 (Plus currency_class).

(** [\d{1,2}\s+[a-zA-Z\xe5\xe4\xf6\xc5\xc4\xd6]+\s+\d{4}] *)
Definition date_token : regex :=
  (digit +++ Opt digit) +++ Plus space +++ Plus month_class +++ Plus space
  +++ (digit +++ digit +++ digit +++ digit).

(** [(Totalt|Avbokningsavgift)\s+[\d\.,]+\s+[A-Za-z$\u20ac\xa3]+\s+(<date>)] *)
Definition date_pattern : regex :=
  keyword +++ Plus space +++ Plus amount_class +++ Plus space
  +++ Plus currency_class +++ Plus space +++ Group 2 date_token.

Definition general_date_pattern : regex := Group 1 date_token.

Definition tack_for_att_du_reser : str :=
  lit "Tack f" ++ [o_uml] ++ lit "r att du reser,".
Definition vi_ses_en_annan_gang : str :=
  lit "Vi ses en annan g" ++ [a_ring] ++ lit "ng,".

(** [(Tack f\xf6r att du reser,|Vi ses en annan g\xe5ng,)\s+([A-Za-z\xe5\xe4\xf6\xc5\xc4\xd6]+)] *)
Definition passenger_pattern : regex :=
  Group 1 (Alt (Str tack_for_att_du_reser) (Str vi_ses_en_annan_gang))
  +++ Plus space +++ Group 2 (Plus name_class).

(** [(?:reser|\xe5ker|f\xe4rd|resa)] *)
Definition travel_word : regex :=
  Alt (Str (lit "reser"))
      (Alt (Str (a_ring :: lit "ker"))
           (Alt (Str (lit "f" ++ [a_uml] ++ lit "rd")) (Str (lit "resa")))).

(** [(?:resa|tur)] *)
Definition trip_word : regex := Alt (Str (lit "resa")) (Str (lit "tur")).

(** The three patterns built around a known name:
    [Tack\s+{name}!], [{name}s\s+(?:resa|tur)] and
    [(?:reser|\xe5ker|f\xe4rd|resa).*?,\s+{name}]. *)
Definition name_patterns (name : str) : list regex :=
  [ Str (lit "Tack") +++ Plus space +++ Str name +++ Chr (ch "!");
    Str name +++ Chr (ch "s") +++ Plus space +++ trip_word;
    travel_word +++ Lazy Any +++ Chr (ch ",") +++ Plus space +++ Str name ].

(** [Tack\s+([A-Za-z\xe5\xe4\xf6\xc5\xc4\xd6]+)!],
    [(?:reser|\xe5ker|f\xe4rd|resa).*?,\s+([A-Za-z\xe5\xe4\xf6\xc5\xc4\xd6]+)] and
    [([A-Za-z\xe5\xe4\xf6\xc5\xc4\xd6]+)s\s+(?:resa|tur)]. *)
Definition general_patterns : list regex :=
  [ Str (lit "Tack") +++ Plus space +++ Group 1 (Plus name_class)
      +++ Chr (ch "!");
    travel_word +++ Lazy Any +++ Chr (ch ",") +++ Plus space
      +++ Group 1 (Plus name_class);
    Group 1 (Plus name_class) +++ Chr (ch "s") +++ Plus space +++ trip_word ].

(** [\n\nValue #\d+:\n\n] *)
Definition value_marker : regex :=
  Str ([10%N; 10%N] ++ lit "Value #") +++ Plus digit
  +++ Str (ch ":" :: [10%N; 10%N]).

(** The names of the [family_members] set, as the source lists them. *)
Definition family_members : list str :=
  [lit "Fredrik"; lit "Viggo"; lit "Agne"; lit "Giedre"; lit "Nadine";
   lit "Leona"].

Definition swedish_months : list (str * str) :=
  [ (lit "januari", lit "01"); (lit "februari", lit "02");
    (lit "mars", lit "03"); (lit "april", lit "04");
    (lit "maj", lit "05"); (lit "juni", lit "06");
    (lit "juli", lit "07"); (lit "augusti", lit "08");
    (lit "september", lit "09"); (lit "oktober", lit "10");
    (lit "november", lit "11"); (lit "december", lit "12") ].

(** [swedish_months[key]], when [key in swedish_months]. *)
Fixpoint month_lookup (table : list (str * str)) (key : str) : option str :=
  match table with
  | [] => None
  | (k, v) :: table' => if str_eqb k key then Some v else month_lookup table' key
  end.

(** ** [convert_swedish_date_to_iso] *)

Definition convert_swedish_date_to_iso (date_str : str)
  : outcome (option str) :=
  match date_str with
  | [] => Ret None
  | _ :: _ =>
      try_except
        (let parts := Py.split (strip date_str) in
         if negb (Nat.eqb (length parts) 3) then Ret None
         else
           p0 <- index parts 0 ;;
           let day := zfill 2 p0 in
           p1 <- index parts 1 ;;
           let month_swedish := lower p1 in
           year <- index parts 2 ;;
           match month_lookup swedish_months month_swedish with
           | Some month =>
               Ret (Some (year ++ lit "-" ++ month ++ lit "-" ++ day))
           | None => Ret None
           end)
        (fun _ => Ret None)
  end.

(** [m.group(n)] on which a [str] method is then called: a group that took
    no part gives [None], and the method call raises. *)
Definition group_str (body : str) (m : rmatch) (n : nat) : outcome str :=
  match group body m n with
  | Some g => Ret g
  | None => Raise AttributeError
  end.

Definition is_match (m : option rmatch) : bool :=
  match m with Some _ => true | None => false end.

Section Extraction.

(** The order in which the [family_members] set is iterated: some
    arrangement of its six names.  A Python set of strings has no fixed
    order; the functions below take it as given. *)
Variable family_order : list str.

(** The nesting depth that [json.loads] has room for. *)
Variable recursion_limit : nat.

(** ** The handling of a [str] argument *)

(** The body of the loop over the pieces between the markers: the record
    decoded from one piece, if any. *)
Definition parse_part (part : str) : outcome (option value) :=
  let part := strip part in
  match part with
  | [] => Ret None
  | _ :: _ =>
      let attempt : outcome (option value) :=
        if startswith (ch "{") part && endswith (ch "}") part then
          email_data <- Json.loads recursion_limit part ;;
          Ret (Some email_data)
        else if contains (ch "{") part then
          let json_start := find_char (ch "{") part in
          let json_part := skipn json_start part in
          if endswith (ch "}") json_part then
            email_data <- Json.loads recursion_limit json_part ;;
            Ret (Some email_data)
          else Ret None
        else Ret None in
      match attempt with
      | Raise JSONDecodeError => Ret None
      | other => other
      end
  end.

Fixpoint parse_parts (parts : list str) (parsed_emails : list value)
  : outcome (list value) :=
  match parts with
  | [] => Ret parsed_emails
  | part :: parts' =>
      r <- parse_part part ;;
      parse_parts parts'
        match r with
        | Some email_data => parsed_emails ++ [email_data]
        | None => parsed_emails
        end
  end.

(** The block guarded by [isinstance(emails, str)]. *)
Definition parse_emails (emails : str) : outcome value :=
  try_except
    match Json.loads recursion_limit emails with
    | Ret parsed_emails =>
        Ret match parsed_emails with
            | VList _ => parsed_emails
            | _ => VList [parsed_emails]
            end
    | Raise JSONDecodeError =>
        parsed_emails <- parse_parts (Re.split value_marker emails) [] ;;
        Ret (VList parsed_emails)
    | Raise e => Raise e
    end
    (fun e => Raise (ValueError_FailedToParse e)).

(** ** [extract_receipt_from_email] *)

(** Cost and currency. *)
Definition extract_total (body : str)
  : outcome (option float * option str) :=
  match search total_pattern body with
  | Some total_match =>
      g <- group_str body total_match 2 ;;
      let cost_str := replace (ch ",") (ch ".") g in
      cost <- py_float cost_str ;;
      Ret (Some cost, group body total_match 3)
  | None =>
      match search total_pattern2 body with
      | Some total_match2 =>
          g <- group_str body total_match2 1 ;;
          let cost_str := replace (ch ",") (ch ".") g in
          cost <- py_float cost_str ;;
          Ret (Some cost, group body total_match2 2)
      | None => Ret (None, None)
      end
  end.

(** The date. *)
Definition extract_date (body : str) : outcome (option str) :=
  match search date_pattern body with
  | Some date_match =>
      g <- group_str body date_match 2 ;;
      convert_swedish_date_to_iso (strip g)
  | None =>
      match search general_date_pattern body with
      | Some general_date_match =>
          g <- group_str body general_date_match 1 ;;
          convert_swedish_date_to_iso (strip g)
      | None => Ret None
      end
  end.

(** The loop over the patterns of one known name. *)
Definition name_found (body : str) (name : str) : bool :=
  existsb (fun pattern => is_match (search pattern body)) (name_patterns name).

(** The loop over the known names; [passenger] is the variable it
    updates. *)
Fixpoint by_known_name (body : str) (names : list str)
    (passenger : option str) : option str :=
  match names with
  | [] => passenger
  | name :: names' =>
      let passenger := if name_found body name then Some name else passenger in
      if truthy passenger then passenger
      else by_known_name body names' passenger
  end.

(** The loop that looks the captured text up among the known names,
    whatever the case of its letters. *)
Fixpoint canonical (candidate : str) (members : list str)
    (passenger : option str) : option str :=
  match members with
  | [] => passenger
  | member :: members' =>
      if str_eqb (lower candidate) (lower member) then Some member
      else canonical candidate members' passenger
  end.

(** The loop over the general patterns: the first that matches decides. *)
Fixpoint by_general_pattern (body : str) (patterns : list regex)
    (passenger : option str) : outcome (option str) :=
  match patterns with
  | [] => Ret passenger
  | pattern :: patterns' =>
      match search pattern body with
      | Some m =>
          g <- group_str body m 1 ;;
          let candidate := strip g in
          let passenger := canonical candidate family_order passenger in
          Ret (if truthy passenger then passenger else Some candidate)
      | None => by_general_pattern body patterns' passenger
      end
  end.

(** The passenger. *)
Definition extract_passenger (body : str) : outcome (option str) :=
  match search passenger_pattern body with
  | Some passenger_match =>
      g <- group_str body passenger_match 2 ;;
      let candidate_name := strip g in
      Ret (Some candidate_name)
  | None =>
      let passenger := by_known_name body family_order None in
      if negb (truthy passenger)
      then by_general_pattern body general_patterns passenger
      else Ret passenger
  end.

Definition no_receipt : receipt := mk_receipt None None None None.

(** The part of [extract_receipt_from_email] that follows the decoding of a
    [str] argument. *)
Definition extract_fields (email_data : value) : outcome receipt :=
  body <- py_get email_data (lit "body") (VStr []) ;;
  match body with
  | VStr body =>
      total <- extract_total body ;;
      date_str <- extract_date body ;;
      passenger <- extract_passenger body ;;
      Ret (mk_receipt (fst total) (snd total) date_str passenger)
  | _ => Raise TypeError
  end.

Definition extract_receipt_from_email (email_data : value)
  : outcome receipt :=
  match email_data with
  | VStr s =>
      match Json.loads recursion_limit s with
      | Ret email_data => extract_fields email_data
      | Raise JSONDecodeError => Ret no_receipt
      | Raise e => Raise e
      end
  | _ => extract_fields email_data
  end.

(** ** [extract_uber_data] *)

(** One round of the loop over the emails. *)
Definition process_email (out : columns) (email : value) : columns :=
  match extract_receipt_from_email email with
  | Ret extracted =>
      match cost extracted, currency extracted with
      | Some c, Some cur =>
          mk_columns (dates out ++ [date extracted])
                     (passenger_names out ++ [passenger extracted])
                     (costs out ++ [c])
                     (currencies out ++ [cur])
      | _, _ => out
      end
  | Raise _ => out
  end.

Definition no_columns : columns := mk_columns [] [] [] [].

Definition output : Type :=
  list (option str) * list (option str) * list float * list str.

(** What follows the loop: the two validations and the returned tuple. *)
Definition validate (out : columns) : outcome output :=
  let list_lengths :=
    [length (dates out); length (passenger_names out); length (costs out);
     length (currencies out)] in
  if negb (Nat.eqb (length (nodup Nat.eq_dec list_lengths)) 1) then
    Raise (ValueError_Inconsistent (length (dates out))
             (length (passenger_names out)) (length (costs out))
             (length (currencies out)))
  else
    let total_receipts := length (costs out) in
    if Nat.eqb total_receipts 0 then Raise ValueError_NoValidReceipts
    else Ret (dates out, passenger_names out, costs out, currencies out).

Definition extract_uber_data (emails : value) : outcome output :=
  emails <- match emails with
            | VStr s => parse_emails s
            | _ => Ret emails
            end ;;
  items <- py_iter emails ;;
  validate (fold_left process_email items no_columns).

End Extraction.

End ExtractUberData.

(* ================================================================== *)
(** * [process_uber_receipts.py]                                       *)
(* ================================================================== *)

Module ProcessUberReceipts.

Import Py Re.
Local Open Scope list_scope.

Record receipt : Type := mk_receipt {
  cost : option float;
  currency : option str;
  date : option str;
  passenger : option str
}.

Record columns : Type := mk_columns {
  dates : list (option str);
  passenger_names : list (option str);
  costs : list float;
  currencies : list str
}.

(** [[A-Za-z$\u20ac\xa3]] *)
Definition currency_class : regex :=
  Cls [Range (ch "A") (ch "Z"); Range (ch "a") (ch "z"); One (ch "$");
       One euro; One pound].

(** [[\d\.,]] *)
Definition amount_class : regex := Cls [Digit; One (ch "."); One (ch ",")].

(** [[A-Za-z\xe5\xe4\xf6\xc5\xc4\xd6]] *)
Definition name_class : regex :=
  Cls [Range (ch "A") (ch "Z"); Range (ch "a") (ch "z");
       One a_ring; One a_uml; One o_uml; One A_ring; One A_uml; One O_uml].

(** [[a-zA-Z\xe5\xe4\xf6\xc5\xc4\xd6]] *)
Definition month_class : regex :=
  Cls [Range (ch "a") (ch "z"); Range (ch "A") (ch "Z");
       One a_ring; One a_uml; One o_uml; One A_ring; One A_uml; One O_uml].

(** [[0-9]] *)
Definition digit09 : regex := Cls [Range (ch "0") (ch "9")].

(** [Totalt\s+([\d\.,]+)\s+([A-Za-z$\u20ac\xa3]+)] *)
Definition total_pattern : regex :=
  Str (lit "Totalt") +++ Plus space +++ Group 1 (Plus amount_class)
  +++ Plus space +++ Group 2 (Plus currency_class).

(** [Totalt\s+[\d\.,]+\s+[A-Za-z$\u20ac\xa3]+\s+(<date>)], where [<date>] is
    [[0-9]{1,2}\s+[a-zA-Z\xe5\xe4\xf6\xc5\xc4\xd6]+\s+[0-9]{4}] *)
Definition date_pattern : regex :=
  Str (lit "Totalt") +++ Plus space +++ Plus amount_class +++ Plus space
  +++ Plus currency_class +++ Plus space
  +++ Group 1 ((digit09 +++ Opt digit09) +++ Plus space +++ Plus month_class
               +++ Plus space
               +++ (digit09 +++ digit09 +++ digit09 +++ digit09)).

(** [Tack f\xf6r att du reser,\s+([A-Za-z\xe5\xe4\xf6\xc5\xc4\xd6]+)] *)
Definition passenger_pattern : regex :=
  Str (lit "Tack f" ++ [o_uml] ++ lit "r att du reser,") +++ Plus space
  +++ Group 1 (Plus name_class).

Definition swedish_months : list (str * str) :=
  [ (lit "januari", lit "01"); (lit "februari", lit "02");
    (lit "mars", lit "03"); (lit "april", lit "04");
    (lit "maj", lit "05"); (lit "juni", lit "06");
    (lit "juli", lit "07"); (lit "augusti", lit "08");
    (lit "september", lit "09"); (lit "oktober", lit "10");
    (lit "november", lit "11"); (lit "december", lit "12") ].

Fixpoint month_lookup (table : list (str * str)) (key : str) : option str :=
  match table with
  | [] => None
  | (k, v) :: table' => if str_eqb k key then Some v else month_lookup table' key
  end.

(** The module-level [convert_swedish_date_to_iso]; [function] declares an
    inner function with the same body. *)
Definition convert_swedish_date_to_iso (date_str : str)
  : outcome (option str) :=
  match date_str with
  | [] => Ret None
  | _ :: _ =>
      try_except
        (let parts := Py.split (strip date_str) in
         if negb (Nat.eqb (length parts) 3) then Ret None
         else
           p0 <- index parts 0 ;;
           let day := zfill 2 p0 in
           p1 <- index parts 1 ;;
           let month_swedish := lower p1 in
           year <- index parts 2 ;;
           match month_lookup swedish_months month_swedish with
           | Some month =>
               Ret (Some (year ++ lit "-" ++ month ++ lit "-" ++ day))
           | None => Ret None
           end)
        (fun _ => Ret None)
  end.

Definition group_str (body : str) (m : rmatch) (n : nat) : outcome str :=
  match group body m n with
  | Some g => Ret g
  | None => Raise AttributeError
  end.

(** Cost and currency, as [extract_single_receipt] finds them. *)
Definition extract_total (body : str)
  : outcome (option float * option str) :=
  match search total_pattern body with
  | Some total_match =>
      g <- group_str body total_match 1 ;;
      let cost_str := replace (ch ",") (ch ".") g in
      cost <- py_float cost_str ;;
      Ret (Some cost, group body total_match 2)
  | None => Ret (None, None)
  end.

(** [extract_single_receipt], the inner function of [function]. *)
Definition extract_single_receipt (email_data : value) : outcome receipt :=
  body <- py_get email_data (lit "body") (VStr []) ;;
  match body with
  | VStr body =>
      total <- extract_total body ;;
      date_str <-
        match search date_pattern body with
        | Some date_match =>
            g <- group_str body date_match 1 ;;
            convert_swedish_date_to_iso (strip g)
        | None => Ret None
        end ;;
      passenger <-
        match search passenger_pattern body with
        | Some passenger_match =>
            g <- group_str body passenger_match 1 ;;
            Ret (Some (strip g))
        | None => Ret None
        end ;;
      Ret (mk_receipt (fst total) (snd total) date_str passenger)
  | _ => Raise TypeError
  end.

Definition process_email (out : columns) (email : value) : columns :=
  match extract_single_receipt email with
  | Ret extracted =>
      match cost extracted, currency extracted with
      | Some c, Some cur =>
          mk_columns (dates out ++ [date extracted])
                     (passenger_names out ++ [passenger extracted])
                     (costs out ++ [c])
                     (currencies out ++ [cur])
      | _, _ => out
      end
  | Raise _ => out
  end.

Definition no_columns : columns := mk_columns [] [] [] [].

Definition output : Type :=
  list (option str) * list (option str) * list float * list str.

(** [function]: the loop, the length validation and the returned tuple. *)
Definition function (emails : value) : outcome output :=
  items <- py_iter emails ;;
  let out := fold_left process_email items no_columns in
  let list_lengths :=
    [length (dates out); length (passenger_names out); length (costs out);
     length (currencies out)] in
  if negb (Nat.eqb (length (nodup Nat.eq_dec list_lengths)) 1) then
    Raise (ValueError_Inconsistent (length (dates out))
             (length (passenger_names out)) (length (costs out))
             (length (currencies out)))
  else Ret (dates out, passenger_names out, costs out, currencies out).

End ProcessUberReceipts.

(* ================================================================== *)
(** * Printing, files and further built-ins                            *)
(* ================================================================== *)

Module PyLib.

Import Py.
Local Open Scope N_scope.
Local Open Scope list_scope.

(** ** Strings *)

(** [b.startswith(a)]. *)
Fixpoint is_prefix (a b : str) : bool :=
  match a, b with
  | [], _ => true
  | x :: a', y :: b' => (x =? y) && is_prefix a' b'
  | _ :: _, [] => false
  end.

(** [a in b] for two strings: [a] occurs somewhere in [b]. *)
Fixpoint str_in (a b : str) : bool :=
  match b with
  | [] => is_prefix a []
  | _ :: b' => is_prefix a b || str_in a b'
  end.

(** [a < b] on strings: the first code point that differs decides, and a
    proper prefix comes first. *)
Fixpoint str_ltb (a b : str) : bool :=
  match a, b with
  | _, [] => false
  | [], _ :: _ => true
  | x :: a', y :: b' => (x <? y) || ((x =? y) && str_ltb a' b')
  end.

(** ** [sorted] *)

Section Sorted.

Variable A : Type.

(** [a < b] on the items. *)
Variable ltb : A -> A -> bool.

(** [x] goes before the first item that is not smaller than it. *)
Fixpoint insert (x : A) (l : list A) : list A :=
  match l with
  | [] => [x]
  | y :: l' => if ltb y x then y :: insert x l' else x :: l
  end.

(** [sorted(l)]: ascending, and items that compare equal keep their
    order. *)
Fixpoint sorted (l : list A) : list A :=
  match l with
  | [] => []
  | x :: l' => insert x (sorted l')
  end.

End Sorted.

(** ** A dict that counts *)

(** A dict from [str] to [int], as its items in the order of insertion. *)
Definition counts : Type := list (str * N).

(** [d.get(key, default)]. *)
Fixpoint count_get (d : counts) (key : str) (default : N) : N :=
  match d with
  | [] => default
  | (k, v) :: d' => if str_eqb k key then v else count_get d' key default
  end.

(** [d[key] = v]: an existing key keeps its place. *)
Fixpoint count_set (d : counts) (key : str) (v : N) : counts :=
  match d with
  | [] => [(key, v)]
  | (k, w) :: d' =>
      if str_eqb k key then (k, v) :: d' else (k, w) :: count_set d' key v
  end.

(** [a < b] on two items of such a dict, which are pairs: the keys decide
    unless they are equal. *)
Definition item_ltb (a b : str * N) : bool :=
  if str_eqb (fst a) (fst b) then snd a <? snd b
  else str_ltb (fst a) (fst b).

(** ** A set of strings *)

(** [x in s]. *)
Definition set_mem (x : str) (s : list str) : bool := existsb (str_eqb x) s.

(** [s.add(x)] on a set kept as the list of its members, each once.  The
    order of the list stands for the order in which the set is iterated;
    the modules only sort such a set and test whether it is empty. *)
Definition set_add (x : str) (s : list str) : list str :=
  if set_mem x s then s else s ++ [x].

(** ** [enumerate] *)


(** [range(n)]. *)
Definition range (n : nat) : list nat := seq 0 n.

(** ** [sum] *)


(** [sum(xs)] for a list of floats: the [int] 0 when there is nothing to
    add. *)
Definition py_sum (float_sum : list float -> float) (xs : list float)
  : value :=
  match xs with
  | [] => VInt 0
  | _ :: _ => VFloat (float_sum xs)
  end.

(** [v > 0] for what [sum] returns. *)
Definition gt_zero (v : value) : bool :=
  match v with
  | VInt z => (0 <? z)%Z
  | VFloat f => SFltb (S754_zero false) f
  | _ => false
  end.

(** ** Classes of exceptions *)


(** ** Files *)

(** What [open] and [read] can raise. *)
Inductive file_error : Type :=
| FileNotFoundError
| OtherFileError.          (* no permission, a directory, bytes that are
                              not UTF-8, ... *)

(** The outcome of opening a file for reading and reading all of it. *)
Inductive read_result : Type :=
| Content (text : str)
| NotRead (e : file_error).

(** The files, by path. *)
Definition file_system : Type := str -> read_result.

(** What a handler of a script can be handed. *)
Inductive raised : Type :=
| FileError (e : file_error)
| Exn (e : exn).

(** ** Printing *)

Section Printing.

(** The lines that can be printed. *)
Variable L : Type.

(** A computation that prints: the lines printed, in order, and how it
    ended. *)
Definition printing (A : Type) : Type := list L * outcome A.

Definition pure (A : Type) (a : A) : printing A := ([], Ret a).

Definition print (l : L) : printing unit := ([l], Ret tt).

(** A computation that prints nothing. *)
Definition lift (A : Type) (m : outcome A) : printing A := ([], m).

Definition and_then (A B : Type) (m : printing A) (f : A -> printing B)
  : printing B :=
  match m with
  | (printed, Ret a) => let '(printed', r) := f a in (printed ++ printed', r)
  | (printed, Raise e) => (printed, Raise e)
  end.

(** [try: body  except Exception as e: handler]. *)
Definition catch (A : Type) (body : printing A) (handler : exn -> printing A)
  : printing A :=
  match body with
  | (printed, Ret a) => (printed, Ret a)
  | (printed, Raise e) =>
      let '(printed', r) := handler e in (printed ++ printed', r)
  end.

End Printing.

Arguments pure {L A} a.
Arguments print {L} l.
Arguments lift {L A} m.
Arguments and_then {L A B} m f.
Arguments catch {L A} body handler.

Notation "x <~ m ;; k" := (and_then m (fun x => k))
  (at level 61, m at next level, right associativity).

Notation "m ;;; k" := (and_then m (fun _ => k))
  (at level 61, right associativity).

End PyLib.

(* ================================================================== *)
(** * [process_uber_receipts.py]: the functions that print             *)
(* ================================================================== *)

Module ProcessUberReceiptsScript.

Import Py Re PyLib.
Local Open Scope list_scope.

(** The dictionary that [extract_uber_receipt_data] returns. *)
Record receipt_data : Type := mk_receipt_data {
  email_id : value;
  cost : option float;
  currency : option str;
  date : option str;
  passenger : option str;
  is_cancellation : bool;
  subject : value;
  email_date : value
}.

(** The lines that the module prints.  A line is kept as what it reports:
    the values shown in it, not their rendering as text. *)
Inductive line : Type :=
| WarningCouldNotParse
    (* Warning: Could not parse JSON in part: ... *)
| ErrorFileNotFound (file_path : str)
    (* Error: File '...' not found. *)
| ErrorReadingFile (e : raised)
    (* Error reading file: ... *)
| Entry (i : nat) (cost : float) (currency : str) (date passenger : option str)
    (* Entry i: cost currency - date - passenger *)
| EntryCouldNotExtract (i : nat) (email_id : value)
    (* Entry i: Could not extract data from email ... *)
| ErrorProcessingEmail (i : nat) (e : exn)
    (* Error processing email i: ... *)
| ValidationPassed (n : nat)
    (* Validation passed: All lists have n elements *)
| ProcessingFrom (input_file : str)
    (* Processing Uber receipts from: ... *)
| Rule
    (* fifty hyphens *)
| NoEmailData
    (* No email data found or could not parse file. *)
| FoundEmails (n : nat)
    (* Found n emails to process *)
| SuccessfullyProcessed (n : nat)
    (* Successfully processed n entries *)
| TotalEntries (n : nat)
    (* Total entries processed: n *)
| DataValidation (n : nat)
    (* Data validation: All 4 lists contain n elements *)
| TotalSEK (total : value)
    (* Total cost in SEK: ... kr *)
| TotalUSD (total : value)
    (* Total cost in USD: ... US$ *)
| RidesPerPassenger
    (* Rides per passenger: *)
| Rides (passenger : str) (count : N)
    (* passenger: count rides *)
| ValidationError (e : exn)
    (* Validation error: ... *)
| ErrorProcessingEmails (e : exn).
    (* Error processing emails: ... *)

(** The patterns are those of [function], written out a second time in
    the source. *)
Definition total_pattern : regex := ProcessUberReceipts.total_pattern.
Definition date_pattern : regex := ProcessUberReceipts.date_pattern.
Definition passenger_pattern : regex := ProcessUberReceipts.passenger_pattern.

(** [\n\nValue #\d+:\n\n] *)
Definition value_marker : regex :=
  Str ([10%N; 10%N] ++ lit "Value #") +++ Plus digit
  +++ Str (ch ":" :: [10%N; 10%N]).

Definition group_str (body : str) (m : rmatch) (n : nat) : outcome str :=
  match group body m n with
  | Some g => Ret g
  | None => Raise AttributeError
  end.

(** ** [extract_uber_receipt_data] *)

Definition extract_uber_receipt_data (email_data : value)
  : outcome receipt_data :=
  body <- py_get email_data (lit "body") (VStr []) ;;
  match body with
  | VStr body =>
      total <-
        match search total_pattern body with
        | Some total_match =>
            g <- group_str body total_match 1 ;;
            let cost_str := replace (ch ",") (ch ".") g in
            cost <- py_float cost_str ;;
            Ret (Some cost, group body total_match 2)
        | None => Ret (None, None)
        end ;;
      date_str <-
        match search date_pattern body with
        | Some date_match =>
            g <- group_str body date_match 1 ;;
            ProcessUberReceipts.convert_swedish_date_to_iso (strip g)
        | None => Ret None
        end ;;
      passenger <-
        match search passenger_pattern body with
        | Some passenger_match =>
            g <- group_str body passenger_match 1 ;;
            Ret (Some (strip g))
        | None => Ret None
        end ;;
      let is_cancellation := str_in (lit "Avbokningsavgift") body in
      email_id <- py_get email_data (lit "id") VNone ;;
      subject <- py_get email_data (lit "subject") (VStr []) ;;
      email_date <- py_get email_data (lit "date") (VStr []) ;;
      Ret (mk_receipt_data email_id (fst total) (snd total) date_str
             passenger is_cancellation subject email_date)
  | _ => Raise TypeError
  end.

(** ** [process_all_emails] *)

(** One round of the loop; [i] counts the emails from one. *)
Definition process_email (out : ProcessUberReceipts.columns)
    (i : nat) (email : value) : printing line ProcessUberReceipts.columns :=
  catch
    (extracted <~ lift (extract_uber_receipt_data email) ;;
     match cost extracted, currency extracted with
     | Some c, Some cur =>
         print (Entry i c cur (date extracted) (passenger extracted)) ;;;
         pure (ProcessUberReceipts.mk_columns
                 (ProcessUberReceipts.dates out ++ [date extracted])
                 (ProcessUberReceipts.passenger_names out
                    ++ [passenger extracted])
                 (ProcessUberReceipts.costs out ++ [c])
                 (ProcessUberReceipts.currencies out ++ [cur]))
     | _, _ =>
         print (EntryCouldNotExtract i (email_id extracted)) ;;; pure out
     end)
    (fun e => print (ErrorProcessingEmail i e) ;;; pure out).



Section Script.

(** The nesting depth that [json.loads] has room for. *)
Variable recursion_limit : nat.

(** The files that [open] finds. *)
Variable files : file_system.

(** What [sum] returns for floats: see [sum_left_to_right]. *)
Variable float_sum : list float -> float.

(** ** [parse_uber_data_file] *)

(** What the inner [try] does with one piece: the record decoded from it,
    if any. *)
Definition parse_part (part : str) : outcome (option value) :=
  if startswith (ch "{") part && endswith (ch "}") part then
    email_data <- Json.loads recursion_limit part ;;
    Ret (Some email_data)
  else if contains (ch "{") part then
    let json_start := find_char (ch "{") part in
    let json_part := skipn json_start part in
    if endswith (ch "}") json_part then
      email_data <- Json.loads recursion_limit json_part ;;
      Ret (Some email_data)
    else Ret None
  else Ret None.

(** The loop over the pieces between the markers. *)
Fixpoint parse_parts (parts : list str) (emails : list value)
  : printing line (list value) :=
  match parts with
  | [] => pure emails
  | part :: parts' =>
      let part := strip part in
      match part with
      | [] => parse_parts parts' emails
      | _ :: _ =>
          match parse_part part with
          | Ret (Some email_data) =>
              parse_parts parts' (emails ++ [email_data])
          | Ret None => parse_parts parts' emails
          | Raise JSONDecodeError =>
              print WarningCouldNotParse ;;; parse_parts parts' emails
          | Raise e => lift (Raise e)
          end
      end
  end.

(** The function returns in every case; the pair holds what it printed
    and the list it returned. *)
Definition parse_uber_data_file (file_path : str) : list line * list value :=
  match files file_path with
  | Content content =>
      let parts := Re.split value_marker content in
      match parse_parts parts [] with
      | (printed, Ret emails) => (printed, emails)
      | (printed, Raise e) => (printed ++ [ErrorReadingFile (Exn e)], [])
      end
  | NotRead FileNotFoundError => ([ErrorFileNotFound file_path], [])
  | NotRead e => ([ErrorReadingFile (FileError e)], [])
  end.

(** ** [main] *)


(** The loop that counts the rides of each passenger. *)
Definition count_rides (passenger_names : list (option str)) : counts :=
  fold_left
    (fun passengers passenger =>
       match passenger with
       | Some p =>
           if truthy passenger
           then count_set passengers p (count_get passengers p 0 + 1)
           else passengers
       | None => passengers
       end)
    passenger_names [].




End Script.

End ProcessUberReceiptsScript.

(* ================================================================== *)
(** * [extract_uber_data.py]: the statistics and the demonstration     *)
(* ================================================================== *)

Module ExtractUberDataScript.

Import Py Re PyLib.
Local Open Scope list_scope.

(** The lines that the module prints, kept as what they report. *)
Inductive line : Type :=
| ReadingDataFrom (file_path : str)
    (* Reading data from: ... *)
| SuccessfullyExtracted (total_receipts : nat)
    (* Successfully extracted n receipts *)
| Attribution (attributed_rides : nat) (unattributed_rides : Z)
    (* Attributed rides: a, Unattributed: u *)
| UnknownNames (names : list str)
    (* Unknown passenger names found: a, b, ... *)
| SampleFirstFive
    (* Sample data (first 5 entries): *)
| SampleAll
    (* Sample data: *)
| Sample (date passenger : option str) (cost : float) (currency : str)
    (* date | passenger | cost currency *)
| TotalSEK (total : value)
    (* Total in SEK: ... kr *)
| TotalUSD (total : value)
    (* Total in USD: ... US$ *)
| RidesByPassenger
    (* Rides by passenger: *)
| Rides (passenger : str) (count : N)
    (* passenger: count *)
| Error (e : raised).
    (* Error: ... *)

(** The names of the [known_family] set; they are those of
    [family_members]. *)
Definition known_family : list str :=
  [lit "Fredrik"; lit "Viggo"; lit "Agne"; lit "Giedre"; lit "Nadine";
   lit "Leona"].

Definition is_not_None (A : Type) (p : option A) : bool :=
  match p with Some _ => true | None => false end.

(** [sum(1 for p in passengers if p is not None)]. *)
Definition attributed_rides (passengers : list (option str)) : nat :=
  length (filter (@is_not_None str) passengers).

(** [total_receipts - attributed_rides]. *)
Definition unattributed_rides (costs : list float)
    (passengers : list (option str)) : Z :=
  (Z.of_nat (length costs) - Z.of_nat (attributed_rides passengers))%Z.

(** The loop that collects the names outside the known family. *)
Definition unknown_names (passengers : list (option str)) : list str :=
  fold_left
    (fun unknown name =>
       match name with
       | Some n =>
           if negb (set_mem n known_family) then set_add n unknown
           else unknown
       | None => unknown
       end)
    passengers [].

(** The loop that counts the rides of each passenger. *)
Definition count_rides (passengers : list (option str)) : counts :=
  fold_left
    (fun passenger_counts p =>
       match p with
       | Some name =>
           if truthy p
           then count_set passenger_counts name
                  (count_get passenger_counts name 0 + 1)
           else passenger_counts
       | None => passenger_counts
       end)
    passengers [].

(** The loop that prints the rows [dates[i] | passengers[i] | costs[i]
    currencies[i]] for the given indices. *)
Fixpoint print_samples (indices : list nat)
    (dates passengers : list (option str))
    (costs : list float) (currencies : list str) : printing line unit :=
  match indices with
  | [] => pure tt
  | i :: indices' =>
      d <~ lift (index dates i) ;;
      p <~ lift (index passengers i) ;;
      c <~ lift (index costs i) ;;
      cur <~ lift (index currencies i) ;;
      print (Sample d p c cur) ;;;
      print_samples indices' dates passengers costs currencies
  end.

(** The loop that prints the rides of each passenger. *)
Fixpoint print_rides (items : list (str * N)) : printing line unit :=
  match items with
  | [] => pure tt
  | (p, count) :: items' => print (Rides p count) ;;; print_rides items'
  end.

(** The first lines of both reports: the counts and the unknown names. *)
Definition print_attribution (passengers : list (option str))
    (costs : list float) : printing line unit :=
  let total_receipts := length costs in
  let unknown := unknown_names passengers in
  print (SuccessfullyExtracted total_receipts) ;;;
  print (Attribution (attributed_rides passengers)
           (unattributed_rides costs passengers)) ;;;
  match unknown with
  | [] => pure tt
  | _ :: _ => print (UnknownNames (sorted str_ltb unknown))
  end.

Section Script.

(** The order in which the [family_members] set is iterated. *)
Variable family_order : list str.

(** The nesting depth that [json.loads] has room for. *)
Variable recursion_limit : nat.

(** The files that [open] finds. *)
Variable files : file_system.

(** What [sum] returns for floats: see [sum_left_to_right]. *)
Variable float_sum : list float -> float.

Definition total (code : str) (costs : list float) (currencies : list str)
  : value :=
  py_sum float_sum
    (map fst
       (filter (fun cc => str_eqb (snd cc) code) (combine costs currencies))).

(** What [demo_extraction] does with the text of the file, inside its
    [try]. *)
Definition report (content : str) : printing line unit :=
  r <~ lift (ExtractUberData.extract_uber_data family_order recursion_limit
               (VStr content)) ;;
  let '(dates, passengers, costs, currencies) := r in
  print_attribution passengers costs ;;;
  print SampleFirstFive ;;;
  print_samples (range (Nat.min 5 (length costs))) dates passengers costs
    currencies ;;;
  let total_kr := total (lit "kr") costs currencies in
  let total_usd := total (lit "US$") costs currencies in
  print (TotalSEK total_kr) ;;;
  (if gt_zero total_usd then print (TotalUSD total_usd) else pure tt) ;;;
  print RidesByPassenger ;;;
  print_rides (sorted item_ltb (count_rides passengers)).




End Script.

End ExtractUberDataScript.

(* ================================================================== *)
(** * Vocabulary of the statements                                     *)
(* ================================================================== *)

Module Spec.

Import Py Re.
Local Open Scope list_scope.

(** ** Strings *)

(** A text made of blanks. *)
Definition spaces (ws : str) : Prop := Forall (fun c => isspace c = true) ws.

(** [frag] occurs in [s]. *)
Definition infix (frag s : str) : Prop :=
  exists pre post, s = pre ++ frag ++ post.

(** ** Regular expressions *)

(** The texts that a pattern matches, whatever the order in which a
    matcher tries them. *)
Inductive lang : regex -> str -> Prop :=
| lang_eps : lang Eps []
| lang_chr : forall c, lang (Chr c) [c]
| lang_cls : forall items y,
    existsb (item_mem y) items = true -> lang (Cls items) [y]
| lang_any : forall y, N.eqb y 10 = false -> lang Any [y]
| lang_seq : forall r1 r2 a b,
    lang r1 a -> lang r2 b -> lang (Seq r1 r2) (a ++ b)
| lang_alt_l : forall r1 r2 a, lang r1 a -> lang (Alt r1 r2) a
| lang_alt_r : forall r1 r2 a, lang r2 a -> lang (Alt r1 r2) a
| lang_star_nil : forall g r, lang (Star g r) []
| lang_star_more : forall g r a b,
    lang r a -> lang (Star g r) b -> lang (Star g r) (a ++ b)
| lang_group : forall n r a, lang r a -> lang (Group n r) a.

(** The patterns enclosed by the capturing groups numbered [n]. *)
Fixpoint subgroups (n : nat) (r : regex) : list regex :=
  match r with
  | Group m r1 => (if Nat.eqb m n then [r1] else []) ++ subgroups n r1
  | Seq r1 r2 => subgroups n r1 ++ subgroups n r2
  | Alt r1 r2 => subgroups n r1 ++ subgroups n r2
  | Star _ r1 => subgroups n r1
  | _ => []
  end.

(** Group [n] takes part in every match of the pattern. *)
Fixpoint binds (n : nat) (r : regex) : bool :=
  match r with
  | Group m r1 => Nat.eqb m n || binds n r1
  | Seq r1 r2 => binds n r1 || binds n r2
  | Alt r1 r2 => binds n r1 && binds n r2
  | _ => false
  end.

(** A capture is sound when its span lies in the subject and its text is
    matched by a group of that number. *)
Definition capture_ok (body : str) (r : regex) (e : nat * (nat * nat)) : Prop :=
  let '(n, (a, b)) := e in
  (a <= b <= length body)%nat /\
  exists r1, In r1 (subgroups n r) /\ lang r1 (slice a b body).

(** The attempt that [re.search] makes at one position: [s] is the text
    from position [i] on. *)
Definition try_at (r : regex) (i : nat) (s : str) : result :=
  match_at r i s [] (fun e _ c => Some (e, c)).

(** The pattern matches at position [j] of [body]. *)
Definition matches_at (r : regex) (body : str) (j : nat) : bool :=
  match try_at r j (skipn j body) with Some _ => true | None => false end.

(** What a successful match against [body] establishes: the matched text
    belongs to the pattern, the new captures are sound, and the
    continuation has succeeded from the position reached. *)
Definition sound_result (body : str) (r : regex) (i : nat) (c : captures)
    (k : cont) (res : nat * captures) : Prop :=
  exists j new,
    (i <= j <= length body)%nat /\
    lang r (slice i j body) /\
    Forall (capture_ok body r) new /\
    (forall n, binds n r = true -> lookup n new <> None) /\
    k j (skipn j body) (new ++ c) = Some res.

(** The match of the first pattern of the list that matches the body. *)
Fixpoint first_match (body : str) (patterns : list regex) : option rmatch :=
  match patterns with
  | [] => None
  | pattern :: patterns' =>
      match search pattern body with
      | Some m => Some m
      | None => first_match body patterns'
      end
  end.

(** ** Decimal separators *)

Definition is_sep (c : char) : bool := N.eqb c (ch ",") || N.eqb c (ch ".").

(** Two characters that are the same, or are both decimal separators. *)
Definition sep_equiv (a b : char) : Prop :=
  a = b \/ (is_sep a = true /\ is_sep b = true).

(** Two continuations that agree on texts equal up to the separators. *)
Definition cont_blind (k k' : cont) : Prop :=
  forall i t t' c, Forall2 sep_equiv t t' -> k i t c = k' i t' c.

(** A pattern that does not tell [,] from [.]. *)
Fixpoint sep_blind (r : regex) : bool :=
  match r with
  | Eps | Any => true
  | Chr c => negb (is_sep c)
  | Cls items =>
      Bool.eqb (existsb (item_mem (ch ",")) items)
               (existsb (item_mem (ch ".")) items)
  | Seq r1 r2 | Alt r1 r2 => sep_blind r1 && sep_blind r2
  | Star _ r1 | Group _ r1 => sep_blind r1
  end.

(** A text made of decimal digits. *)
Definition digits (d : str) : Prop := Forall (fun c => isdecimal c = true) d.

(** A text made of decimal digits and points: what the two modules pass
    to [float]. *)
Definition digits_and_points (s : str) : bool :=
  forallb (fun c => isdecimal c || N.eqb c (ch ".")) s.

(** An amount with digits and at most one separator: at least one digit,
    nothing but digits and separators. *)
Definition plain_amount (amt : str) : bool :=
  forallb (fun c => isdecimal c || is_sep c) amt
  && existsb isdecimal amt
  && (length (filter is_sep amt) <=? 1)%nat.

(** ** Records *)

(** The cost of a cost-and-currency result. *)
Definition cost_of (r : outcome (option float * option str))
  : outcome (option float) :=
  x <- r ;; Ret (fst x).

(** The cost of an extracted receipt. *)
Definition receipt_cost (r : outcome ExtractUberData.receipt)
  : outcome (option float) :=
  x <- r ;; Ret (ExtractUberData.cost x).

Definition strict_receipt_cost (r : outcome ProcessUberReceipts.receipt)
  : outcome (option float) :=
  x <- r ;; Ret (ProcessUberReceipts.cost x).

(** An email dictionary with nothing but a body. *)
Definition record (body : str) : value := VDict [(lit "body", VStr body)].

(** The record is appended to the output lists of [extract_uber_data]:
    the extraction returns, with a cost and a currency. *)
Definition accepted (family_order : list str) (recursion_limit : nat)
    (email : value) : bool :=
  match ExtractUberData.extract_receipt_from_email
          family_order recursion_limit email with
  | Ret r =>
      match ExtractUberData.cost r, ExtractUberData.currency r with
      | Some _, Some _ => true
      | _, _ => false
      end
  | Raise _ => false
  end.

(** The body text of an email, when it has one: the email is a dictionary,
    or a string that decodes to one, and its [body] is a string. *)
Definition email_body (recursion_limit : nat) (email : value) : option str :=
  let decoded :=
    match email with
    | VStr s =>
        match Json.loads recursion_limit s with
        | Ret v => Some v
        | Raise _ => None
        end
    | _ => Some email
    end in
  match decoded with
  | Some (VDict d) =>
      match dict_get d (lit "body") (VStr []) with
      | VStr body => Some body
      | _ => None
      end
  | _ => None
  end.

(** A cost and a currency are extracted from the body of the email. *)
Definition has_total (recursion_limit : nat) (email : value) : bool :=
  match email_body recursion_limit email with
  | Some body =>
      match ExtractUberData.extract_total body with
      | Ret (Some _, Some _) => true
      | _ => false
      end
  | None => false
  end.

(** The same for [function] of [process_uber_receipts.py]. *)
Definition accepted_strict (email : value) : bool :=
  match ProcessUberReceipts.extract_single_receipt email with
  | Ret r =>
      match ProcessUberReceipts.cost r, ProcessUberReceipts.currency r with
      | Some _, Some _ => true
      | _, _ => false
      end
  | Raise _ => false
  end.

(** The records that [extract_uber_data] loops over. *)
Definition input_records (family_order : list str) (recursion_limit : nat)
    (emails : value) : outcome (list value) :=
  emails <- match emails with
            | VStr s => ExtractUberData.parse_emails recursion_limit s
            | _ => Ret emails
            end ;;
  py_iter emails.

(** ** Floats *)

(** The float 5.0, that is 5629499534213120 / 2^50. *)
Definition float_5 : float := S754_finite false 5629499534213120 (-50).

(** The float 50.0, that is 7036874417766400 / 2^47. *)
Definition float_50 : float := S754_finite false 7036874417766400 (-47).

(** The float 123.45: the binary64 number nearest to 12345/100, which is
    8687021468732621 / 2^46. *)
Definition float_123_45 : float := S754_finite false 8687021468732621 (-46).

(** ** Calendar dates *)

Definition ascii_digit (c : char) : option nat :=
  if N.leb 48 c && N.leb c 57 then Some (N.to_nat c - 48)%nat else None.

(** The number written by a run of ASCII digits. *)
Fixpoint number (acc : nat) (s : str) : option nat :=
  match s with
  | [] => Some acc
  | c :: s' =>
      match ascii_digit c with
      | Some d => number (10 * acc + d) s'
      | None => None
      end
  end.

(** The fields of a text of the shape [YYYY-MM-DD]. *)
Definition iso_fields (s : str) : option (nat * nat * nat) :=
  match s with
  | [y1; y2; y3; y4; h1; m1; m2; h2; d1; d2] =>
      if N.eqb h1 (ch "-") && N.eqb h2 (ch "-") then
        match number 0 [y1; y2; y3; y4], number 0 [m1; m2],
              number 0 [d1; d2] with
        | Some y, Some m, Some d => Some (y, m, d)
        | _, _, _ => None
        end
      else None
  | _ => None
  end.

Definition iso_shaped (s : str) : bool :=
  match iso_fields s with Some _ => true | None => false end.

Definition leap_year (y : nat) : bool :=
  (Nat.eqb (y mod 4) 0 && negb (Nat.eqb (y mod 100) 0))
  || Nat.eqb (y mod 400) 0.

Definition days_in_month (y m : nat) : nat :=
  match m with
  | 1 | 3 | 5 | 7 | 8 | 10 | 12 => 31
  | 4 | 6 | 9 | 11 => 30
  | 2 => if leap_year y then 29 else 28
  | _ => 0
  end.

(** The text names a day of the calendar. *)
Definition calendar_date (s : str) : bool :=
  match iso_fields s with
  | Some (y, m, d) =>
      (1 <=? m)%nat && (m <=? 12)%nat && (1 <=? d)%nat
      && (d <=? days_in_month y m)%nat
  | None => false
  end.

End Spec.

(* ================================================================== *)
(** * Vocabulary of the further properties                             *)
(* ================================================================== *)

Module Terms.

Import Py Re PyLib Spec.
Local Open Scope list_scope.

(** ** Output lists *)

(** One entry of each of the four output lists. *)
Definition row : Type := option str * option str * float * str.

(** The four lists made of the rows. *)
Definition columns_of (rows : list row) : ExtractUberData.output :=
  (map (fun r => fst (fst (fst r))) rows,
   map (fun r => snd (fst (fst r))) rows,
   map (fun r => snd (fst r)) rows,
   map (fun r => snd r) rows).

(** Two results put one after the other, list by list. *)
Definition chain (a b : ExtractUberData.output) : ExtractUberData.output :=
  let '(d1, p1, c1, u1) := a in
  let '(d2, p2, c2, u2) := b in
  (d1 ++ d2, p1 ++ p2, c1 ++ c2, u1 ++ u2).

(** The row that a record adds to the lists of [extract_uber_data], if it
    adds one. *)
Definition row_of (family_order : list str) (recursion_limit : nat)
    (email : value) : option row :=
  match ExtractUberData.extract_receipt_from_email
          family_order recursion_limit email with
  | Ret r =>
      match ExtractUberData.cost r, ExtractUberData.currency r with
      | Some c, Some cur =>
          Some (ExtractUberData.date r, ExtractUberData.passenger r, c, cur)
      | _, _ => None
      end
  | Raise _ => None
  end.

(** The same for [function] of [process_uber_receipts.py]. *)
Definition strict_row_of (email : value) : option row :=
  match ProcessUberReceipts.extract_single_receipt email with
  | Ret r =>
      match ProcessUberReceipts.cost r, ProcessUberReceipts.currency r with
      | Some c, Some cur =>
          Some (ProcessUberReceipts.date r, ProcessUberReceipts.passenger r,
                c, cur)
      | _, _ => None
      end
  | Raise _ => None
  end.

(** The members of a list of optional things. *)
Fixpoint somes (A : Type) (l : list (option A)) : list A :=
  match l with
  | [] => []
  | Some x :: l' => x :: somes l'
  | None :: l' => somes l'
  end.

(** The rows that a list of records adds, in the order of the records. *)
Definition rows (family_order : list str) (recursion_limit : nat)
    (emails : list value) : list row :=
  somes (map (row_of family_order recursion_limit) emails).

Definition strict_rows (emails : list value) : list row :=
  somes (map strict_row_of emails).

(** ** The shape of the fields *)

(** A float that is zero, a positive number or plus infinity: neither
    negative nor a NaN. *)
Definition not_negative (f : float) : bool :=
  match f with
  | S754_zero false | S754_finite false _ _ | S754_infinity false => true
  | _ => false
  end.

(** A letter of the ASCII alphabet. *)
Definition ascii_letter (c : char) : bool :=
  (N.leb 65 c && N.leb c 90) || (N.leb 97 c && N.leb c 122).

(** A character of a currency: an ASCII letter, [$], the euro sign or the
    pound sign. *)
Definition currency_char (c : char) : bool :=
  ascii_letter c || N.eqb c 36 || N.eqb c 8364 || N.eqb c 163.

(** A character of a name: an ASCII letter or one of the six Swedish
    letters. *)
Definition name_char (c : char) : bool :=
  ascii_letter c || N.eqb c 229 || N.eqb c 228 || N.eqb c 246
  || N.eqb c 197 || N.eqb c 196 || N.eqb c 214.

(** A text that is not empty and is made of such characters. *)
Definition word_of (ok : char -> bool) (s : str) : bool :=
  negb (Nat.eqb (length s) 0) && forallb ok s.

(** The two digits of a month, [01] to [12]. *)
Definition month_number (mm : str) : bool :=
  existsb (str_eqb mm)
    [lit "01"; lit "02"; lit "03"; lit "04"; lit "05"; lit "06";
     lit "07"; lit "08"; lit "09"; lit "10"; lit "11"; lit "12"].

(** A text of ten characters: four digits, a hyphen, the number of a
    month, a hyphen and two digits, where [is_digit] tells what a digit
    is. *)
Definition dated (is_digit : char -> bool) (s : str) : bool :=
  match s with
  | [y1; y2; y3; y4; h1; m1; m2; h2; d1; d2] =>
      forallb is_digit [y1; y2; y3; y4; d1; d2]
      && N.eqb h1 (ch "-") && N.eqb h2 (ch "-") && month_number [m1; m2]
  | _ => false
  end.

(** A digit of ASCII. *)
Definition ascii_digit_char (c : char) : bool := N.leb 48 c && N.leb c 57.

(** An absent field, or one that passes the test. *)
Definition absent_or (A : Type) (ok : A -> bool) (x : option A) : bool :=
  match x with
  | Some a => ok a
  | None => true
  end.

(** ** Arguments *)

(** An object that a [for] loop cannot iterate: [None], a [bool], an
    [int] or a [float]. *)
Definition not_iterable (v : value) : bool :=
  match v with
  | VNone | VBool _ | VInt _ | VFloat _ => true
  | VStr _ | VList _ | VDict _ => false
  end.

Definition is_dict (v : value) : bool :=
  match v with VDict _ => true | _ => false end.

Definition is_str (v : value) : bool :=
  match v with VStr _ => true | _ => false end.

(** ** Patterns with other group numbers *)

(** The pattern with every group number [n] replaced by [f n]. *)
Fixpoint renumber (f : nat -> nat) (r : regex) : regex :=
  match r with
  | Eps | Chr _ | Cls _ | Any => r
  | Seq r1 r2 => Seq (renumber f r1) (renumber f r2)
  | Alt r1 r2 => Alt (renumber f r1) (renumber f r2)
  | Star greedy r1 => Star greedy (renumber f r1)
  | Group n r1 => Group (f n) (renumber f r1)
  end.

(** The captures under the new numbers, on top of the captures [base]. *)
Definition renumbered (f : nat -> nat) (base c : captures) : captures :=
  map (fun e => (f (fst e), snd e)) c ++ base.

(** A result with its captures under the new numbers. *)
Definition renumbered_result (f : nat -> nat) (base : captures)
    (res : result) : result :=
  match res with
  | Some (e, c) => Some (e, renumbered f base c)
  | None => None
  end.

(** ** Printed lines *)



(** A line that reports an exception. *)
Definition is_error (l : ProcessUberReceiptsScript.line) : bool :=
  match l with
  | ProcessUberReceiptsScript.ErrorFileNotFound _
  | ProcessUberReceiptsScript.ErrorReadingFile _
  | ProcessUberReceiptsScript.ErrorProcessingEmail _ _
  | ProcessUberReceiptsScript.ValidationError _
  | ProcessUberReceiptsScript.ErrorProcessingEmails _ => true
  | _ => false
  end.

(** ** Counting rides *)

(** The passenger is the name. *)
Definition is_named (name : str) (p : option str) : bool :=
  match p with
  | Some q => str_eqb q name
  | None => false
  end.

(** The number of entries of the list that are the name. *)
Definition rides_of (name : str) (ps : list (option str)) : N :=
  N.of_nat (length (filter (is_named name) ps)).

(** The sum of the counts of a dict. *)
Definition total_count (d : counts) : N :=
  fold_right (fun kv acc => N.add (snd kv) acc) 0%N d.

(** A line that reports a failure of [function] to [main]. *)
Definition is_failure (l : ProcessUberReceiptsScript.line) : bool :=
  match l with
  | ProcessUberReceiptsScript.ValidationError _
  | ProcessUberReceiptsScript.ErrorProcessingEmails _ => true
  | _ => false
  end.

(** The file that [main] reads for the arguments of the command line. *)
Definition input_file (argv : list str) : str :=
  match argv with
  | _ :: a :: _ => a
  | _ => lit "uber_data.json"
  end.

(** ** Texts with markers *)

(** The marker [Value #n:] for the digits [n], with the two line feeds
    before it and the two after it. *)
Definition marker (n : str) : str :=
  [10%N; 10%N] ++ lit "Value #" ++ n ++ lit ":" ++ [10%N; 10%N].

(** The pieces put together: the first piece, and then each other piece
    after its marker. *)
Fixpoint joined (first : str) (rest : list (str * str)) : str :=
  match rest with
  | [] => first
  | (n, piece) :: rest' => first ++ marker n ++ joined piece rest'
  end.

(** A text in which no marker begins: two line feeds and a [V] do not
    occur in it. *)
Definition no_marker (s : str) : bool :=
  negb (str_in ([10%N; 10%N] ++ lit "V") s).

(** A number, and a piece that can follow its marker. *)
Definition numbered_piece (np : str * str) : Prop :=
  fst np <> [] /\ digits (fst np) /\ no_marker (snd np) = true.

(** ** The demonstration *)




(** ** A sample file *)

(** The JSON text of a record with nothing but a body. *)
Definition record_text (body : str) : str :=
  lit "{" ++ [Json.quote] ++ lit "body" ++ [Json.quote] ++ lit ": "
  ++ [Json.quote] ++ body ++ [Json.quote] ++ lit "}".


End Terms.

(* ================================================================== *)
(** * Lists and strings                                                *)
(* ================================================================== *)

Unset Implicit Arguments.

(** Closed goals are settled by evaluation. *)
Ltac run := vm_compute; reflexivity.

Module ListFacts.

Import Py.
Local Open Scope list_scope.

Lemma skipn_cons_inv : forall (A : Type) (i : nat) (l : list A) y s',
  skipn i l = y :: s' ->
  s' = skipn (S i) l /\ (i < length l)%nat /\ firstn 1 (skipn i l) = [y].
Proof.
  induction i as [|i IH]; intros l y s' H.
  - destruct l as [|x l]; simpl in H; [discriminate|].
    inversion H; subst. simpl. repeat split; lia.
  - destruct l as [|x l]; simpl in H; [discriminate|].
    destruct (IH l y s' H) as (E & L & F).
    simpl. repeat split; auto. lia.
Qed.

Lemma slice_refl : forall i (s : str), slice i i s = [].
Proof. intros. unfold slice. rewrite Nat.sub_diag. reflexivity. Qed.

Lemma firstn_add : forall (A : Type) (a b : nat) (l : list A),
  firstn (a + b) l = firstn a l ++ firstn b (skipn a l).
Proof.
  induction a as [|a IH]; intros b l; simpl; [reflexivity|].
  destruct l as [|x l]; simpl.
  - rewrite firstn_nil. reflexivity.
  - rewrite IH. reflexivity.
Qed.

Lemma skipn_add : forall (A : Type) (a b : nat) (l : list A),
  skipn (a + b) l = skipn b (skipn a l).
Proof.
  induction a as [|a IH]; intros b l; simpl; [reflexivity|].
  destruct l as [|x l]; simpl.
  - rewrite skipn_nil. reflexivity.
  - apply IH.
Qed.

Lemma slice_app : forall i j k (s : str),
  (i <= j)%nat -> (j <= k)%nat ->
  slice i j s ++ slice j k s = slice i k s.
Proof.
  intros i j k s Hij Hjk. unfold slice.
  replace (k - i)%nat with ((j - i) + (k - j))%nat by lia.
  rewrite firstn_add. f_equal. f_equal.
  rewrite <- skipn_add. f_equal. lia.
Qed.

Lemma slice_one : forall i (s : str) y s',
  skipn i s = y :: s' -> slice i (S i) s = [y].
Proof.
  intros i s y s' H. unfold slice.
  replace (S i - i)%nat with 1%nat by lia.
  apply (skipn_cons_inv _ _ _ _ _ H).
Qed.

Lemma forallb_map : forall (A B : Type) (f : B -> bool) (g : A -> B) l,
  forallb f (map g l) = forallb (fun x => f (g x)) l.
Proof.
  induction l as [|x l IH]; simpl; [reflexivity|]. rewrite IH. reflexivity.
Qed.

End ListFacts.

Module StrFacts.

Import Py Spec.
Local Open Scope list_scope.

Lemma lstrip_spec : forall s, exists ws, s = ws ++ lstrip s /\ spaces ws.
Proof.
  induction s as [|c s IH]; simpl.
  - exists []. split; [reflexivity|constructor].
  - destruct (isspace c) eqn:E.
    + destruct IH as (ws & Hs & Hw). exists (c :: ws). split.
      * simpl. f_equal. exact Hs.
      * constructor; assumption.
    + exists []. split; [reflexivity|constructor].
Qed.

Lemma rstrip_spec : forall s, exists ws, s = rstrip s ++ ws /\ spaces ws.
Proof.
  intros s. unfold rstrip.
  destruct (lstrip_spec (rev s)) as (ws & Hs & Hw).
  exists (rev ws). split.
  - rewrite <- rev_app_distr, <- Hs, rev_involutive. reflexivity.
  - apply Forall_rev. exact Hw.
Qed.

Lemma split_aux_spaces : forall ws cur,
  spaces ws -> split_aux cur ws = split_aux cur [].
Proof.
  induction ws as [|c ws IH]; intros cur H; [reflexivity|].
  inversion H as [|c' ws' Hc Hws]; subst. simpl. rewrite Hc.
  destruct cur as [|x cur]; rewrite (IH [] Hws); reflexivity.
Qed.

Lemma split_aux_app_spaces : forall t ws cur,
  spaces ws -> split_aux cur (t ++ ws) = split_aux cur t.
Proof.
  induction t as [|c t IH]; intros ws cur H; simpl.
  - apply split_aux_spaces. exact H.
  - destruct (isspace c); [destruct cur|]; rewrite IH by exact H;
      reflexivity.
Qed.

Lemma split_aux_spaces_app : forall ws t,
  spaces ws -> split_aux [] (ws ++ t) = split_aux [] t.
Proof.
  induction ws as [|c ws IH]; intros t H; [reflexivity|].
  inversion H as [|c' ws' Hc Hws]; subst. simpl. rewrite Hc.
  apply IH. exact Hws.
Qed.

(** [s.strip().split()] is [s.split()]. *)
Lemma split_strip : forall s, split (strip s) = split s.
Proof.
  intros s. unfold split, strip.
  destruct (lstrip_spec s) as (ws & Hs & Hw).
  destruct (rstrip_spec (lstrip s)) as (ws' & Hs' & Hw').
  rewrite Hs at 2. rewrite split_aux_spaces_app by exact Hw.
  rewrite Hs' at 2. rewrite split_aux_app_spaces by exact Hw'.
  reflexivity.
Qed.

(** The characters of a piece of [s.split()] are not blanks. *)
Lemma split_aux_no_space : forall s cur p,
  Forall (fun c => isspace c = false) cur ->
  In p (split_aux cur s) -> Forall (fun c => isspace c = false) p.
Proof.
  induction s as [|c s IH]; intros cur p Hcur Hin; simpl in Hin.
  - destruct cur as [|x cur]; [contradiction|].
    destruct Hin as [E|[]]; subst. apply Forall_rev. exact Hcur.
  - destruct (isspace c) eqn:E.
    + destruct cur as [|x cur].
      * eapply IH; [constructor|exact Hin].
      * destruct Hin as [E'|Hin]; [subst; apply Forall_rev; exact Hcur|].
        eapply IH; [constructor|exact Hin].
    + eapply IH; [|exact Hin]. constructor; assumption.
Qed.

Lemma strip_no_space : forall s,
  Forall (fun c => isspace c = false) s -> strip s = s.
Proof.
  assert (L : forall s, Forall (fun c => isspace c = false) s ->
                        lstrip s = s).
  { intros s H. destruct H as [|c s Hc Hs]; [reflexivity|].
    simpl. rewrite Hc. reflexivity. }
  intros s H. unfold strip, rstrip. rewrite (L s H).
  rewrite (L (rev s)) by (apply Forall_rev; exact H).
  apply rev_involutive.
Qed.

End StrFacts.

(* ================================================================== *)
(** * The matcher                                                      *)
(* ================================================================== *)

Module ReFacts.

Import Py Re Spec ListFacts.
Local Open Scope list_scope.

Lemma lookup_app_some : forall n (c1 c2 : captures),
  lookup n c1 <> None \/ lookup n c2 <> None ->
  lookup n (c1 ++ c2) <> None.
Proof.
  induction c1 as [|[g span] c1 IH]; intros c2 H; simpl in *.
  - destruct H as [H|H]; [congruence|exact H].
  - destruct (Nat.eqb g n); [discriminate|]. apply IH. exact H.
Qed.

Lemma lookup_In : forall n (c : captures) span,
  lookup n c = Some span -> In (n, span) c.
Proof.
  induction c as [|[g sp] c IH]; intros span H; simpl in *; [discriminate|].
  destruct (Nat.eqb g n) eqn:E.
  - apply Nat.eqb_eq in E. inversion H; subst. left; reflexivity.
  - right. apply IH. exact H.
Qed.

Lemma capture_ok_weaken : forall body r r' e,
  (forall n, incl (subgroups n r) (subgroups n r')) ->
  capture_ok body r e -> capture_ok body r' e.
Proof.
  intros body r r' [n [a b]] Hincl (Hab & r1 & Hin & Hl).
  split; [exact Hab|]. exists r1. split; [apply (Hincl n); exact Hin|exact Hl].
Qed.

Section Sound.

Variable body : str.

Lemma repeat_match_sound : forall greedy r1,
  (forall i c k res, (i <= length body)%nat ->
     match_at r1 i (skipn i body) c k = Some res ->
     sound_result body r1 i c k res) ->
  forall n i c k res, (i <= length body)%nat ->
    repeat_match (match_at r1) greedy k n i (skipn i body) c = Some res ->
    sound_result body (Star greedy r1) i c k res.
Proof.
  intros greedy r1 IH1.
  assert (Hstop : forall i c k res, (i <= length body)%nat ->
            k i (skipn i body) c = Some res ->
            sound_result body (Star greedy r1) i c k res).
  { intros i c k res Hi Hk. exists i, []. rewrite slice_refl.
    repeat split; try lia; try constructor; auto.
    intros n Hn; discriminate. }
  induction n as [|n IHn]; intros i c k res Hi H; simpl in H.
  - apply Hstop; assumption.
  - assert (Hmore : forall res,
        match_at r1 i (skipn i body) c
          (fun i' s' c' =>
             if (i <? i')%nat
             then repeat_match (match_at r1) greedy k n i' s' c'
             else None) = Some res ->
        sound_result body (Star greedy r1) i c k res).
    { intros res0 Hm. apply IH1 in Hm; [|exact Hi].
      destruct Hm as (j & new & Hj & Hl & Hc & _ & Hk).
      destruct (i <? j)%nat eqn:Elt; [|discriminate].
      apply IHn in Hk; [|lia].
      destruct Hk as (j2 & new2 & Hj2 & Hl2 & Hc2 & _ & Hk2).
      exists j2, (new2 ++ new). repeat split; try lia.
      - rewrite <- (slice_app i j j2 body) by lia.
        apply lang_star_more; assumption.
      - apply Forall_app. split; [exact Hc2|].
        eapply Forall_impl; [|exact Hc]. intros e He.
        eapply capture_ok_weaken; [|exact He]. intros m; simpl.
        apply incl_refl.
      - intros m Hm; discriminate.
      - rewrite <- app_assoc. exact Hk2. }
    destruct greedy; unfold or_else in H.
    + destruct (match_at r1 i (skipn i body) c _) eqn:Em.
      * inversion H; subst. apply Hmore. reflexivity.
      * apply Hstop; assumption.
    + destruct (k i (skipn i body) c) eqn:Ek.
      * inversion H; subst. apply Hstop; assumption.
      * apply Hmore. exact H.
Qed.

Lemma match_at_sound : forall r i c k res,
  (i <= length body)%nat ->
  match_at r i (skipn i body) c k = Some res ->
  sound_result body r i c k res.
Proof.
  induction r as [ |x|items| |r1 IH1 r2 IH2|r1 IH1 r2 IH2|g r1 IH1|n r1 IH1];
    intros i c k res Hi H; simpl in H.
  - exists i, []. rewrite slice_refl.
    repeat split; try lia; try constructor; auto. intros n Hn; discriminate.
  - destruct (skipn i body) as [|y s'] eqn:Es; [discriminate|].
    destruct (N.eqb y x) eqn:Ey; [|discriminate].
    apply N.eqb_eq in Ey; subst y.
    destruct (skipn_cons_inv _ _ _ _ _ Es) as (E & L & _).
    exists (S i), []. rewrite (slice_one _ _ _ _ Es).
    repeat split; try lia; try constructor; auto.
    + intros n Hn; discriminate.
    + rewrite <- E. exact H.
  - destruct (skipn i body) as [|y s'] eqn:Es; [discriminate|].
    destruct (existsb (item_mem y) items) eqn:Ey; [|discriminate].
    destruct (skipn_cons_inv _ _ _ _ _ Es) as (E & L & _).
    exists (S i), []. rewrite (slice_one _ _ _ _ Es).
    repeat split; try lia; try (constructor; assumption); auto.
    + intros n Hn; discriminate.
    + rewrite <- E. exact H.
  - destruct (skipn i body) as [|y s'] eqn:Es; [discriminate|].
    destruct (N.eqb y 10) eqn:Ey; [discriminate|].
    destruct (skipn_cons_inv _ _ _ _ _ Es) as (E & L & _).
    exists (S i), []. rewrite (slice_one _ _ _ _ Es).
    repeat split; try lia; try (constructor; assumption); auto.
    + intros n Hn; discriminate.
    + rewrite <- E. exact H.
  - apply IH1 in H; [|exact Hi].
    destruct H as (j & new & Hj & Hl & Hc & Hb & Hk).
    apply IH2 in Hk; [|lia].
    destruct Hk as (j2 & new2 & Hj2 & Hl2 & Hc2 & Hb2 & Hk2).
    exists j2, (new2 ++ new). repeat split; try lia.
    + rewrite <- (slice_app i j j2 body) by lia.
      apply lang_seq; assumption.
    + apply Forall_app. split.
      * eapply Forall_impl; [|exact Hc2]. intros e He.
        eapply capture_ok_weaken; [|exact He]. intros m; simpl.
        apply incl_appr, incl_refl.
      * eapply Forall_impl; [|exact Hc]. intros e He.
        eapply capture_ok_weaken; [|exact He]. intros m; simpl.
        apply incl_appl, incl_refl.
    + intros m Hm. simpl in Hm. apply lookup_app_some.
      apply orb_true_iff in Hm. destruct Hm as [Hm|Hm]; [right|left]; auto.
    + rewrite <- app_assoc. exact Hk2.
  - unfold or_else in H.
    destruct (match_at r1 i (skipn i body) c k) eqn:E1.
    + inversion H; subst. apply IH1 in E1; [|exact Hi].
      destruct E1 as (j & new & Hj & Hl & Hc & Hb & Hk).
      exists j, new. repeat split; try lia; auto.
      * apply lang_alt_l; assumption.
      * eapply Forall_impl; [|exact Hc]. intros e He.
        eapply capture_ok_weaken; [|exact He]. intros m; simpl.
        apply incl_appl, incl_refl.
      * intros m Hm. simpl in Hm. apply andb_true_iff in Hm. apply Hb, Hm.
    + apply IH2 in H; [|exact Hi].
      destruct H as (j & new & Hj & Hl & Hc & Hb & Hk).
      exists j, new. repeat split; try lia; auto.
      * apply lang_alt_r; assumption.
      * eapply Forall_impl; [|exact Hc]. intros e He.
        eapply capture_ok_weaken; [|exact He]. intros m; simpl.
        apply incl_appr, incl_refl.
      * intros m Hm. simpl in Hm. apply andb_true_iff in Hm. apply Hb, Hm.
  - eapply repeat_match_sound; eauto.
  - apply IH1 in H; [|exact Hi].
    destruct H as (j & new & Hj & Hl & Hc & Hb & Hk).
    exists j, ((n, (i, j)) :: new). repeat split; try lia.
    + apply lang_group; assumption.
    + constructor.
      * simpl. split; [lia|]. exists r1. split; [|exact Hl].
        rewrite Nat.eqb_refl. left; reflexivity.
      * eapply Forall_impl; [|exact Hc]. intros e He.
        eapply capture_ok_weaken; [|exact He]. intros m; simpl.
        apply incl_appr, incl_refl.
    + intros m Hm. simpl in Hm. simpl.
      destruct (Nat.eqb n m) eqn:E; [discriminate|].
      simpl in Hm. apply Hb, Hm.
    + exact Hk.
Qed.

End Sound.

(** ** The bound on the rounds of a repetition is never reached *)

(** A continuation is only called on what remains of the text. *)
Lemma match_at_ext : forall r i s c k k',
  (forall d c', (d <= length s)%nat ->
     k (i + d)%nat (skipn d s) c' = k' (i + d)%nat (skipn d s) c') ->
  match_at r i s c k = match_at r i s c k'.
Proof.
  assert (Hone : forall i (y : char) s' c (k k' : cont),
            (forall d c', (d <= length (y :: s'))%nat ->
               k (i + d)%nat (skipn d (y :: s')) c'
               = k' (i + d)%nat (skipn d (y :: s')) c') ->
            k (S i) s' c = k' (S i) s' c).
  { intros i y s' c k k' H. specialize (H 1%nat c). simpl in H.
    replace (i + 1)%nat with (S i) in H by lia. apply H. lia. }
  induction r as [ |x|items| |r1 IH1 r2 IH2|r1 IH1 r2 IH2|g r1 IH1|n r1 IH1];
    intros i s c k k' H; simpl.
  - specialize (H 0%nat c). simpl in H. rewrite Nat.add_0_r in H.
    apply H. lia.
  - destruct s as [|y s']; [reflexivity|].
    destruct (N.eqb y x); [|reflexivity]. eapply Hone; eauto.
  - destruct s as [|y s']; [reflexivity|].
    destruct (existsb (item_mem y) items); [|reflexivity]. eapply Hone; eauto.
  - destruct s as [|y s']; [reflexivity|].
    destruct (N.eqb y 10); [reflexivity|]. eapply Hone; eauto.
  - apply IH1. intros d c' Hd. apply IH2. intros d2 c2 Hd2.
    rewrite length_skipn in Hd2.
    rewrite <- skipn_add, <- Nat.add_assoc. apply H. lia.
  - rewrite (IH1 i s c k k' H), (IH2 i s c k k' H). reflexivity.
  - generalize (length s). intros n. revert i s c H.
    induction n as [|n IHn]; intros i s c H; simpl.
    + specialize (H 0%nat c). simpl in H. rewrite Nat.add_0_r in H.
      apply H. lia.
    + assert (E0 : k i s c = k' i s c).
      { specialize (H 0%nat c). simpl in H. rewrite Nat.add_0_r in H.
        apply H. lia. }
      rewrite E0. erewrite IH1; [reflexivity|].
      intros d c' Hd. cbv beta.
      destruct (i <? i + d)%nat; [|reflexivity].
      apply IHn. intros d2 c2 Hd2. rewrite length_skipn in Hd2.
      rewrite <- skipn_add, <- Nat.add_assoc. apply H. lia.
  - apply IH1. intros d c' Hd. apply H. exact Hd.
Qed.

(** A pattern does not match when nothing can follow it. *)
Lemma match_at_fail : forall r i s c,
  match_at r i s c (fun _ _ _ => None) = None.
Proof.
  induction r as [ |x|items| |r1 IH1 r2 IH2|r1 IH1 r2 IH2|g r1 IH1|n r1 IH1];
    intros i s c; simpl; try reflexivity.
  - destruct s as [|y s']; [reflexivity|]. destruct (N.eqb y x); reflexivity.
  - destruct s as [|y s']; [reflexivity|].
    destruct (existsb (item_mem y) items); reflexivity.
  - destruct s as [|y s']; [reflexivity|]. destruct (N.eqb y 10); reflexivity.
  - rewrite (match_at_ext r1 i s c _ (fun _ _ _ => None)); [apply IH1|].
    intros d c' _. apply IH2.
  - rewrite IH1, IH2. reflexivity.
  - generalize (length s). intros n. revert i s c.
    induction n as [|n IHn]; intros i s c; simpl; [reflexivity|].
    rewrite (match_at_ext r1 i s c _ (fun _ _ _ => None)).
    + rewrite IH1. destruct g; reflexivity.
    + intros d c' _. cbv beta. destruct (i <? i + d)%nat; [|reflexivity].
      apply IHn.
  - apply IH1.
Qed.

(** More rounds than the text has characters change nothing. *)
Lemma repeat_match_fuel : forall r1 greedy k n s i c,
  (length s <= n)%nat ->
  repeat_match (match_at r1) greedy k n i s c =
  repeat_match (match_at r1) greedy k (length s) i s c.
Proof.
  intros r1 greedy k n. induction n as [n IH] using lt_wf_ind.
  intros s i c Hn. destruct n as [|n].
  - destruct s; [reflexivity|simpl in Hn; lia].
  - destruct (Nat.eq_dec (length s) (S n)) as [E|E]; [rewrite E; reflexivity|].
    destruct s as [|y s'].
    + simpl. rewrite (match_at_ext r1 i [] c _ (fun _ _ _ => None)).
      * rewrite match_at_fail. unfold or_else.
        destruct greedy; [reflexivity|]. destruct (k i [] c); reflexivity.
      * intros d c' Hd. simpl in Hd. assert (d = 0)%nat by lia. subst d.
        cbv beta. rewrite Nat.add_0_r, Nat.ltb_irrefl. reflexivity.
    + simpl length. simpl length in E, Hn.
      cbn [repeat_match].
      destruct greedy; f_equal; apply match_at_ext;
        intros d c' Hd; cbv beta;
        (destruct (i <? i + d)%nat eqn:Elt; [|reflexivity]);
        apply Nat.ltb_lt in Elt;
        assert (Hl : (length (skipn d (y :: s')) <= length s')%nat)
          by (rewrite length_skipn; cbn [length]; lia);
        rewrite (IH n (Nat.lt_succ_diag_r n) (skipn d (y :: s')) (i + d)%nat c')
          by lia;
        rewrite (IH (length s') Hn (skipn d (y :: s')) (i + d)%nat c' Hl);
        reflexivity.
Qed.

(** ** The matcher finds every text of the pattern *)

Lemma repeat_match_stop : forall step greedy k n i s c,
  k i s c <> None -> repeat_match step greedy k n i s c <> None.
Proof.
  intros step greedy k n i s c H. destruct n as [|n]; simpl; [exact H|].
  unfold or_else. destruct greedy.
  - destruct (step i s c _); [discriminate|exact H].
  - destruct (k i s c); [discriminate|]. congruence.
Qed.

Lemma match_at_complete : forall r a,
  lang r a ->
  forall i rest c k,
    (forall c', k (i + length a)%nat rest c' <> None) ->
    match_at r i (a ++ rest) c k <> None.
Proof.
  intros r a H.
  induction H as [ |x|items y Hy|y Hy|r1 r2 a b _ IH1 _ IH2
                 |r1 r2 a _ IH|r1 r2 a _ IH|g r1
                 |g r1 a b Ha IH1 Hb IH2|n r1 a _ IH];
    intros i rest c k Hk.
  - simpl. specialize (Hk c). simpl in Hk. rewrite Nat.add_0_r in Hk.
    exact Hk.
  - simpl. rewrite N.eqb_refl. specialize (Hk c). simpl in Hk.
    replace (i + 1)%nat with (S i) in Hk by lia. exact Hk.
  - simpl. rewrite Hy. specialize (Hk c). simpl in Hk.
    replace (i + 1)%nat with (S i) in Hk by lia. exact Hk.
  - simpl. rewrite Hy. specialize (Hk c). simpl in Hk.
    replace (i + 1)%nat with (S i) in Hk by lia. exact Hk.
  - simpl. rewrite <- app_assoc. apply IH1. intros c'. apply IH2.
    intros c''. rewrite <- Nat.add_assoc, <- length_app. apply Hk.
  - simpl. unfold or_else.
    destruct (match_at r1 i (a ++ rest) c k) eqn:E; [discriminate|].
    exfalso. apply (IH i rest c k Hk). exact E.
  - simpl. unfold or_else.
    destruct (match_at r1 i (a ++ rest) c k); [discriminate|].
    apply IH. exact Hk.
  - simpl. apply repeat_match_stop. specialize (Hk c). simpl in Hk.
    rewrite Nat.add_0_r in Hk. exact Hk.
  - destruct a as [|x a].
    + simpl. apply (IH2 i rest c k). exact Hk.
    + assert (Hmore :
        match_at r1 i ((x :: a) ++ b ++ rest) c
          (fun i' s' c' =>
             if (i <? i')%nat
             then repeat_match (match_at r1) g k (length (a ++ b ++ rest))
                    i' s' c'
             else None) <> None).
      { apply IH1. intros c'.
        assert (Hlt : (i <? i + length (x :: a))%nat = true)
          by (apply Nat.ltb_lt; simpl; lia).
        rewrite Hlt.
        rewrite repeat_match_fuel by (rewrite !length_app; lia).
        apply (IH2 (i + length (x :: a))%nat rest c' k).
        intros c''. rewrite <- Nat.add_assoc, <- length_app. apply Hk. }
      rewrite <- app_assoc.
      change (match_at (Star g r1) i ((x :: a) ++ b ++ rest) c k)
        with (repeat_match (match_at r1) g k
                (S (length (a ++ b ++ rest))) i ((x :: a) ++ b ++ rest) c).
      cbn [repeat_match]. unfold or_else. destruct g.
      * destruct (match_at r1 i ((x :: a) ++ b ++ rest) c _);
          [discriminate|congruence].
      * destruct (k i ((x :: a) ++ b ++ rest) c); [discriminate|].
        exact Hmore.
  - simpl. apply IH. intros c'. apply Hk.
Qed.

(** A position at which a text of the pattern starts is a position at
    which the pattern matches, and conversely. *)
Lemma matches_at_lang : forall r body j,
  (j <= length body)%nat ->
  (matches_at r body j = true <->
   exists e, (j <= e <= length body)%nat /\ lang r (slice j e body)).
Proof.
  intros r body j Hj. unfold matches_at, try_at. split.
  - destruct (match_at r j (skipn j body) [] _) as [res|] eqn:E;
      [|discriminate].
    intros _. apply match_at_sound in E; [|exact Hj].
    destruct E as (e & new & He & Hl & _). exists e. auto.
  - intros (e & He & Hl).
    assert (Hs : skipn j body = slice j e body ++ skipn e body).
    { unfold slice. replace e with (j + (e - j))%nat at 2 by lia.
      rewrite skipn_add. symmetry. apply firstn_skipn. }
    rewrite Hs.
    destruct (match_at r j (slice j e body ++ skipn e body) [] _) eqn:E;
      [reflexivity|].
    exfalso. revert E. apply match_at_complete; [exact Hl|].
    intros c'. discriminate.
Qed.

(** ** [re.search] finds the leftmost match *)

Lemma search_from_some : forall r s i m,
  search_from r i s = Some m ->
  exists d, (d <= length s)%nat /\ m_start m = (i + d)%nat /\
    try_at r (i + d) (skipn d s) = Some (m_end m, m_groups m) /\
    forall d', (d' < d)%nat -> try_at r (i + d') (skipn d' s) = None.
Proof.
  intros r s; induction s as [|x s IH]; intros i m H; simpl in H.
  - destruct (match_at r i [] [] _) as [[e c]|] eqn:E; [|discriminate].
    inversion H; subst; simpl. exists 0%nat. rewrite Nat.add_0_r.
    repeat split; auto; try (intros; lia).
  - destruct (match_at r i (x :: s) [] _) as [[e c]|] eqn:E.
    + inversion H; subst; simpl. exists 0%nat. rewrite Nat.add_0_r.
      repeat split; auto; try (intros; lia).
    + apply IH in H. destruct H as (d & Hd & Hs & Ht & Hn).
      exists (S d). simpl. replace (i + S d)%nat with (S i + d)%nat by lia.
      repeat split; auto; try lia.
      intros [|d'] Hlt.
      * rewrite Nat.add_0_r. exact E.
      * replace (i + S d')%nat with (S i + d')%nat by lia.
        apply Hn. lia.
Qed.

Lemma search_from_none : forall r s i,
  search_from r i s = None ->
  forall d, (d <= length s)%nat -> try_at r (i + d) (skipn d s) = None.
Proof.
  intros r s; induction s as [|x s IH]; intros i H d Hd; simpl in H.
  - destruct (match_at r i [] [] _) as [[e c]|] eqn:E; [discriminate|].
    simpl in Hd. assert (d = 0)%nat by lia; subst.
    rewrite Nat.add_0_r. exact E.
  - destruct (match_at r i (x :: s) [] _) as [[e c]|] eqn:E; [discriminate|].
    destruct d as [|d].
    + rewrite Nat.add_0_r. exact E.
    + replace (i + S d)%nat with (S i + d)%nat by lia.
      apply IH; [exact H|]. simpl in Hd; lia.
Qed.

Lemma search_some : forall r body m,
  search r body = Some m ->
  (m_start m <= length body)%nat /\
  try_at r (m_start m) (skipn (m_start m) body) = Some (m_end m, m_groups m) /\
  forall j, (j < m_start m)%nat -> matches_at r body j = false.
Proof.
  intros r body m H. apply search_from_some in H.
  destruct H as (d & Hd & Hs & Ht & Hn). simpl in *. subst d.
  repeat split; auto. intros j Hj. unfold matches_at.
  pose proof (Hn j Hj) as E. simpl in E. rewrite E. reflexivity.
Qed.

Lemma search_none : forall r body,
  search r body = None ->
  forall j, (j <= length body)%nat -> matches_at r body j = false.
Proof.
  intros r body H j Hj. unfold matches_at.
  pose proof (search_from_none r body 0 H j Hj) as E. simpl in E.
  rewrite E. reflexivity.
Qed.

(** [re.search] finds nothing exactly when no piece of the subject is a
    text of the pattern. *)
Lemma search_none_iff : forall r body,
  search r body = None <->
  forall j e, (j <= e <= length body)%nat -> ~ lang r (slice j e body).
Proof.
  intros r body. split.
  - intros H j e He Hl.
    assert (Hm : matches_at r body j = true)
      by (apply matches_at_lang; [lia|]; exists e; auto).
    rewrite (search_none r body H j) in Hm by lia. discriminate.
  - intros H. destruct (search r body) as [m|] eqn:E; [|reflexivity].
    exfalso. destruct (search_some _ _ _ E) as (Hs & Ht & _).
    assert (Hm : matches_at r body (m_start m) = true)
      by (unfold matches_at; rewrite Ht; reflexivity).
    apply matches_at_lang in Hm; [|exact Hs].
    destruct Hm as (e & He & Hl). apply (H _ _ He Hl).
Qed.

(** No text of the pattern starts before the match that [re.search]
    returns. *)
Lemma search_leftmost : forall r body m,
  search r body = Some m ->
  forall j e, (j < m_start m)%nat -> (j <= e <= length body)%nat ->
    ~ lang r (slice j e body).
Proof.
  intros r body m H j e Hj He Hl.
  destruct (search_some _ _ _ H) as (Hs & _ & Hleft).
  assert (Hm : matches_at r body j = true)
    by (apply matches_at_lang; [lia|]; exists e; auto).
  rewrite (Hleft j Hj) in Hm. discriminate.
Qed.

(** A match object is sound: its span and its captures lie in the subject,
    and the texts belong to the pattern and to its groups. *)
Lemma search_sound : forall r body m,
  search r body = Some m ->
  (m_start m <= m_end m <= length body)%nat /\
  lang r (slice (m_start m) (m_end m) body) /\
  Forall (capture_ok body r) (m_groups m) /\
  forall n, binds n r = true -> lookup n (m_groups m) <> None.
Proof.
  intros r body m H. apply search_some in H.
  destruct H as (Hs & Ht & _). unfold try_at in Ht.
  apply match_at_sound in Ht; [|exact Hs].
  destruct Ht as (j & new & Hj & Hl & Hc & Hb & Hk).
  inversion Hk; subst. rewrite app_nil_r in *.
  repeat split; auto; lia.
Qed.

(** A group that takes part in every match has a text, and the text
    belongs to one of the patterns that the group encloses. *)
Lemma group_bound : forall r body m n,
  search r body = Some m -> binds n r = true ->
  exists g r1, group body m n = Some g /\ In r1 (subgroups n r) /\ lang r1 g.
Proof.
  intros r body m n H Hb. apply search_sound in H.
  destruct H as (_ & _ & Hc & Hl). specialize (Hl n Hb).
  unfold group. destruct (lookup n (m_groups m)) as [[a b]|] eqn:E;
    [|congruence].
  apply lookup_In in E. rewrite Forall_forall in Hc.
  destruct (Hc _ E) as (_ & r1 & Hin & Hlang).
  exists (slice a b body), r1. auto.
Qed.

(** ** Patterns that do not tell the separators apart *)

Lemma is_sep_cases : forall c,
  is_sep c = true -> c = ch "," \/ c = ch ".".
Proof.
  intros c H. unfold is_sep in H. apply orb_true_iff in H.
  destruct H as [H|H]; apply N.eqb_eq in H; auto.
Qed.

Lemma cls_blind : forall items y y',
  sep_blind (Cls items) = true -> sep_equiv y y' ->
  existsb (item_mem y) items = existsb (item_mem y') items.
Proof.
  intros items y y' Hb [E|[Hy Hy']]; [subst; reflexivity|].
  change (Bool.eqb (existsb (item_mem (ch ",")) items)
                   (existsb (item_mem (ch ".")) items) = true) in Hb.
  apply Bool.eqb_prop in Hb.
  destruct (is_sep_cases _ Hy), (is_sep_cases _ Hy'); subst;
    auto using eq_sym.
Qed.

Lemma chr_blind : forall x y y',
  sep_blind (Chr x) = true -> sep_equiv y y' -> N.eqb y x = N.eqb y' x.
Proof.
  intros x y y' Hb [E|[Hy Hy']]; [subst; reflexivity|].
  simpl in Hb. apply negb_true_iff in Hb.
  assert (Hne : forall z, is_sep z = true -> N.eqb z x = false).
  { intros z Hz. destruct (N.eqb z x) eqn:E; [|reflexivity].
    apply N.eqb_eq in E; subst. congruence. }
  rewrite (Hne y Hy), (Hne y' Hy'). reflexivity.
Qed.

Lemma any_blind : forall y y',
  sep_equiv y y' -> N.eqb y 10 = N.eqb y' 10.
Proof.
  intros y y' [E|[Hy Hy']]; [subst; reflexivity|].
  destruct (is_sep_cases _ Hy), (is_sep_cases _ Hy'); subst; reflexivity.
Qed.

Lemma repeat_match_blind : forall step step' greedy,
  (forall i s s' c k k', Forall2 sep_equiv s s' -> cont_blind k k' ->
     step i s c k = step' i s' c k') ->
  forall n i s s' c k k', Forall2 sep_equiv s s' -> cont_blind k k' ->
    repeat_match step greedy k n i s c = repeat_match step' greedy k' n i s' c.
Proof.
  intros step step' greedy Hstep.
  induction n as [|n IH]; intros i s s' c k k' Hs Hk; simpl.
  - apply Hk, Hs.
  - rewrite (Hk i s s' c Hs).
    rewrite (Hstep i s s' c
               (fun i' s0 c' =>
                  if (i <? i')%nat then repeat_match step greedy k n i' s0 c'
                  else None)
               (fun i' s0 c' =>
                  if (i <? i')%nat then repeat_match step' greedy k' n i' s0 c'
                  else None) Hs).
    + reflexivity.
    + intros j t t' c' Ht. destruct (i <? j)%nat; [|reflexivity].
      apply IH; assumption.
Qed.

Lemma match_at_blind : forall r,
  sep_blind r = true ->
  forall i s s' c k k', Forall2 sep_equiv s s' -> cont_blind k k' ->
    match_at r i s c k = match_at r i s' c k'.
Proof.
  induction r as [ |x|items| |r1 IH1 r2 IH2|r1 IH1 r2 IH2|g r1 IH1|n r1 IH1];
    intros Hb i s s' c k k' Hs Hk; simpl.
  - apply Hk, Hs.
  - destruct Hs as [|y y' t t' Hy Ht]; [reflexivity|].
    rewrite (chr_blind x y y' Hb Hy). destruct (N.eqb y' x); [|reflexivity].
    apply Hk, Ht.
  - destruct Hs as [|y y' t t' Hy Ht]; [reflexivity|].
    rewrite (cls_blind items y y' Hb Hy).
    destruct (existsb (item_mem y') items); [|reflexivity].
    apply Hk, Ht.
  - destruct Hs as [|y y' t t' Hy Ht]; [reflexivity|].
    rewrite (any_blind y y' Hy). destruct (N.eqb y' 10); [reflexivity|].
    apply Hk, Ht.
  - simpl in Hb. apply andb_true_iff in Hb. destruct Hb as [Hb1 Hb2].
    apply IH1; auto. intros j t t' c' Ht. apply IH2; auto.
  - simpl in Hb. apply andb_true_iff in Hb. destruct Hb as [Hb1 Hb2].
    rewrite (IH1 Hb1 i s s' c k k' Hs Hk), (IH2 Hb2 i s s' c k k' Hs Hk).
    reflexivity.
  - simpl in Hb. rewrite (Forall2_length Hs).
    apply repeat_match_blind; auto.
  - simpl in Hb. apply IH1; auto.
    intros j t t' c' Ht. apply Hk, Ht.
Qed.

Lemma search_from_blind : forall r,
  sep_blind r = true ->
  forall s s' i, Forall2 sep_equiv s s' ->
    search_from r i s = search_from r i s'.
Proof.
  intros r Hb s s' i Hs. revert i.
  induction Hs as [|y y' t t' Hy Ht IH]; intros i; simpl.
  - reflexivity.
  - rewrite (match_at_blind r Hb i (y :: t) (y' :: t') []
               (fun e _ c => Some (e, c)) (fun e _ c => Some (e, c)));
      [|constructor; assumption|intros j u u' c' _; reflexivity].
    rewrite IH. reflexivity.
Qed.

Lemma search_blind : forall r body body',
  sep_blind r = true -> Forall2 sep_equiv body body' ->
  search r body = search r body'.
Proof. intros. apply search_from_blind; assumption. Qed.

End ReFacts.

(* ================================================================== *)
(** * The batch loops                                                  *)
(* ================================================================== *)

Module BatchFacts.

Import Py Re Spec.
Local Open Scope list_scope.

Lemma nodup_four : forall n : nat, nodup Nat.eq_dec [n; n; n; n] = [n].
Proof.
  intros n. simpl.
  destruct (Nat.eq_dec n n) as [_|Hn]; [reflexivity|congruence].
Qed.

Module Lenient.

Import ExtractUberData.

Section Loop.

Variable family_order : list str.
Variable recursion_limit : nat.

(** One round of the loop either leaves the four lists alone or appends
    one entry to each of them. *)
Lemma process_email_cases : forall out email,
  (accepted family_order recursion_limit email = false /\
   process_email family_order recursion_limit out email = out) \/
  (accepted family_order recursion_limit email = true /\
   exists d p c cur,
     extract_receipt_from_email family_order recursion_limit email
       = Ret (mk_receipt (Some c) (Some cur) d p) /\
     process_email family_order recursion_limit out email =
       mk_columns (dates out ++ [d]) (passenger_names out ++ [p])
                  (costs out ++ [c]) (currencies out ++ [cur])).
Proof.
  intros out email. unfold accepted, process_email.
  destruct (extract_receipt_from_email family_order recursion_limit email)
    as [[c cur d p]|e]; simpl; [|left; auto].
  destruct c as [c|]; [|left; auto].
  destruct cur as [cur|]; [|left; auto].
  right. split; [reflexivity|]. exists d, p, c, cur. auto.
Qed.

(** The invariant of the loop: the four lists grow together, by one entry
    for each accepted record. *)
Lemma fold_lengths : forall emails out,
  let out' :=
    fold_left (process_email family_order recursion_limit) emails out in
  let n := length (filter (accepted family_order recursion_limit) emails) in
  length (dates out') = (length (dates out) + n)%nat /\
  length (passenger_names out') = (length (passenger_names out) + n)%nat /\
  length (costs out') = (length (costs out) + n)%nat /\
  length (currencies out') = (length (currencies out) + n)%nat.
Proof.
  induction emails as [|email emails IH]; intros out; simpl.
  - repeat split; lia.
  - specialize (IH (process_email family_order recursion_limit out email)).
    destruct (process_email_cases out email)
      as [[Hok Hs]|[Hok (d & p & c & cur & _ & Hs)]];
      rewrite Hok, Hs; rewrite Hs in IH; simpl in IH.
    + exact IH.
    + simpl. repeat rewrite length_app in IH. simpl in IH.
      destruct IH as (H1 & H2 & H3 & H4). repeat split; lia.
Qed.

(** What [extract_uber_data] does once it has the records to loop over. *)
Lemma validate_fold : forall emails,
  let out :=
    fold_left (process_email family_order recursion_limit) emails
      no_columns in
  let n := length (filter (accepted family_order recursion_limit) emails) in
  length (dates out) = n /\ length (passenger_names out) = n /\
  length (costs out) = n /\ length (currencies out) = n /\
  validate out =
    if Nat.eqb n 0 then Raise ValueError_NoValidReceipts
    else Ret (dates out, passenger_names out, costs out, currencies out).
Proof.
  intros emails out n.
  destruct (fold_lengths emails no_columns) as (H1 & H2 & H3 & H4).
  fold out n in H1, H2, H3, H4. simpl in H1, H2, H3, H4.
  repeat (split; [assumption|]).
  unfold validate. rewrite H1, H2, H3, H4, nodup_four. reflexivity.
Qed.

Lemma extract_uber_data_records : forall emails items,
  input_records family_order recursion_limit emails = Ret items ->
  extract_uber_data family_order recursion_limit emails =
    validate (fold_left (process_email family_order recursion_limit) items
                no_columns).
Proof.
  intros emails items H. unfold extract_uber_data, input_records in *.
  destruct (match emails with
            | VStr s => parse_emails recursion_limit s
            | _ => Ret emails
            end) as [v|e]; simpl in *; [|discriminate].
  rewrite H. reflexivity.
Qed.

End Loop.

End Lenient.

Module Strict.

Import ProcessUberReceipts.

Lemma strict_process_email_cases : forall out email,
  (accepted_strict email = false /\ process_email out email = out) \/
  (accepted_strict email = true /\
   exists d p c cur,
     process_email out email =
       mk_columns (dates out ++ [d]) (passenger_names out ++ [p])
                  (costs out ++ [c]) (currencies out ++ [cur])).
Proof.
  intros out email. unfold accepted_strict, process_email.
  destruct (extract_single_receipt email) as [[c cur d p]|e]; simpl;
    [|left; auto].
  destruct c as [c|]; [|left; auto].
  destruct cur as [cur|]; [|left; auto].
  right. split; [reflexivity|]. exists d, p, c, cur. auto.
Qed.

Lemma strict_fold_lengths : forall emails out,
  let out' := fold_left process_email emails out in
  let n := length (filter accepted_strict emails) in
  length (dates out') = (length (dates out) + n)%nat /\
  length (passenger_names out') = (length (passenger_names out) + n)%nat /\
  length (costs out') = (length (costs out) + n)%nat /\
  length (currencies out') = (length (currencies out) + n)%nat.
Proof.
  induction emails as [|email emails IH]; intros out; simpl.
  - repeat split; lia.
  - destruct (strict_process_email_cases out email)
      as [[Hok Hs]|[Hok (d & p & c & cur & Hs)]];
      rewrite Hok, Hs; specialize (IH (process_email out email));
      rewrite Hs in IH; simpl in IH.
    + exact IH.
    + simpl. repeat rewrite length_app in IH. simpl in IH.
      destruct IH as (H1 & H2 & H3 & H4). repeat split; lia.
Qed.

(** [function] returns whatever the loop has collected. *)
Lemma function_fold : forall emails,
  let out := fold_left process_email emails no_columns in
  let n := length (filter accepted_strict emails) in
  length (dates out) = n /\ length (passenger_names out) = n /\
  length (costs out) = n /\ length (currencies out) = n /\
  function (VList emails) =
    Ret (dates out, passenger_names out, costs out, currencies out).
Proof.
  intros emails out n.
  destruct (strict_fold_lengths emails no_columns) as (H1 & H2 & H3 & H4).
  fold out n in H1, H2, H3, H4. simpl in H1, H2, H3, H4.
  repeat (split; [assumption|]).
  unfold function. cbn [py_iter bind]. fold out.
  rewrite H1, H2, H3, H4, nodup_four.
  reflexivity.
Qed.

End Strict.

End BatchFacts.

(* ================================================================== *)
(** * Dates                                                            *)
(* ================================================================== *)

Module DateFacts.

Import Py Spec StrFacts.
Local Open Scope list_scope.

(** The two copies of the conversion are the same function. *)
Lemma convert_same : forall s,
  ProcessUberReceipts.convert_swedish_date_to_iso s =
  ExtractUberData.convert_swedish_date_to_iso s.
Proof. reflexivity. Qed.

(** The conversion in closed form: it depends on [s.split()] only, and
    never raises. *)
Lemma convert_cases : forall s,
  ExtractUberData.convert_swedish_date_to_iso s =
  Ret match split s with
      | [d; m; y] =>
          match ExtractUberData.month_lookup
                  ExtractUberData.swedish_months (lower m) with
          | Some mm => Some (y ++ lit "-" ++ mm ++ lit "-" ++ zfill 2 d)
          | None => None
          end
      | _ => None
      end.
Proof.
  intros s. unfold ExtractUberData.convert_swedish_date_to_iso.
  destruct s as [|c s]; [reflexivity|].
  rewrite split_strip.
  destruct (split (c :: s)) as [|d [|m [|y [|z parts]]]]; try reflexivity.
  cbn [length Nat.eqb negb index nth_error bind].
  destruct (ExtractUberData.month_lookup ExtractUberData.swedish_months
              (lower m)); reflexivity.
Qed.

Lemma month_lookup_none : forall table key,
  ~ In key (map fst table) -> ExtractUberData.month_lookup table key = None.
Proof.
  induction table as [|[k v] table IH]; intros key H; simpl; [reflexivity|].
  destruct (str_eqb k key) eqn:E.
  - exfalso. apply H. left. simpl.
    clear - E. revert key E. induction k as [|x k IHk]; intros [|y key] E;
      simpl in E; try discriminate; [reflexivity|].
    apply andb_true_iff in E. destruct E as [E1 E2].
    apply N.eqb_eq in E1. subst. f_equal. apply IHk. exact E2.
  - apply IH. intros Hin. apply H. right. exact Hin.
Qed.

End DateFacts.

(* ================================================================== *)
(** * Amounts                                                          *)
(* ================================================================== *)

Module AmountFacts.

Import Py Re Spec ReFacts.
Local Open Scope list_scope.

Lemma digit_not_sep : forall c, isdecimal c = true -> is_sep c = false.
Proof.
  intros c H. destruct (is_sep c) eqn:E; [|reflexivity].
  destruct (is_sep_cases c E) as [-> | ->]; discriminate H.
Qed.

Lemma replace_digits : forall d,
  digits d -> replace (ch ",") (ch ".") d = d.
Proof.
  intros d Hd. unfold replace.
  induction Hd as [|c d Hc Hd IH]; [reflexivity|].
  cbn [map]. rewrite IH.
  destruct (N.eqb c (ch ",")) eqn:E; [|reflexivity].
  apply N.eqb_eq in E. subst. discriminate Hc.
Qed.

Lemma replace_sep : forall c,
  is_sep c = true -> replace (ch ",") (ch ".") [c] = [ch "."].
Proof.
  intros c H. destruct (is_sep_cases c H) as [-> | ->]; reflexivity.
Qed.

Lemma replace_app : forall a b x y,
  replace a b (x ++ y) = replace a b x ++ replace a b y.
Proof. intros. unfold replace. apply map_app. Qed.

(** Texts equal up to the separators are equal once [,] is replaced. *)
Lemma replace_sep_equiv : forall x y,
  Forall2 sep_equiv x y ->
  replace (ch ",") (ch ".") x = replace (ch ",") (ch ".") y.
Proof.
  induction 1 as [|a b x y Hab Hxy IH]; [reflexivity|].
  change (replace (ch ",") (ch ".") (a :: x))
    with (replace (ch ",") (ch ".") [a] ++ replace (ch ",") (ch ".") x).
  change (replace (ch ",") (ch ".") (b :: y))
    with (replace (ch ",") (ch ".") [b] ++ replace (ch ",") (ch ".") y).
  rewrite IH. f_equal.
  destruct Hab as [E|[Ha Hb]]; [subst; reflexivity|].
  rewrite (replace_sep a Ha), (replace_sep b Hb). reflexivity.
Qed.

Lemma read_digits_app : forall d rest acc n,
  digits d ->
  match rest with [] => True | c :: _ => isdecimal c = false end ->
  exists v, read_digits acc n (d ++ rest) = (v, (n + length d)%nat, rest).
Proof.
  induction d as [|c d IH]; intros rest acc n Hd Hr;
    cbn [app length read_digits].
  - exists acc. rewrite Nat.add_0_r. destruct rest as [|c rest];
      cbn [read_digits]; [reflexivity|].
    unfold isdecimal in Hr. destruct (decimal c); [discriminate|reflexivity].
  - inversion Hd as [|c' d' Hc Hd']; subst.
    unfold isdecimal in Hc. destruct (decimal c) as [v|]; [|discriminate].
    destruct (IH rest (10 * acc + v)%N (S n) Hd' Hr) as (w & Hw).
    exists w. rewrite Hw. f_equal. f_equal. lia.
Qed.

(** [float] accepts a run of digits. *)
Lemma float_digits : forall d,
  digits d -> d <> [] -> exists c, py_float d = Ret c.
Proof.
  intros d Hd Hne. unfold py_float.
  destruct (read_digits_app d [] 0%N 0 Hd I) as (v & Hv).
  rewrite app_nil_r in Hv. rewrite Hv. cbn [Nat.add].
  destruct d as [|x d]; [exfalso; apply Hne; reflexivity|].
  cbn [length]. eauto.
Qed.

(** [float] accepts digits around one point, when there is a digit. *)
Lemma float_point : forall d1 d2,
  digits d1 -> digits d2 -> d1 ++ d2 <> [] ->
  exists c, py_float (d1 ++ ch "." :: d2) = Ret c.
Proof.
  intros d1 d2 H1 H2 Hne. unfold py_float.
  destruct (read_digits_app d1 (ch "." :: d2) 0%N 0 H1 eq_refl) as (v & Hv).
  rewrite Hv. cbn [N.eqb ch chr]. change (N.eqb (ch ".") (ch ".")) with true.
  cbv iota.
  destruct (read_digits_app d2 [] v 0 H2 I) as (w & Hw).
  rewrite app_nil_r in Hw. rewrite Hw. simpl.
  destruct d1 as [|x d1]; simpl.
  - destruct d2 as [|y d2]; [exfalso; apply Hne; reflexivity|].
    simpl. eauto.
  - eauto.
Qed.

(** The shape of an amount with at most one separator. *)
Lemma plain_amount_parts : forall amt,
  plain_amount amt = true ->
  exists d1 sp d2,
    amt = d1 ++ sp ++ d2 /\ digits d1 /\ digits d2 /\
    (sp = [] \/ exists c, is_sep c = true /\ sp = [c]) /\
    d1 ++ d2 <> [].
Proof.
  intros amt H. unfold plain_amount in H.
  apply andb_true_iff in H. destruct H as [H Hcount].
  apply andb_true_iff in H. destruct H as [Hall Hex].
  apply Nat.leb_le in Hcount.
  assert (Hnosep : forall s,
            forallb (fun c => isdecimal c || is_sep c) s = true ->
            filter is_sep s = [] -> digits s).
  { induction s as [|c s IH]; intros Ha Hf; [constructor|].
    simpl in Ha, Hf. apply andb_true_iff in Ha. destruct Ha as [Hc Ha].
    destruct (is_sep c) eqn:E; [discriminate|].
    rewrite orb_false_r in Hc. constructor; auto. apply IH; assumption. }
  assert (Hparts : exists d1 sp d2,
            amt = d1 ++ sp ++ d2 /\ digits d1 /\ digits d2 /\
            (sp = [] \/ exists c, is_sep c = true /\ sp = [c])).
  { clear Hex. induction amt as [|c amt IH].
    - exists [], [], [].
      split; [reflexivity|]. split; [constructor|]. split; [constructor|].
      left; reflexivity.
    - simpl in Hall, Hcount. apply andb_true_iff in Hall.
      destruct Hall as [Hc Hall].
      destruct (is_sep c) eqn:E.
      + exists [], [c], amt.
        split; [reflexivity|]. split; [constructor|]. split.
        * apply Hnosep; [exact Hall|].
          simpl in Hcount. destruct (filter is_sep amt); [reflexivity|].
          simpl in Hcount. lia.
        * right. exists c. auto.
      + rewrite orb_false_r in Hc.
        destruct (IH Hall Hcount) as (d1 & sp & d2 & Ha & H1 & H2 & Hsp).
        exists (c :: d1), sp, d2.
        split; [simpl; f_equal; exact Ha|].
        split; [constructor; assumption|]. split; assumption. }
  destruct Hparts as (d1 & sp & d2 & Ha & H1 & H2 & Hsp).
  exists d1, sp, d2. repeat split; auto.
  intros Hnil. apply app_eq_nil in Hnil. destruct Hnil; subst d1 d2.
  rewrite app_nil_r in Ha. simpl in Ha. subst amt.
  destruct Hsp as [->|(c & Hc & ->)]; simpl in Hex; [discriminate|].
  rewrite orb_false_r in Hex. apply digit_not_sep in Hex. congruence.
Qed.

(** [float] accepts every plain amount, once [,] is replaced by [.]. *)
Lemma float_plain_amount : forall amt,
  plain_amount amt = true ->
  exists c, py_float (replace (ch ",") (ch ".") amt) = Ret c.
Proof.
  intros amt H.
  destruct (plain_amount_parts amt H)
    as (d1 & sp & d2 & Ha & H1 & H2 & Hsp & Hne).
  subst amt. rewrite !replace_app, (replace_digits d1 H1),
    (replace_digits d2 H2).
  destruct Hsp as [->|(c & Hc & ->)].
  - simpl. rewrite <- (app_nil_r (d1 ++ d2)).
    apply float_digits; [|rewrite app_nil_r; exact Hne].
    rewrite app_nil_r. apply Forall_app; auto.
  - rewrite (replace_sep c Hc). apply float_point; assumption.
Qed.

(** The text of a repeated class is made of members of the class. *)
Lemma lang_star_cls : forall g items a,
  lang (Star g (Cls items)) a ->
  Forall (fun y => existsb (item_mem y) items = true) a.
Proof.
  intros g items a H.
  remember (Star g (Cls items)) as r eqn:Er.
  induction H; try discriminate; [constructor|].
  inversion Er; subst. apply Forall_app. split; [|auto].
  inversion H; subst. constructor; [assumption|constructor].
Qed.

Lemma lang_plus_cls : forall items a,
  lang (Plus (Cls items)) a ->
  a <> [] /\ Forall (fun y => existsb (item_mem y) items = true) a.
Proof.
  intros items a H. inversion H as [| | | |r1 r2 x y Hx Hy| | | | |]; subst.
  inversion Hx; subst. split; [discriminate|].
  constructor; [assumption|]. eapply lang_star_cls. exact Hy.
Qed.

Lemma digit_class : forall a,
  Forall (fun y => existsb (item_mem y) [Digit] = true) a -> digits a.
Proof.
  intros a H. eapply Forall_impl; [|exact H].
  intros y Hy. simpl in Hy. rewrite orb_false_r in Hy. exact Hy.
Qed.

(** The number that the relaxed pattern captures is a plain amount. *)
Lemma relaxed_amount_plain : forall g,
  lang (Plus digit +++ Opt (Cls [One (ch "."); One (ch ",")])
        +++ Star true digit) g ->
  plain_amount g = true.
Proof.
  intros g H.
  inversion H as [| | | |r1 r2 a bc Ha Hbc| | | | |]; subst.
  inversion Hbc as [| | | |r1 r2 b c Hb Hc| | | | |]; subst.
  apply lang_plus_cls in Ha. destruct Ha as [Hne Ha].
  apply digit_class in Ha.
  apply lang_star_cls, digit_class in Hc.
  assert (Hb' : b = [] \/ exists x, is_sep x = true /\ b = [x]).
  { inversion Hb as [| | | | |r1 r2 x Hx|r1 r2 x Hx| | |]; subst.
    - inversion Hx; subst. right. eexists. split; [|reflexivity].
      match goal with
      | E : existsb _ _ = true |- _ => simpl in E; rewrite orb_false_r in E
      end.
      unfold is_sep. rewrite orb_comm. assumption.
    - inversion Hx; subst. left; reflexivity. }
  assert (Hd : forall d, digits d ->
      forallb (fun c => isdecimal c || is_sep c) d = true /\
      filter is_sep d = []).
  { induction 1 as [|x d Hx Hd IH]; [split; reflexivity|].
    simpl. rewrite Hx, (digit_not_sep x Hx). simpl. exact IH. }
  destruct (Hd a Ha) as [Ha1 Ha2]. destruct (Hd c Hc) as [Hc1 Hc2].
  unfold plain_amount.
  rewrite !forallb_app, !filter_app, Ha1, Hc1, Ha2, Hc2, existsb_app.
  destruct a as [|x a]; [congruence|]. inversion Ha; subst.
  destruct Hb' as [->|(y & Hy & ->)]; simpl.
  - match goal with E : isdecimal x = true |- _ => rewrite E end.
    reflexivity.
  - match goal with E : isdecimal x = true |- _ => rewrite E end.
    rewrite Hy, orb_true_r. reflexivity.
Qed.

(** ** What [float] refuses *)

Lemma read_digits_split : forall s acc n,
  exists d rest v,
    s = d ++ rest /\ digits d /\
    match rest with [] => True | c :: _ => isdecimal c = false end /\
    read_digits acc n s = (v, (n + length d)%nat, rest).
Proof.
  induction s as [|c s IH]; intros acc n.
  - exists [], [], acc. cbn [app length read_digits]. rewrite Nat.add_0_r.
    repeat split. constructor.
  - cbn [read_digits]. destruct (decimal c) as [v|] eqn:E.
    + destruct (IH (10 * acc + v)%N (S n)) as (d & rest & w & Hs & Hd & Hr & Hw).
      exists (c :: d), rest, w. cbn [app length]. rewrite Hw.
      split; [f_equal; exact Hs|]. split.
      * constructor; [|exact Hd]. unfold isdecimal. rewrite E. reflexivity.
      * split; [exact Hr|]. f_equal. f_equal. lia.
    + exists [], (c :: s), acc. cbn [app length]. rewrite Nat.add_0_r.
      split; [reflexivity|]. split; [constructor|]. split; [|reflexivity].
      unfold isdecimal. rewrite E. reflexivity.
Qed.

Lemma py_float_raise : forall t e, py_float t = Raise e -> e = ValueError_float.
Proof.
  intros t e H. unfold py_float in H.
  destruct (read_digits 0 0 t) as [[ip ni] s1].
  destruct s1 as [|c s2].
  - destruct ni; inversion H; reflexivity.
  - destruct (N.eqb c (ch ".")); [|inversion H; reflexivity].
    destruct (read_digits ip 0 s2) as [[m nf] s3].
    destruct s3; [destruct (ni + nf)%nat|]; inversion H; reflexivity.
Qed.

(** The texts that [float] accepts. *)
Lemma py_float_shape : forall t c,
  py_float t = Ret c ->
  (digits t /\ t <> []) \/
  (exists d1 d2, t = d1 ++ ch "." :: d2 /\ digits d1 /\ digits d2 /\
                 d1 ++ d2 <> []).
Proof.
  intros t c H. unfold py_float in H.
  destruct (read_digits_split t 0%N 0) as (d1 & rest & v & Ht & Hd1 & Hr & Hv).
  rewrite Hv in H. cbn [Nat.add] in H.
  destruct rest as [|x s2].
  - rewrite app_nil_r in Ht. subst d1. left. split; [exact Hd1|].
    destruct t; [discriminate H|discriminate].
  - destruct (N.eqb x (ch ".")) eqn:Ex; [|discriminate].
    apply N.eqb_eq in Ex. subst x.
    destruct (read_digits_split s2 v 0) as (d2 & s3 & w & Hs2 & Hd2 & _ & Hw).
    rewrite Hw in H. cbn [Nat.add] in H.
    destruct s3 as [|y s3]; [|discriminate].
    rewrite app_nil_r in Hs2. subst s2. right. exists d1, d2.
    repeat split; auto.
    intros Hnil. apply app_eq_nil in Hnil. destruct Hnil; subst.
    discriminate H.
Qed.

Lemma digits_plain : forall d,
  digits d ->
  forallb (fun c => isdecimal c || is_sep c) d = true /\
  filter is_sep d = [] /\
  existsb isdecimal d = negb (Nat.eqb (length d) 0).
Proof.
  induction 1 as [|x d Hx Hd IH]; [repeat split|].
  cbn [forallb filter existsb length]. rewrite Hx, (digit_not_sep x Hx).
  destruct IH as (H1 & H2 & _). rewrite H1, H2. repeat split.
Qed.

Lemma float_shape_plain : forall t c, py_float t = Ret c -> plain_amount t = true.
Proof.
  intros t c H. unfold plain_amount.
  destruct (py_float_shape t c H)
    as [[Hd Hne]|(d1 & d2 & -> & H1 & H2 & Hne)].
  - destruct (digits_plain t Hd) as (F1 & F2 & F3).
    rewrite F1, F2, F3. destruct t; [congruence|reflexivity].
  - destruct (digits_plain d1 H1) as (F1 & F2 & F3).
    destruct (digits_plain d2 H2) as (G1 & G2 & G3).
    rewrite forallb_app, existsb_app, filter_app.
    cbn [forallb existsb filter].
    change (is_sep (ch ".")) with true. change (isdecimal (ch ".")) with false.
    rewrite F1, F2, F3, G1, G2, G3. cbn [orb andb app length Nat.leb].
    rewrite andb_true_r.
    destruct d1; [|reflexivity]. destruct d2; [|reflexivity].
    exfalso. apply Hne. reflexivity.
Qed.

Lemma plain_amount_replace : forall amt,
  plain_amount (replace (ch ",") (ch ".") amt) = plain_amount amt.
Proof.
  intros amt. unfold plain_amount.
  assert (H : forall c : char,
            let c' := if N.eqb c (ch ",") then ch "." else c in
            isdecimal c' = isdecimal c /\ is_sep c' = is_sep c).
  { intros c. destruct (N.eqb c (ch ",")) eqn:E; [|split; reflexivity].
    apply N.eqb_eq in E. subst. split; reflexivity. }
  assert (H1 : forall s,
            forallb (fun c => isdecimal c || is_sep c)
              (replace (ch ",") (ch ".") s)
            = forallb (fun c => isdecimal c || is_sep c) s).
  { induction s as [|c s IH]; [reflexivity|].
    unfold replace in *. cbn [map forallb].
    destruct (H c) as [Ha Hb]. cbv zeta in Ha, Hb.
    rewrite Ha, Hb, IH. reflexivity. }
  assert (H2 : forall s,
            existsb isdecimal (replace (ch ",") (ch ".") s)
            = existsb isdecimal s).
  { induction s as [|c s IH]; [reflexivity|].
    unfold replace in *. cbn [map existsb].
    destruct (H c) as [Ha Hb]. cbv zeta in Ha, Hb.
    rewrite Ha, IH. reflexivity. }
  assert (H3 : forall s,
            length (filter is_sep (replace (ch ",") (ch ".") s))
            = length (filter is_sep s)).
  { induction s as [|c s IH]; [reflexivity|].
    unfold replace in *. cbn [map filter].
    destruct (H c) as [Ha Hb]. cbv zeta in Ha, Hb.
    rewrite Hb. destruct (is_sep c); cbn [length]; rewrite IH; reflexivity. }
  rewrite H1, H2, H3. reflexivity.
Qed.

(** [float] refuses every amount that is not plain. *)
Lemma float_not_plain : forall amt,
  plain_amount amt = false ->
  py_float (replace (ch ",") (ch ".") amt) = Raise ValueError_float.
Proof.
  intros amt H.
  destruct (py_float (replace (ch ",") (ch ".") amt)) as [c|e] eqn:E.
  - apply float_shape_plain in E. rewrite plain_amount_replace in E.
    congruence.
  - apply py_float_raise in E. subst. reflexivity.
Qed.

End AmountFacts.

(* ================================================================== *)
(** * The extraction of one receipt                                    *)
(* ================================================================== *)

Module ExtractFacts.

Import Py Re Spec ListFacts StrFacts ReFacts AmountFacts DateFacts.
Import ExtractUberData.
Local Open Scope list_scope.

(** ** A record with a body *)

Lemma record_extraction : forall family_order recursion_limit body,
  extract_receipt_from_email family_order recursion_limit (record body) =
    (total <- extract_total body ;;
     date_str <- extract_date body ;;
     passenger <- extract_passenger family_order body ;;
     Ret (mk_receipt (fst total) (snd total) date_str passenger)).
Proof. reflexivity. Qed.

Lemma group_str_bound : forall r body m n,
  search r body = Some m -> binds n r = true ->
  exists g r1, group_str body m n = Ret g /\ group body m n = Some g /\
    In r1 (subgroups n r) /\ lang r1 g.
Proof.
  intros r body m n H Hb.
  destruct (group_bound r body m n H Hb) as (g & r1 & Hg & Hin & Hl).
  exists g, r1. unfold group_str. rewrite Hg. auto.
Qed.

(** The date never fails. *)
Lemma extract_date_total : forall body, exists d, extract_date body = Ret d.
Proof.
  intros body. unfold extract_date.
  destruct (search date_pattern body) as [m|] eqn:E.
  - destruct (group_str_bound date_pattern body m 2 E eq_refl)
      as (g & r1 & Hg & _). rewrite Hg. simpl.
    rewrite convert_cases. eauto.
  - destruct (search general_date_pattern body) as [m|] eqn:E2; [|eauto].
    destruct (group_str_bound general_date_pattern body m 1 E2 eq_refl)
      as (g & r1 & Hg & _). rewrite Hg. simpl.
    rewrite convert_cases. eauto.
Qed.

Lemma by_general_pattern_total : forall family_order body patterns passenger,
  Forall (fun r => binds 1 r = true) patterns ->
  exists p, by_general_pattern family_order body patterns passenger = Ret p.
Proof.
  intros family_order body patterns passenger H.
  induction H as [|r patterns Hr Hp IH]; simpl; [eauto|].
  destruct (search r body) as [m|] eqn:E; [|exact IH].
  destruct (group_str_bound r body m 1 E Hr) as (g & r1 & Hg & _).
  rewrite Hg. simpl. eauto.
Qed.

(** The passenger never fails. *)
Lemma extract_passenger_total : forall family_order body,
  exists p, extract_passenger family_order body = Ret p.
Proof.
  intros family_order body. unfold extract_passenger.
  destruct (search passenger_pattern body) as [m|] eqn:E.
  - destruct (group_str_bound passenger_pattern body m 2 E eq_refl)
      as (g & r1 & Hg & _). rewrite Hg. simpl. eauto.
  - destruct (negb (truthy (by_known_name body family_order None)));
      [|eauto].
    apply by_general_pattern_total.
    repeat constructor.
Qed.

(** The record of a body follows its cost and currency. *)
Lemma record_receipt : forall family_order recursion_limit body c cur,
  extract_total body = Ret (c, cur) ->
  exists d p,
    extract_date body = Ret d /\
    extract_passenger family_order body = Ret p /\
    extract_receipt_from_email family_order recursion_limit (record body)
      = Ret (mk_receipt c cur d p).
Proof.
  intros family_order recursion_limit body c cur H.
  destruct (extract_date_total body) as (d & Hd).
  destruct (extract_passenger_total family_order body) as (p & Hp).
  exists d, p. rewrite record_extraction, H, Hd, Hp. auto.
Qed.

Lemma record_raise : forall family_order recursion_limit body e,
  extract_total body = Raise e ->
  extract_receipt_from_email family_order recursion_limit (record body)
    = Raise e.
Proof.
  intros family_order recursion_limit body e H.
  rewrite record_extraction, H. reflexivity.
Qed.

(** A record is accepted exactly when a cost and a currency are extracted
    from its body: the date and the passenger play no part. *)
Lemma accepted_has_total : forall family_order recursion_limit email,
  accepted family_order recursion_limit email
  = has_total recursion_limit email.
Proof.
  intros family_order recursion_limit email.
  assert (Hf : forall v,
            match extract_fields family_order v with
            | Ret r =>
                match cost r, currency r with
                | Some _, Some _ => true
                | _, _ => false
                end
            | Raise _ => false
            end =
            match v with
            | VDict d =>
                match dict_get d (lit "body") (VStr []) with
                | VStr body =>
                    match extract_total body with
                    | Ret (Some _, Some _) => true
                    | _ => false
                    end
                | _ => false
                end
            | _ => false
            end).
  { intros v. unfold extract_fields.
    destruct v; try reflexivity. cbn [py_get bind].
    destruct (dict_get d (lit "body") (VStr [])); try reflexivity.
    destruct (extract_total s) as [[c cur]|e]; [|reflexivity].
    destruct (extract_date_total s) as (dd & ->).
    destruct (extract_passenger_total family_order s) as (p & ->).
    cbn [bind fst snd cost currency].
    destruct c, cur; reflexivity. }
  assert (Hb : forall v,
            match extract_fields family_order v with
            | Ret r =>
                match cost r, currency r with
                | Some _, Some _ => true
                | _, _ => false
                end
            | Raise _ => false
            end =
            match
              match v with
              | VDict d =>
                  match dict_get d (lit "body") (VStr []) with
                  | VStr body => Some body
                  | _ => None
                  end
              | _ => None
              end
            with
            | Some body =>
                match extract_total body with
                | Ret (Some _, Some _) => true
                | _ => false
                end
            | None => false
            end).
  { intros v. rewrite Hf. destruct v; try reflexivity.
    destruct (dict_get d (lit "body") (VStr [])); reflexivity. }
  unfold accepted, has_total, email_body, extract_receipt_from_email.
  destruct email; try apply Hb.
  - destruct (Json.loads recursion_limit s) as [v|e].
    + apply Hb.
    + destruct e; reflexivity.
  - exact (Hb (VDict d)).
Qed.

(** The cost of the record of a body is the cost found in the body. *)
Lemma receipt_cost_total : forall family_order recursion_limit body,
  receipt_cost (extract_receipt_from_email family_order recursion_limit
                  (record body))
  = cost_of (extract_total body).
Proof.
  intros family_order recursion_limit body.
  destruct (extract_total body) as [[c cur]|e] eqn:Ht.
  - destruct (record_receipt family_order recursion_limit body c cur Ht)
      as (d & p & _ & _ & Hr).
    rewrite Hr. reflexivity.
  - rewrite (record_raise family_order recursion_limit body e Ht).
    reflexivity.
Qed.

Lemma strict_record_extraction : forall body,
  ProcessUberReceipts.extract_single_receipt (record body) =
    (total <- ProcessUberReceipts.extract_total body ;;
     date_str <-
       match search ProcessUberReceipts.date_pattern body with
       | Some date_match =>
           g <- ProcessUberReceipts.group_str body date_match 1 ;;
           ProcessUberReceipts.convert_swedish_date_to_iso (strip g)
       | None => Ret None
       end ;;
     passenger <-
       match search ProcessUberReceipts.passenger_pattern body with
       | Some passenger_match =>
           g <- ProcessUberReceipts.group_str body passenger_match 1 ;;
           Ret (Some (strip g))
       | None => Ret None
       end ;;
     Ret (ProcessUberReceipts.mk_receipt (fst total) (snd total) date_str
            passenger)).
Proof. reflexivity. Qed.

Lemma strict_receipt_cost_total : forall body,
  strict_receipt_cost (ProcessUberReceipts.extract_single_receipt
                         (record body))
  = cost_of (ProcessUberReceipts.extract_total body).
Proof.
  intros body. rewrite strict_record_extraction.
  destruct (ProcessUberReceipts.extract_total body) as [[c cur]|e];
    [|reflexivity].
  cbn [bind fst snd].
  assert (Hd : exists d,
            match search ProcessUberReceipts.date_pattern body with
            | Some date_match =>
                g <- ProcessUberReceipts.group_str body date_match 1 ;;
                ProcessUberReceipts.convert_swedish_date_to_iso (strip g)
            | None => Ret None
            end = Ret d).
  { destruct (search ProcessUberReceipts.date_pattern body) as [m|] eqn:E;
      [|eauto].
    destruct (group_bound _ body m 1 E eq_refl) as (g & r1 & Hg & _).
    unfold ProcessUberReceipts.group_str. rewrite Hg. cbn [bind].
    rewrite convert_same, convert_cases. eauto. }
  assert (Hp : exists p,
            match search ProcessUberReceipts.passenger_pattern body with
            | Some passenger_match =>
                g <- ProcessUberReceipts.group_str body passenger_match 1 ;;
                Ret (Some (strip g))
            | None => Ret None
            end = Ret p).
  { destruct (search ProcessUberReceipts.passenger_pattern body)
      as [m|] eqn:E; [|eauto].
    destruct (group_bound _ body m 1 E eq_refl) as (g & r1 & Hg & _).
    unfold ProcessUberReceipts.group_str. rewrite Hg. cbn [bind]. eauto. }
  destruct Hd as (d & ->). destruct Hp as (p & ->). reflexivity.
Qed.

(** ** Cost and currency *)

(** The relaxed pattern always yields a cost and a currency. *)
Lemma relaxed_total : forall body m,
  search total_pattern2 body = Some m ->
  exists amt cur c,
    group body m 1 = Some amt /\ group body m 2 = Some cur /\
    plain_amount amt = true /\
    py_float (replace (ch ",") (ch ".") amt) = Ret c.
Proof.
  intros body m H.
  destruct (group_bound total_pattern2 body m 1 H eq_refl)
    as (amt & r1 & Hg1 & Hin1 & Hl1).
  destruct (group_bound total_pattern2 body m 2 H eq_refl)
    as (cur & r2 & Hg2 & _).
  simpl in Hin1. destruct Hin1 as [<-|[]].
  pose proof (relaxed_amount_plain amt Hl1) as Hp.
  destruct (float_plain_amount amt Hp) as (c & Hc).
  exists amt, cur, c. auto.
Qed.

Lemma extract_total_relaxed : forall body m amt cur c,
  search total_pattern body = None ->
  search total_pattern2 body = Some m ->
  group body m 1 = Some amt -> group body m 2 = Some cur ->
  py_float (replace (ch ",") (ch ".") amt) = Ret c ->
  extract_total body = Ret (Some c, Some cur).
Proof.
  intros body m amt cur c H1 H2 Hg1 Hg2 Hc.
  unfold extract_total, group_str. rewrite H1, H2, Hg1. cbn [bind].
  rewrite Hc. cbn [bind]. rewrite Hg2. reflexivity.
Qed.

Lemma extract_total_primary : forall body m amt c,
  search total_pattern body = Some m ->
  group body m 2 = Some amt ->
  py_float (replace (ch ",") (ch ".") amt) = Ret c ->
  exists cur, group body m 3 = Some cur /\
    extract_total body = Ret (Some c, Some cur).
Proof.
  intros body m amt c H Hg Hc.
  destruct (group_bound total_pattern body m 3 H eq_refl)
    as (cur & r3 & Hg3 & _).
  exists cur. split; [exact Hg3|].
  unfold extract_total, group_str. rewrite H, Hg. cbn [bind].
  rewrite Hc. cbn [bind]. rewrite Hg3. reflexivity.
Qed.

(** ** What reaches [float] *)

Lemma amount_text : forall amt,
  lang (Plus ExtractUberData.amount_class) amt ->
  digits_and_points (replace (ch ",") (ch ".") amt) = true.
Proof.
  intros amt H. apply lang_plus_cls in H. destruct H as [_ H].
  unfold digits_and_points, replace. rewrite forallb_map.
  apply forallb_forall. rewrite Forall_forall in H.
  intros c Hc. specialize (H c Hc). cbn [existsb item_mem] in H.
  destruct (N.eqb c (ch ",")) eqn:Ec; [reflexivity|].
  apply orb_true_iff in H. destruct H as [H|H]; [rewrite H; reflexivity|].
  apply orb_true_iff in H. destruct H as [H|H].
  { apply N.eqb_eq in H. subst c. reflexivity. }
  simpl in H. discriminate H.
Qed.

(** In [extract_receipt_from_email], [float] is applied to digits and
    points only. *)
Lemma float_argument : forall body,
  match search total_pattern body with
  | Some m =>
      exists amt, group body m 2 = Some amt /\
        digits_and_points (replace (ch ",") (ch ".") amt) = true
  | None =>
      match search total_pattern2 body with
      | Some m =>
          exists amt, group body m 1 = Some amt /\
            digits_and_points (replace (ch ",") (ch ".") amt) = true
      | None => True
      end
  end.
Proof.
  intros body. destruct (search total_pattern body) as [m|] eqn:E.
  - destruct (group_bound _ body m 2 E eq_refl) as (amt & r1 & Hg & Hin & Hl).
    simpl in Hin. destruct Hin as [<-|[]].
    exists amt. split; [exact Hg|]. apply amount_text. exact Hl.
  - destruct (search total_pattern2 body) as [m|] eqn:E2; [|exact I].
    destruct (relaxed_total body m E2) as (amt & cur & c & Hg & _ & Hp & _).
    exists amt. split; [exact Hg|].
    unfold plain_amount in Hp. apply andb_true_iff in Hp.
    destruct Hp as [Hp _]. apply andb_true_iff in Hp. destruct Hp as [Hp _].
    unfold digits_and_points, replace. rewrite forallb_map.
    apply forallb_forall. rewrite forallb_forall in Hp.
    intros c0 Hc. specialize (Hp c0 Hc).
    destruct (N.eqb c0 (ch ",")) eqn:Ec; [reflexivity|].
    unfold is_sep in Hp. rewrite Ec in Hp. exact Hp.
Qed.

(** The same in [extract_single_receipt]. *)
Lemma strict_float_argument : forall body m,
  search ProcessUberReceipts.total_pattern body = Some m ->
  exists amt, group body m 1 = Some amt /\
    digits_and_points (replace (ch ",") (ch ".") amt) = true.
Proof.
  intros body m E.
  destruct (group_bound _ body m 1 E eq_refl) as (amt & r1 & Hg & Hin & Hl).
  simpl in Hin. destruct Hin as [<-|[]].
  exists amt. split; [exact Hg|]. apply amount_text. exact Hl.
Qed.

(** ** Separators *)

Lemma Forall2_sep_refl : forall s, Forall2 sep_equiv s s.
Proof. induction s; constructor; auto. left; reflexivity. Qed.

Lemma Forall2_sep_replace : forall s,
  Forall2 sep_equiv s (replace (ch ",") (ch ".") s).
Proof.
  induction s as [|c s IH]; [constructor|].
  unfold replace in *. cbn [map]. constructor; [|exact IH].
  destruct (N.eqb c (ch ",")) eqn:E; [|left; reflexivity].
  apply N.eqb_eq in E; subst. right. split; reflexivity.
Qed.

Lemma Forall2_skipn : forall (A B : Type) (R : A -> B -> Prop) n l l',
  Forall2 R l l' -> Forall2 R (skipn n l) (skipn n l').
Proof.
  induction n as [|n IH]; intros l l' H; [exact H|].
  destruct H; simpl; [constructor|]. apply IH. assumption.
Qed.

Lemma Forall2_firstn : forall (A B : Type) (R : A -> B -> Prop) n l l',
  Forall2 R l l' -> Forall2 R (firstn n l) (firstn n l').
Proof.
  induction n as [|n IH]; intros l l' H; [constructor|].
  destruct H; simpl; constructor; auto.
Qed.

Lemma group_blind : forall body body' m n,
  Forall2 sep_equiv body body' ->
  match group body m n, group body' m n with
  | Some g, Some g' =>
      replace (ch ",") (ch ".") g = replace (ch ",") (ch ".") g'
  | None, None => True
  | _, _ => False
  end.
Proof.
  intros body body' m n H. unfold group.
  destruct (lookup n (m_groups m)) as [[a b]|]; [|exact I].
  apply replace_sep_equiv. unfold slice.
  apply Forall2_firstn, Forall2_skipn. exact H.
Qed.

(** The cost found by the lenient extractor does not depend on which
    separator the text uses. *)
Lemma extract_total_blind : forall body body',
  Forall2 sep_equiv body body' ->
  cost_of (extract_total body) = cost_of (extract_total body').
Proof.
  intros body body' H. unfold extract_total, group_str.
  rewrite <- (search_blind total_pattern body body' eq_refl H).
  rewrite <- (search_blind total_pattern2 body body' eq_refl H).
  destruct (search total_pattern body) as [m|].
  - pose proof (group_blind body body' m 2 H) as G.
    destruct (group body m 2), (group body' m 2); try contradiction;
      [|reflexivity].
    cbn [bind]. rewrite G.
    destruct (py_float _); reflexivity.
  - destruct (search total_pattern2 body) as [m|]; [|reflexivity].
    pose proof (group_blind body body' m 1 H) as G.
    destruct (group body m 1), (group body' m 1); try contradiction;
      [|reflexivity].
    cbn [bind]. rewrite G.
    destruct (py_float _); reflexivity.
Qed.

(** The same for [extract_single_receipt]. *)
Lemma strict_extract_total_blind : forall body body',
  Forall2 sep_equiv body body' ->
  cost_of (ProcessUberReceipts.extract_total body) =
  cost_of (ProcessUberReceipts.extract_total body').
Proof.
  intros body body' H.
  unfold ProcessUberReceipts.extract_total, ProcessUberReceipts.group_str.
  rewrite <- (search_blind ProcessUberReceipts.total_pattern body body'
                eq_refl H).
  destruct (search ProcessUberReceipts.total_pattern body) as [m|];
    [|reflexivity].
  pose proof (group_blind body body' m 1 H) as G.
  destruct (group body m 1), (group body' m 1); try contradiction;
    [|reflexivity].
  cbn [bind]. rewrite G.
  destruct (py_float _); reflexivity.
Qed.

End ExtractFacts.

(* ================================================================== *)
(** * The passenger                                                    *)
(* ================================================================== *)

Module PassengerFacts.

Import Py Re Spec ListFacts StrFacts ReFacts AmountFacts ExtractFacts.
Import ExtractUberData.
Local Open Scope list_scope.

Lemma str_eqb_eq : forall a b, str_eqb a b = true <-> a = b.
Proof.
  induction a as [|x a IH]; intros [|y b]; simpl; split; intros H;
    try reflexivity; try discriminate.
  - apply andb_true_iff in H. destruct H as [H1 H2].
    apply N.eqb_eq in H1. apply IH in H2. subst. reflexivity.
  - inversion H; subst. rewrite N.eqb_refl. simpl. apply IH. reflexivity.
Qed.

Lemma by_known_name_none : forall body names,
  (forall name, In name names -> name_found body name = false) ->
  by_known_name body names None = None.
Proof.
  induction names as [|name names IH]; intros H; simpl; [reflexivity|].
  rewrite (H name (or_introl eq_refl)). simpl.
  apply IH. intros n Hn. apply H. right. exact Hn.
Qed.

(** The known names differ by more than the case of their letters. *)
Lemma family_lower_injective : forall a b,
  In a family_members -> In b family_members ->
  lower a = lower b -> a = b.
Proof.
  intros a b Ha Hb H. unfold family_members in Ha, Hb. simpl in Ha, Hb.
  repeat (destruct Ha as [Ha|Ha]; [subst a|]); try contradiction;
    repeat (destruct Hb as [Hb|Hb]; [subst b|]); try contradiction;
    try reflexivity; vm_compute in H; discriminate H.
Qed.

Lemma family_not_empty : forall a, In a family_members -> truthy (Some a) = true.
Proof.
  intros a Ha. unfold family_members in Ha. simpl in Ha.
  repeat (destruct Ha as [Ha|Ha]; [subst a; reflexivity|]). contradiction.
Qed.

Lemma canonical_found : forall candidate members passenger member,
  In member members -> lower candidate = lower member ->
  exists member',
    canonical candidate members passenger = Some member' /\
    In member' members /\ lower candidate = lower member'.
Proof.
  induction members as [|x members IH]; intros passenger member Hin Hl;
    [contradiction|].
  simpl. destruct (str_eqb (lower candidate) (lower x)) eqn:E.
  - apply str_eqb_eq in E. exists x.
    split; [reflexivity|]. split; [left; reflexivity|exact E].
  - destruct Hin as [->|Hin].
    + rewrite Hl in E. assert (E' := proj2 (str_eqb_eq (lower member)
                                             (lower member)) eq_refl).
      congruence.
    + destruct (IH passenger member Hin Hl) as (m' & Hc & Hm & Hl').
      exists m'. split; [exact Hc|]. split; [right; exact Hm|exact Hl'].
Qed.

Lemma canonical_none : forall candidate members passenger,
  (forall member, In member members -> lower candidate <> lower member) ->
  canonical candidate members passenger = passenger.
Proof.
  induction members as [|x members IH]; intros passenger H; [reflexivity|].
  simpl. destruct (str_eqb (lower candidate) (lower x)) eqn:E.
  - apply str_eqb_eq in E. exfalso. apply (H x); [left; reflexivity|exact E].
  - apply IH. intros m Hm. apply H. right; exact Hm.
Qed.

Lemma first_match_In : forall body patterns m,
  first_match body patterns = Some m ->
  exists pattern, In pattern patterns /\ search pattern body = Some m.
Proof.
  induction patterns as [|p patterns IH]; intros m H; simpl in H;
    [discriminate|].
  destruct (search p body) as [m'|] eqn:E.
  - inversion H; subst. exists p. split; [left; reflexivity|exact E].
  - destruct (IH m H) as (q & Hq & Hs). exists q. split; [right|]; auto.
Qed.

(** The loop over the general patterns stops at the first match. *)
Lemma by_general_pattern_first : forall family_order body patterns passenger m,
  first_match body patterns = Some m ->
  by_general_pattern family_order body patterns passenger =
    (g <- group_str body m 1 ;;
     let candidate := strip g in
     let passenger := canonical candidate family_order passenger in
     Ret (if truthy passenger then passenger else Some candidate)).
Proof.
  induction patterns as [|p patterns IH]; intros passenger m H; simpl in H;
    [discriminate|].
  simpl. destruct (search p body) as [m'|] eqn:E.
  - inversion H; subst. reflexivity.
  - apply IH. exact H.
Qed.

(** A name that a general pattern captures has no blank in it. *)
Lemma name_class_no_space : forall g,
  lang (Plus name_class) g -> strip g = g.
Proof.
  intros g H. apply lang_plus_cls in H. destruct H as [_ H].
  apply strip_no_space. eapply Forall_impl; [|exact H].
  intros y Hy. destruct (isspace y) eqn:E; [|reflexivity].
  exfalso. unfold isspace in E. simpl in Hy.
  repeat rewrite orb_true_iff in Hy. repeat rewrite orb_true_iff in E.
  repeat rewrite andb_true_iff in Hy. repeat rewrite andb_true_iff in E.
  repeat rewrite N.eqb_eq in Hy. repeat rewrite N.eqb_eq in E.
  repeat rewrite N.leb_le in Hy. repeat rewrite N.leb_le in E.
  unfold ch, chr, a_ring, a_uml, o_uml, A_ring, A_uml, O_uml in Hy.
  simpl in Hy. lia.
Qed.

Lemma general_capture : forall body m,
  first_match body general_patterns = Some m ->
  exists g, group body m 1 = Some g /\ group_str body m 1 = Ret g /\
            strip g = g.
Proof.
  intros body m H. destruct (first_match_In _ _ _ H) as (p & Hp & Hs).
  assert (Hb : binds 1 p = true /\ subgroups 1 p = [Plus name_class]).
  { unfold general_patterns in Hp. simpl in Hp.
    destruct Hp as [<-|[<-|[<-|[]]]]; split; reflexivity. }
  destruct Hb as [Hb Hsub].
  destruct (group_str_bound p body m 1 Hs Hb) as (g & r1 & Hg & Hg' & Hin & Hl).
  rewrite Hsub in Hin. destruct Hin as [<-|[]].
  exists g. repeat split; auto. apply name_class_no_space. exact Hl.
Qed.

End PassengerFacts.

(* ================================================================== *)
(** * The handling of a [str] argument                                 *)
(* ================================================================== *)

Module ParseFacts.

Import Py Re Spec ListFacts StrFacts.
Import ExtractUberData.
Local Open Scope list_scope.

Lemma infix_refl : forall s, infix s s.
Proof. intros s. exists [], []. rewrite app_nil_r. reflexivity. Qed.

Lemma infix_trans : forall a b c, infix a b -> infix b c -> infix a c.
Proof.
  intros a b c (p1 & q1 & H1) (p2 & q2 & H2). subst.
  exists (p2 ++ p1), (q1 ++ q2). repeat rewrite <- app_assoc. reflexivity.
Qed.

Lemma infix_firstn : forall n (s : str), infix (firstn n s) s.
Proof.
  intros n s. exists [], (skipn n s). simpl. symmetry. apply firstn_skipn.
Qed.

Lemma infix_skipn : forall n (s : str), infix (skipn n s) s.
Proof.
  intros n s. exists (firstn n s), []. rewrite app_nil_r.
  symmetry. apply firstn_skipn.
Qed.

Lemma infix_strip : forall s, infix (strip s) s.
Proof.
  intros s. unfold strip.
  destruct (lstrip_spec s) as (ws & Hs & _).
  destruct (rstrip_spec (lstrip s)) as (ws' & Hs' & _).
  exists ws, ws'. rewrite <- Hs'. exact Hs.
Qed.

Lemma infix_contains : forall c frag s,
  infix frag s -> contains c s = false -> contains c frag = false.
Proof.
  intros c frag s (pre & post & H) Hc. subst. unfold contains in *.
  rewrite !existsb_app in Hc.
  apply orb_false_iff in Hc. destruct Hc as [_ Hc].
  apply orb_false_iff in Hc. apply Hc.
Qed.

(** The pieces that [re.split] returns are pieces of the text. *)
Lemma split_aux_infix : forall r n s p,
  In p (Re.split_aux r n s) -> infix p s.
Proof.
  induction n as [|n IH]; intros s p H; simpl in H.
  - destruct H as [<-|[]]. apply infix_refl.
  - destruct (search r s) as [m|].
    + destruct H as [<-|H]; [apply infix_firstn|].
      eapply infix_trans; [apply IH; exact H|apply infix_skipn].
    + destruct H as [<-|[]]. apply infix_refl.
Qed.

Lemma startswith_contains : forall c s,
  startswith c s = true -> contains c s = true.
Proof.
  intros c [|x s] H; simpl in *; [discriminate|].
  apply N.eqb_eq in H. subst. rewrite N.eqb_refl. reflexivity.
Qed.

(** A piece without [{] yields no record. *)
Lemma parse_part_no_brace : forall recursion_limit part,
  contains (ch "{") part = false ->
  parse_part recursion_limit part = Ret None.
Proof.
  intros recursion_limit part H. unfold parse_part.
  pose proof (infix_contains (ch "{") _ _ (infix_strip part) H) as Hs.
  destruct (strip part) as [|c s] eqn:E; [reflexivity|].
  destruct (startswith (ch "{") (c :: s)) eqn:Es.
  - apply startswith_contains in Es. congruence.
  - cbn [andb]. rewrite Hs. reflexivity.
Qed.

Lemma parse_parts_no_brace : forall recursion_limit parts parsed,
  (forall part, In part parts -> contains (ch "{") part = false) ->
  parse_parts recursion_limit parts parsed = Ret parsed.
Proof.
  induction parts as [|part parts IH]; intros parsed H; [reflexivity|].
  simpl. rewrite (parse_part_no_brace recursion_limit part)
    by (apply H; left; reflexivity).
  simpl. apply IH. intros p Hp. apply H. right; exact Hp.
Qed.

(** A piece raises only what the decoder raises on a fragment of it, and
    never a decoding error. *)
Lemma parse_part_raise : forall recursion_limit part e,
  parse_part recursion_limit part = Raise e ->
  is_JSONDecodeError e = false /\
  exists frag, infix frag part /\ Json.loads recursion_limit frag = Raise e.
Proof.
  intros recursion_limit part e H. unfold parse_part in H.
  destruct (strip part) as [|c s] eqn:E; [discriminate|].
  assert (Hi : infix (c :: s) part) by (rewrite <- E; apply infix_strip).
  destruct (startswith (ch "{") (c :: s) && endswith (ch "}") (c :: s)).
  - destruct (Json.loads recursion_limit (c :: s)) as [v|e'] eqn:El;
      simpl in H; [discriminate|].
    destruct e'; inversion H; subst; (split; [reflexivity|]);
      exists (c :: s); auto.
  - destruct (contains (ch "{") (c :: s)); [|discriminate].
    destruct (endswith (ch "}") _); [|discriminate].
    match type of H with
    | context [Json.loads recursion_limit ?f] =>
        assert (Hf : infix f part)
          by (eapply infix_trans; [apply infix_skipn|exact Hi]);
        destruct (Json.loads recursion_limit f) as [v|e'] eqn:El
    end; simpl in H; [discriminate|].
    destruct e'; inversion H; subst; (split; [reflexivity|]);
      eexists; eauto.
Qed.

Lemma parse_parts_raise : forall recursion_limit parts parsed e,
  parse_parts recursion_limit parts parsed = Raise e ->
  exists part, In part parts /\ parse_part recursion_limit part = Raise e.
Proof.
  induction parts as [|part parts IH]; intros parsed e H; simpl in H;
    [discriminate|].
  destruct (parse_part recursion_limit part) as [r|e'] eqn:Ep; simpl in H.
  - destruct (IH _ e H) as (p & Hp & Hr). exists p. split; [right|]; auto.
  - inversion H; subst. exists part. split; [left; reflexivity|exact Ep].
Qed.

(** Text that the decoder refuses and that has no [{] in it is read as an
    empty list of records. *)
Lemma parse_emails_no_brace : forall recursion_limit s,
  Json.loads recursion_limit s = Raise JSONDecodeError ->
  contains (ch "{") s = false ->
  parse_emails recursion_limit s = Ret (VList []).
Proof.
  intros recursion_limit s Hl Hc. unfold parse_emails. rewrite Hl.
  rewrite parse_parts_no_brace; [reflexivity|].
  intros part Hp. apply split_aux_infix in Hp.
  eapply infix_contains; eauto.
Qed.

(** The parse error wraps what the decoder raised, on the text or on a
    fragment of it, and that is never a decoding error. *)
Lemma parse_emails_raise : forall recursion_limit s e,
  parse_emails recursion_limit s = Raise e ->
  exists cause frag,
    e = ValueError_FailedToParse cause /\
    is_JSONDecodeError cause = false /\
    infix frag s /\ Json.loads recursion_limit frag = Raise cause.
Proof.
  intros recursion_limit s e H. unfold parse_emails, try_except in H.
  destruct (Json.loads recursion_limit s) as [v|e'] eqn:El;
    [discriminate|].
  assert (Hother : is_JSONDecodeError e' = false ->
                   @Raise value (ValueError_FailedToParse e') = Raise e ->
                   exists cause frag,
                     e = ValueError_FailedToParse cause /\
                     is_JSONDecodeError cause = false /\
                     infix frag s /\
                     Json.loads recursion_limit frag = Raise cause).
  { intros Hn Heq. inversion Heq; subst. exists e', s.
    repeat split; auto. apply infix_refl. }
  destruct e'; try (apply Hother; [reflexivity|exact H]).
  destruct (parse_parts recursion_limit (Re.split value_marker s) [])
    as [l|e'] eqn:Ep; simpl in H; [discriminate|].
  inversion H; subst.
  destruct (parse_parts_raise _ _ _ _ Ep) as (part & Hin & Hr).
  destruct (parse_part_raise _ _ _ Hr) as (Hn & frag & Hf & Hl).
  exists e', frag. repeat split; auto.
  eapply infix_trans; [exact Hf|]. eapply split_aux_infix. exact Hin.
Qed.

(** What the block returns is a list. *)
Lemma parse_emails_ret : forall recursion_limit s v,
  parse_emails recursion_limit s = Ret v -> exists l, v = VList l.
Proof.
  intros recursion_limit s v H. unfold parse_emails, try_except in H.
  destruct (Json.loads recursion_limit s) as [w|e].
  - inversion H; subst. destruct w; eauto.
  - destruct e; try discriminate.
    destruct (parse_parts recursion_limit (Re.split value_marker s) [])
      as [l|e]; simpl in H; [|discriminate].
    inversion H; subst. eauto.
Qed.

End ParseFacts.

(* ================================================================== *)
(** * The bounds of the decoder and of [re.split] are never reached    *)
(* ================================================================== *)

Module FuelFacts.

Import Py Re Spec ListFacts ReFacts.
Local Open Scope list_scope.

(** ** [re.split] *)

Lemma lang_str_cons : forall c s a,
  lang (Str (c :: s)) a -> a <> [].
Proof.
  intros c s a H. destruct s as [|x s]; simpl in H.
  - inversion H; subst. discriminate.
  - inversion H as [| | | |r1 r2 p q Hp Hq| | | | |]; subst.
    inversion Hp; subst. discriminate.
Qed.

(** A match of the marker is never empty. *)
Lemma value_marker_progress : forall s m,
  search ExtractUberData.value_marker s = Some m -> (0 < m_end m)%nat.
Proof.
  intros s m H. apply search_sound in H. destruct H as (Hb & Hl & _).
  unfold ExtractUberData.value_marker in Hl.
  inversion Hl as [| | | |r1 r2 p q Hp Hq| | | | |]; subst.
  apply (lang_str_cons 10%N (10%N :: lit "Value #")) in Hp.
  destruct (Nat.eq_dec (m_end m) 0) as [E|E]; [|lia].
  exfalso. assert (Hs : m_start m = 0%nat) by lia.
  match goal with
  | Heq : p ++ q = slice _ _ _ |- _ =>
      rewrite E, Hs, slice_refl in Heq; apply app_eq_nil in Heq;
      destruct Heq; contradiction
  end.
Qed.

Lemma split_aux_fuel : forall r,
  (forall s m, search r s = Some m -> (0 < m_end m)%nat) ->
  forall n s, (length s <= n)%nat ->
    Re.split_aux r n s = Re.split_aux r (length s) s.
Proof.
  intros r Hr n. induction n as [n IH] using lt_wf_ind.
  intros s Hn. destruct n as [|n].
  - destruct s; [reflexivity|simpl in Hn; lia].
  - destruct s as [|y s'].
    + simpl. destruct (search r []) as [m|] eqn:E; [|reflexivity].
      pose proof (search_sound _ _ _ E) as (Hb & _). simpl in Hb.
      pose proof (Hr _ _ E). lia.
    + cbn [length Re.split_aux].
      destruct (search r (y :: s')) as [m|] eqn:E; [|reflexivity].
      pose proof (Hr _ _ E) as Hpos.
      assert (Hl : (length (skipn (m_end m) (y :: s')) <= length s')%nat)
        by (rewrite length_skipn; cbn [length]; lia).
      simpl in Hn.
      rewrite (IH n (Nat.lt_succ_diag_r n) (skipn (m_end m) (y :: s')))
        by lia.
      rewrite (IH (length s') Hn (skipn (m_end m) (y :: s')) Hl).
      reflexivity.
Qed.

(** ** [json.loads] *)

Lemma hex4_shorter : forall s u rest,
  Json.hex4 s = Some (u, rest) -> (length rest < length s)%nat.
Proof.
  intros s u rest H. unfold Json.hex4 in H.
  destruct s as [|a [|b [|c [|d r]]]]; try discriminate.
  destruct (Json.hex_val a), (Json.hex_val b), (Json.hex_val c),
    (Json.hex_val d); try discriminate.
  inversion H; subst. simpl. lia.
Qed.

Lemma unicode_escape_shorter : forall s u rest,
  Json.unicode_escape s = Some (u, rest) -> (length rest < length s)%nat.
Proof.
  intros s u rest H. unfold Json.unicode_escape in H.
  destruct (Json.hex4 s) as [[v r]|] eqn:E; [|discriminate].
  pose proof (hex4_shorter _ _ _ E) as Hr.
  assert (Hdef : Some (v, r) = Some (u, rest) -> (length rest < length s)%nat)
    by (intros Heq; inversion Heq; subst; exact Hr).
  destruct ((55296 <=? v)%N && (v <=? 56319)%N); [|auto].
  destruct r as [|b [|x r']]; auto.
  destruct ((N.eqb b _) && (N.eqb x _)); [|auto].
  destruct (Json.hex4 r') as [[v2 r2]|] eqn:E2; [|auto].
  pose proof (hex4_shorter _ _ _ E2) as Hr2.
  destruct ((56320 <=? v2)%N && (v2 <=? 57343)%N); [|auto].
  inversion H; subst. simpl in Hr. lia.
Qed.

Lemma scanstring_fuel : forall n m s acc,
  (length s <= n)%nat -> (length s <= m)%nat ->
  Json.scanstring n s acc = Json.scanstring m s acc.
Proof.
  induction n as [|n IH]; intros m s acc Hn Hm.
  - destruct s; [|simpl in Hn; lia]. destruct m; reflexivity.
  - destruct m as [|m].
    + destruct s; [reflexivity|simpl in Hm; lia].
    + destruct s as [|c s']; [reflexivity|]. simpl in Hn, Hm. simpl.
      destruct (N.eqb c _); [reflexivity|].
      destruct (N.eqb c _).
      * destruct s' as [|e s'']; [reflexivity|]. simpl in Hn, Hm.
        destruct (N.eqb e _).
        -- destruct (Json.unicode_escape s'') as [[u rest]|] eqn:E;
             [|reflexivity].
           apply unicode_escape_shorter in E. apply IH; lia.
        -- destruct (Json.escape e); [|reflexivity]. apply IH; lia.
      * destruct (c <? 32)%N; [reflexivity|]. apply IH; lia.
Qed.

Lemma scanstring_shorter : forall n s acc k rest,
  Json.scanstring n s acc = Ret (k, rest) -> (length rest < length s)%nat.
Proof.
  induction n as [|n IH]; intros s acc k rest H; simpl in H; [discriminate|].
  destruct s as [|c s']; [discriminate|]. simpl.
  destruct (N.eqb c _); [inversion H; subst; lia|].
  destruct (N.eqb c _).
  - destruct s' as [|e s'']; [discriminate|]. simpl.
    destruct (N.eqb e _).
    + destruct (Json.unicode_escape s'') as [[u r]|] eqn:E; [|discriminate].
      apply unicode_escape_shorter in E. apply IH in H. lia.
    + destruct (Json.escape e); [|discriminate]. apply IH in H. lia.
  - destruct (c <? 32)%N; [discriminate|]. apply IH in H. lia.
Qed.

Lemma skip_ws_length : forall s, (length (Json.skip_ws s) <= length s)%nat.
Proof.
  induction s as [|c s IH]; simpl; [lia|].
  destruct (Json.is_ws c); simpl; lia.
Qed.

Lemma ascii_digits_length : forall s acc n v k rest,
  Json.ascii_digits acc n s = (v, k, rest) ->
  (length rest + k = length s + n)%nat /\ (n <= k)%nat.
Proof.
  induction s as [|c s IH]; intros acc n v k rest H; simpl in H.
  - inversion H; subst. split; [reflexivity|lia].
  - destruct (Json.is_digit c).
    + apply IH in H. simpl. lia.
    + inversion H; subst. split; [reflexivity|lia].
Qed.

Lemma strip_prefix_length : forall p s rest,
  Json.strip_prefix p s = Some rest ->
  (length rest + length p = length s)%nat.
Proof.
  induction p as [|x p IH]; intros s rest H; simpl in H.
  - inversion H; subst. simpl. lia.
  - destruct s as [|y s]; [discriminate|].
    destruct (x =? y)%N; [|discriminate]. apply IH in H. simpl. lia.
Qed.

Lemma constant_shorter : forall s v rest,
  Json.constant s = Some (v, rest) -> (length rest < length s)%nat.
Proof.
  intros s v rest H. unfold Json.constant in H.
  repeat match type of H with
         | match Json.strip_prefix ?p s with _ => _ end = _ =>
             let E := fresh "E" in
             destruct (Json.strip_prefix p s) eqn:E;
             [apply strip_prefix_length in E; inversion H; subst;
              simpl in E; lia|]
         end.
  discriminate.
Qed.

Lemma match_number_shorter : forall s v rest,
  Json.match_number s = Ret (v, rest) -> (length rest < length s)%nat.
Proof.
  intros s v rest H. unfold Json.match_number in H.
  set (sign := match s with
               | c :: s' => if (N.eqb c _) then (true, s') else (false, s)
               | [] => (false, s)
               end) in H.
  assert (Hsign : (length (snd sign) <= length s)%nat).
  { subst sign. destruct s as [|c s']; simpl; [lia|].
    destruct (N.eqb c _); simpl; lia. }
  destruct sign as [neg s0]. simpl in Hsign.
  set (ip := match s0 with
             | c :: s' =>
                 if (N.eqb c _) then Some (0%N, 1%nat, s')
                 else if Json.is_digit c
                      then Some (Json.ascii_digits 0 0 s0)
                      else None
             | [] => None
             end) in H.
  assert (Hip : forall a b r, ip = Some (a, b, r) ->
                              (length r < length s0)%nat).
  { subst ip. intros a b r Hi. destruct s0 as [|c s']; [discriminate|].
    destruct (N.eqb c _); [inversion Hi; subst; simpl; lia|].
    destruct (Json.is_digit c) eqn:Ed; [|discriminate].
    inversion Hi as [Hd]. simpl in Hd. rewrite Ed in Hd.
    apply ascii_digits_length in Hd. simpl. lia. }
  destruct ip as [[[a b] s1]|]; [|discriminate].
  specialize (Hip a b s1 eq_refl).
  assert (Hfrac : forall m nf s2, Json.fraction a s1 = Some (m, nf, s2) ->
                                  (length s2 <= length s1)%nat).
  { intros m nf s2 Hf. unfold Json.fraction in Hf.
    destruct s1 as [|c s1']; [discriminate|].
    destruct (N.eqb c _); [|discriminate].
    destruct (Json.ascii_digits a 0 s1') as [[x y] z] eqn:Ea.
    apply ascii_digits_length in Ea.
    destruct y; inversion Hf; subst. simpl. lia. }
  assert (Hexp : forall s2 e s3, Json.exponent s2 = Some (e, s3) ->
                                 (length s3 <= length s2)%nat).
  { intros s2 e s3 He. unfold Json.exponent in He.
    destruct s2 as [|c s2']; [discriminate|].
    destruct ((N.eqb c _) || (N.eqb c _)); [|discriminate].
    set (sg := match s2' with
               | x :: s'' =>
                   if (N.eqb x _) then (true, s'')
                   else if (N.eqb x _) then (false, s'')
                   else (false, s2')
               | [] => (false, s2')
               end) in He.
    assert (Hsg : (length (snd sg) <= length s2')%nat).
    { subst sg. destruct s2' as [|x s'']; simpl; [lia|].
      destruct (N.eqb x _); simpl; [lia|].
      destruct (N.eqb x _); simpl; lia. }
    destruct sg as [ng s4]. simpl in Hsg.
    destruct (Json.ascii_digits 0 0 s4) as [[x y] z] eqn:Ea.
    apply ascii_digits_length in Ea.
    destruct y; inversion He; subst. simpl. lia. }
  destruct (Json.fraction a s1) as [[[m nf] s2]|] eqn:Ef.
  - specialize (Hfrac _ _ _ eq_refl).
    destruct (Json.exponent s2) as [[e s3]|] eqn:Ee.
    + specialize (Hexp _ _ _ Ee). inversion H; subst. lia.
    + inversion H; subst. lia.
  - destruct (Json.exponent s1) as [[e s3]|] eqn:Ee.
    + specialize (Hexp _ _ _ Ee). inversion H; subst. lia.
    + destruct (Json.int_max_str_digits <? b)%nat; inversion H; subst. lia.
Qed.

Section Items.

Variable scan : str -> outcome (value * str).
Hypothesis scan_shorter : forall s v rest,
  scan s = Ret (v, rest) -> (length rest < length s)%nat.

Lemma array_items_shorter : forall n s acc v rest,
  Json.array_items scan n s acc = Ret (v, rest) ->
  (length rest < length s)%nat.
Proof.
  induction n as [|n IH]; intros s acc v rest H; simpl in H; [discriminate|].
  destruct (scan s) as [[w s1]|e] eqn:E; simpl in H; [|discriminate].
  apply scan_shorter in E. pose proof (skip_ws_length s1) as Hw.
  destruct (Json.skip_ws s1) as [|c s2]; [discriminate|]. simpl in Hw.
  destruct (N.eqb c _); [inversion H; subst; lia|].
  destruct (N.eqb c _); [|discriminate].
  apply IH in H. pose proof (skip_ws_length s2). lia.
Qed.

Lemma array_items_fuel : forall n m s acc,
  scan [] = Raise JSONDecodeError ->
  (length s <= n)%nat -> (length s <= m)%nat ->
  Json.array_items scan n s acc = Json.array_items scan m s acc.
Proof.
  intros n m s acc Hnil. revert m s acc.
  induction n as [|n IH]; intros m s acc Hn Hm.
  - destruct s; [|simpl in Hn; lia].
    destruct m; simpl; [reflexivity|]. rewrite Hnil. reflexivity.
  - destruct m as [|m].
    + destruct s; [|simpl in Hm; lia]. simpl. rewrite Hnil. reflexivity.
    + simpl. destruct (scan s) as [[w s1]|e] eqn:E; simpl; [|reflexivity].
      apply scan_shorter in E. pose proof (skip_ws_length s1) as Hw.
      destruct (Json.skip_ws s1) as [|c s2]; [reflexivity|]. simpl in Hw.
      destruct (N.eqb c _); [reflexivity|].
      destruct (N.eqb c _); [|reflexivity].
      pose proof (skip_ws_length s2). apply IH; lia.
Qed.

Lemma object_items_shorter : forall n s acc v rest,
  Json.object_items scan n s acc = Ret (v, rest) ->
  (length rest < length s)%nat.
Proof.
  induction n as [|n IH]; intros s acc v rest H; simpl in H; [discriminate|].
  destruct s as [|q s0]; [discriminate|].
  destruct (N.eqb q _); [|discriminate].
  destruct (Json.scanstring (length s0) s0 []) as [[key s1]|e] eqn:Ek;
    simpl in H; [|discriminate].
  apply scanstring_shorter in Ek. pose proof (skip_ws_length s1) as Hw1.
  destruct (Json.skip_ws s1) as [|c s2]; [discriminate|]. simpl in Hw1.
  destruct (N.eqb c _); [|discriminate].
  destruct (scan (Json.skip_ws s2)) as [[w s3]|e] eqn:E; simpl in H;
    [|discriminate].
  apply scan_shorter in E. pose proof (skip_ws_length s2) as Hw2.
  pose proof (skip_ws_length s3) as Hw3.
  destruct (Json.skip_ws s3) as [|d s4]; [discriminate|]. simpl in Hw3.
  destruct (N.eqb d _); [inversion H; subst; simpl; lia|].
  destruct (N.eqb d _); [|discriminate].
  apply IH in H. pose proof (skip_ws_length s4). simpl. lia.
Qed.

Lemma object_items_fuel : forall n m s acc,
  (length s <= n)%nat -> (length s <= m)%nat ->
  Json.object_items scan n s acc = Json.object_items scan m s acc.
Proof.
  induction n as [|n IH]; intros m s acc Hn Hm.
  - destruct s; [|simpl in Hn; lia]. destruct m; reflexivity.
  - destruct m as [|m].
    + destruct s; [reflexivity|simpl in Hm; lia].
    + simpl. destruct s as [|q s0]; [reflexivity|]. simpl in Hn, Hm.
      destruct (N.eqb q _); [|reflexivity].
      destruct (Json.scanstring (length s0) s0 []) as [[key s1]|e] eqn:Ek;
        simpl; [|reflexivity].
      apply scanstring_shorter in Ek. pose proof (skip_ws_length s1) as Hw1.
      destruct (Json.skip_ws s1) as [|c s2]; [reflexivity|]. simpl in Hw1.
      destruct (N.eqb c _); [|reflexivity].
      destruct (scan (Json.skip_ws s2)) as [[w s3]|e] eqn:E; simpl;
        [|reflexivity].
      apply scan_shorter in E. pose proof (skip_ws_length s2) as Hw2.
      pose proof (skip_ws_length s3) as Hw3.
      destruct (Json.skip_ws s3) as [|d s4]; [reflexivity|]. simpl in Hw3.
      destruct (N.eqb d _); [reflexivity|].
      destruct (N.eqb d _); [|reflexivity].
      pose proof (skip_ws_length s4). apply IH; lia.
Qed.

End Items.

(** A value takes at least one character. *)
Lemma scan_once_shorter : forall depth s v rest,
  Json.scan_once depth s = Ret (v, rest) -> (length rest < length s)%nat.
Proof.
  induction depth as [|d IH]; intros s v rest H;
    (destruct s as [|c s']; [discriminate|]); simpl in H.
  - destruct (N.eqb c _).
    + destruct (Json.scanstring (length s') s' []) as [[k r]|e] eqn:E;
        simpl in H; [|discriminate].
      apply scanstring_shorter in E. inversion H; subst. simpl. lia.
    + destruct (N.eqb c _); [discriminate|].
      destruct (N.eqb c _); [discriminate|].
      destruct (Json.constant (c :: s')) as [[w r]|] eqn:E.
      * apply constant_shorter in E. inversion H; subst. exact E.
      * apply match_number_shorter in H. exact H.
  - destruct (N.eqb c _).
    + destruct (Json.scanstring (length s') s' []) as [[k r]|e] eqn:E;
        simpl in H; [|discriminate].
      apply scanstring_shorter in E. inversion H; subst. simpl. lia.
    + pose proof (skip_ws_length s') as Hw.
      destruct (N.eqb c _).
      * destruct (Json.skip_ws s') as [|x s''] eqn:Es; [discriminate|].
        simpl in Hw.
        destruct (N.eqb x _); [inversion H; subst; simpl; lia|].
        apply (object_items_shorter _ IH) in H. simpl in *. lia.
      * destruct (N.eqb c _).
        -- destruct (Json.skip_ws s') as [|x s''] eqn:Es; [discriminate|].
           simpl in Hw.
           destruct (N.eqb x _); [inversion H; subst; simpl; lia|].
           apply (array_items_shorter _ IH) in H. simpl in *. lia.
        -- destruct (Json.constant (c :: s')) as [[w r]|] eqn:E.
           ++ apply constant_shorter in E. inversion H; subst. exact E.
           ++ apply match_number_shorter in H. exact H.
Qed.

(** The bounds that [scan_once] passes on are large enough: larger ones
    give the same arrays and objects. *)
Lemma scan_once_bounds : forall depth s n acc_a acc_o,
  (length s <= n)%nat ->
  Json.array_items (Json.scan_once depth) n s acc_a =
    Json.array_items (Json.scan_once depth) (length s) s acc_a /\
  Json.object_items (Json.scan_once depth) n s acc_o =
    Json.object_items (Json.scan_once depth) (length s) s acc_o.
Proof.
  intros depth s n acc_a acc_o Hn. split.
  - apply array_items_fuel; auto.
    + apply scan_once_shorter.
    + destruct depth; reflexivity.
  - apply object_items_fuel; auto. apply scan_once_shorter.
Qed.

End FuelFacts.

(* ================================================================== *)
(** * The definitions at work                                          *)
(* ================================================================== *)

Module Examples.

Import Py Re Spec.
Local Open Scope list_scope.

Example float_of_5 : py_float (lit "5") = Ret float_5.
Proof. run. Qed.

Example float_of_123_45 : py_float (lit "123.45") = Ret float_123_45.
Proof. run. Qed.

(** 8687021468732621 / 2^46 is within half a unit of the last place,
    2^-47, of 12345/100. *)
Example float_123_45_nearest :
  (Z.abs (8687021468732621 * 100 - 12345 * 2 ^ 46) * 2 <= 100)%Z.
Proof. vm_compute. discriminate. Qed.

Example float_of_two_points : py_float (lit "1.234.50") = Raise ValueError_float.
Proof. run. Qed.

Example split_blanks :
  Py.split (lit "  5 juli   2025 ") = [lit "5"; lit "juli"; lit "2025"].
Proof. run. Qed.

Example zfill_sign : zfill 2 (lit "-") = lit "-0".
Proof. run. Qed.

Example lower_kelvin : lower (lit "o" ++ [8490%N] ++ lit "tober") = lit "oktober".
Proof. run. Qed.

Example search_total :
  search ExtractUberData.total_pattern (lit "Resa. Totalt 123,45 kr") =
    Some (mk_match 6 22 [(3, (20, 22)); (2, (13, 19)); (1, (6, 12))])%nat.
Proof. run. Qed.

(** The lazy [.*?] stops at the first comma that a name follows. *)
Example search_lazy :
  search (nth 2 (ExtractUberData.name_patterns (lit "Agne")) Eps)
    (lit "reser, ja, Agne, Agne")
  = Some (mk_match 0 15 [])%nat.
Proof. run. Qed.

Example split_markers :
  Re.split ExtractUberData.value_marker
    (lit "a" ++ [10; 10]%N ++ lit "Value #12:" ++ [10; 10]%N ++ lit "b")
  = [lit "a"; lit "b"].
Proof. run. Qed.

Example loads_object :
  Json.loads 1000
    (lit "{" ++ [Json.quote] ++ lit "body" ++ [Json.quote] ++ lit ": [1, 2.5, null]}")
  = Ret (VDict [(lit "body",
                 VList [VInt 1;
                        VFloat (S754_finite false 5629499534213120 (-51));
                        VNone])]).
Proof. run. Qed.

Example loads_too_deep : Json.loads 2 (lit "[[[1]]]") = Raise RecursionError.
Proof. run. Qed.

(** Two fragments between markers, the second one cut short: only the
    first yields a receipt. *)
Example two_fragments :
  ExtractUberData.extract_uber_data ExtractUberData.family_members 1000
    (VStr (lit "Value #1:" ++ [10; 10]%N
           ++ lit "{" ++ [Json.quote] ++ lit "body" ++ [Json.quote]
           ++ lit ": " ++ [Json.quote]
           ++ lit "Totalt 123,45 kr 5 juli 2025 Tack f" ++ [o_uml]
           ++ lit "r att du reser, Fredrik" ++ [Json.quote] ++ lit "}"
           ++ [10; 10]%N ++ lit "Value #2:" ++ [10; 10]%N
           ++ lit "{" ++ [Json.quote] ++ lit "body" ++ [Json.quote]
           ++ lit ": " ++ [Json.quote] ++ lit "Totalt 10 kr"))
  = Ret ([Some (lit "2025-07-05")], [Some (lit "Fredrik")], [float_123_45],
         [lit "kr"]).
Proof. run. Qed.

(** A list of JSON strings is decoded item by item. *)
Example list_of_strings :
  ExtractUberData.extract_uber_data ExtractUberData.family_members 1000
    (VList [VStr (lit "{" ++ [Json.quote] ++ lit "body" ++ [Json.quote]
                  ++ lit ": " ++ [Json.quote] ++ lit "Avbokningsavgift 50 kr"
                  ++ [Json.quote] ++ lit "}");
            VStr (lit "no json"); VInt 3])
  = Ret ([None], [None], [float_50], [lit "kr"]).
Proof. run. Qed.

End Examples.

(* ================================================================== *)
(** * The rows of the output                                           *)
(* ================================================================== *)

Module RowFacts.

Import Py Re Spec Terms.
Import BatchFacts.
Local Open Scope list_scope.

Lemma somes_app : forall (A : Type) (a b : list (option A)),
  somes (a ++ b) = somes a ++ somes b.
Proof.
  induction a as [|[x|] a IH]; intros b; simpl; rewrite ?IH; reflexivity.
Qed.

Lemma columns_of_app : forall a b,
  columns_of (a ++ b) = chain (columns_of a) (columns_of b).
Proof.
  intros a b. unfold columns_of, chain. repeat rewrite map_app. reflexivity.
Qed.


Section Lenient.

Import ExtractUberData.

Variable family_order : list str.
Variable recursion_limit : nat.

Lemma row_of_accepted : forall email,
  accepted family_order recursion_limit email =
  match row_of family_order recursion_limit email with
  | Some _ => true
  | None => false
  end.
Proof.
  intros email. unfold accepted, row_of.
  destruct (extract_receipt_from_email family_order recursion_limit email)
    as [[[c|] [cur|] d p]|e]; reflexivity.
Qed.

Lemma row_of_receipt : forall email d p c cur,
  row_of family_order recursion_limit email = Some (d, p, c, cur) <->
  extract_receipt_from_email family_order recursion_limit email
    = Ret (mk_receipt (Some c) (Some cur) d p).
Proof.
  intros email d p c cur. unfold row_of.
  destruct (extract_receipt_from_email family_order recursion_limit email)
    as [[[c0|] [cur0|] d0 p0]|e]; simpl; split; intros H;
    try discriminate; congruence.
Qed.

(** The loop adds the rows of the records to what it is given. *)
Lemma fold_rows : forall emails out,
  let out' :=
    fold_left (process_email family_order recursion_limit) emails out in
  (dates out', passenger_names out', costs out', currencies out') =
  chain (dates out, passenger_names out, costs out, currencies out)
        (columns_of (rows family_order recursion_limit emails)).
Proof.
  induction emails as [|email emails IH]; intros out; simpl.
  - unfold chain, columns_of. simpl. repeat rewrite app_nil_r. reflexivity.
  - rewrite (IH (process_email family_order recursion_limit out email)).
    unfold rows. simpl. unfold process_email, row_of.
    destruct (extract_receipt_from_email family_order recursion_limit email)
      as [[[c|] [cur|] d p]|e]; simpl; try reflexivity.
    unfold chain, columns_of. simpl.
    repeat rewrite <- app_assoc. reflexivity.
Qed.

(** What [extract_uber_data] returns for a list of records. *)
Lemma extract_uber_data_rows : forall emails,
  extract_uber_data family_order recursion_limit (VList emails) =
  match rows family_order recursion_limit emails with
  | [] => Raise ValueError_NoValidReceipts
  | rs => Ret (columns_of rs)
  end.
Proof.
  intros emails. unfold extract_uber_data. cbn [bind py_iter].
  pose proof (fold_rows emails no_columns) as H. cbv zeta in H.
  set (out := fold_left (process_email family_order recursion_limit) emails
                no_columns) in *.
  unfold chain, columns_of in H. simpl in H. injection H as H1 H2 H3 H4.
  unfold validate. rewrite H1, H2, H3, H4. repeat rewrite length_map.
  rewrite nodup_four.
  destruct (rows family_order recursion_limit emails) as [|r rs];
    reflexivity.
Qed.

(** The rows are those of the accepted records, one for each. *)
Lemma rows_accepted : forall emails,
  Forall2
    (fun email r =>
       extract_receipt_from_email family_order recursion_limit email
         = Ret (mk_receipt (Some (snd (fst r))) (Some (snd r))
                  (fst (fst (fst r))) (snd (fst (fst r)))))
    (filter (accepted family_order recursion_limit) emails)
    (rows family_order recursion_limit emails).
Proof.
  induction emails as [|email emails IH]; simpl; [constructor|].
  unfold rows. simpl. rewrite row_of_accepted.
  destruct (row_of family_order recursion_limit email)
    as [[[[d p] c] cur]|] eqn:E; simpl; [|exact IH].
  constructor; [|exact IH]. simpl. apply row_of_receipt. exact E.
Qed.

(** What [extract_uber_data] returns for any argument. *)
Lemma extract_uber_data_ret : forall input out,
  extract_uber_data family_order recursion_limit input = Ret out ->
  exists items,
    input_records family_order recursion_limit input = Ret items /\
    rows family_order recursion_limit items <> [] /\
    out = columns_of (rows family_order recursion_limit items).
Proof.
  intros input out H.
  destruct (input_records family_order recursion_limit input)
    as [items|e] eqn:E.
  - exists items. split; [reflexivity|].
    assert (Hl : extract_uber_data family_order recursion_limit input =
                 extract_uber_data family_order recursion_limit
                   (VList items)).
    { rewrite (Lenient.extract_uber_data_records _ _ _ _ E).
      unfold extract_uber_data. reflexivity. }
    rewrite Hl, extract_uber_data_rows in H.
    destruct (rows family_order recursion_limit items) as [|r rs];
      [discriminate|].
    split; [discriminate|]. congruence.
  - exfalso. unfold extract_uber_data, input_records in *.
    destruct (match input with
              | VStr s => parse_emails recursion_limit s
              | _ => Ret input
              end) as [v|e']; simpl in *; [|discriminate].
    rewrite E in H. discriminate.
Qed.

End Lenient.

Section Strict.

Import ProcessUberReceipts.

Lemma strict_row_of_accepted : forall email,
  accepted_strict email =
  match strict_row_of email with Some _ => true | None => false end.
Proof.
  intros email. unfold accepted_strict, strict_row_of.
  destruct (extract_single_receipt email) as [[[c|] [cur|] d p]|e];
    reflexivity.
Qed.

Lemma strict_row_of_receipt : forall email d p c cur,
  strict_row_of email = Some (d, p, c, cur) <->
  extract_single_receipt email = Ret (mk_receipt (Some c) (Some cur) d p).
Proof.
  intros email d p c cur. unfold strict_row_of.
  destruct (extract_single_receipt email) as [[[c0|] [cur0|] d0 p0]|e];
    simpl; split; intros H; try discriminate; congruence.
Qed.

Lemma strict_fold_rows : forall emails out,
  let out' := fold_left process_email emails out in
  (dates out', passenger_names out', costs out', currencies out') =
  chain (dates out, passenger_names out, costs out, currencies out)
        (columns_of (strict_rows emails)).
Proof.
  induction emails as [|email emails IH]; intros out; simpl.
  - unfold chain, columns_of. simpl. repeat rewrite app_nil_r. reflexivity.
  - rewrite (IH (process_email out email)).
    unfold strict_rows. simpl. unfold process_email, strict_row_of.
    destruct (extract_single_receipt email) as [[[c|] [cur|] d p]|e]; simpl;
      try reflexivity.
    unfold chain, columns_of. simpl.
    repeat rewrite <- app_assoc. reflexivity.
Qed.

(** What [function] returns for a list of records. *)
Lemma function_rows : forall emails,
  function (VList emails) = Ret (columns_of (strict_rows emails)).
Proof.
  intros emails.
  destruct (Strict.function_fold emails) as (_ & _ & _ & _ & H).
  rewrite H. f_equal.
  pose proof (strict_fold_rows emails no_columns) as H'. cbv zeta in H'.
  rewrite H'. reflexivity.
Qed.

Lemma strict_rows_accepted : forall emails,
  Forall2
    (fun email r =>
       extract_single_receipt email
         = Ret (mk_receipt (Some (snd (fst r))) (Some (snd r))
                  (fst (fst (fst r))) (snd (fst (fst r)))))
    (filter accepted_strict emails) (strict_rows emails).
Proof.
  induction emails as [|email emails IH]; simpl; [constructor|].
  unfold strict_rows. simpl. rewrite strict_row_of_accepted.
  destruct (strict_row_of email) as [[[[d p] c] cur]|] eqn:E; simpl;
    [|exact IH].
  constructor; [|exact IH]. simpl. apply strict_row_of_receipt. exact E.
Qed.

(** What [function] returns for any argument. *)
Lemma function_cases : forall input,
  match py_iter input with
  | Ret items => function input = Ret (columns_of (strict_rows items))
  | Raise e => function input = Raise e
  end.
Proof.
  intros input. destruct (py_iter input) as [items|e] eqn:E.
  - rewrite <- function_rows. unfold function. rewrite E. reflexivity.
  - unfold function. rewrite E. reflexivity.
Qed.

Lemma function_ret : forall input out,
  function input = Ret out ->
  exists items,
    py_iter input = Ret items /\ out = columns_of (strict_rows items).
Proof.
  intros input out H. pose proof (function_cases input) as Hc.
  destruct (py_iter input) as [items|e]; [|congruence].
  exists items. split; [reflexivity|]. congruence.
Qed.

End Strict.

End RowFacts.

(* ================================================================== *)
(** * The shape of the extracted fields                                *)
(* ================================================================== *)

Module FloatFacts.

Import Py Spec Terms.
Local Open Scope Z_scope.

Section Rounding.

Variables prec emax : Z.

Lemma iter_pos_invariant : forall (A : Type) (f : A -> A) (P : A -> Prop),
  (forall x, P x -> P (f x)) ->
  forall p x, P x -> P (iter_pos f p x).
Proof.
  intros A f P Hf. induction p as [p IH|p IH|]; intros x Hx; simpl.
  - apply IH, IH, Hf, Hx.
  - apply IH, IH, Hx.
  - apply Hf, Hx.
Qed.

Lemma shr_1_nonneg : forall mrs, 0 <= shr_m mrs -> 0 <= shr_m (shr_1 mrs).
Proof.
  intros [m r s] H. simpl in *.
  destruct m as [|[p|p|]|p]; simpl; lia.
Qed.

Lemma shr_fexp_nonneg : forall m e l,
  0 <= m -> 0 <= shr_m (fst (shr_fexp prec emax m e l)).
Proof.
  intros m e l H. unfold shr_fexp, shr.
  assert (H0 : 0 <= shr_m (shr_record_of_loc m l)).
  { destruct l as [|[]]; exact H. }
  destruct (fexp prec emax (Zdigits2 m + e) - e) as [|p|p]; simpl;
    try exact H0.
  apply (iter_pos_invariant _ shr_1 (fun x => 0 <= shr_m x));
    [apply shr_1_nonneg|exact H0].
Qed.

Lemma round_nearest_even_nonneg : forall m l,
  0 <= m -> 0 <= round_nearest_even m l.
Proof.
  intros m l H. unfold round_nearest_even.
  destruct l as [|[]]; try lia. destruct (Z.even m); lia.
Qed.

(** Rounding a mantissa that is not negative keeps the sign it is given
    and yields no NaN. *)
Lemma binary_round_aux_sign : forall m e l,
  0 <= m -> not_negative (binary_round_aux prec emax false m e l) = true.
Proof.
  intros m e l H. unfold binary_round_aux.
  pose proof (shr_fexp_nonneg m e l H) as H1.
  destruct (shr_fexp prec emax m e l) as [mrs' e'] eqn:E1. simpl in H1.
  pose proof (shr_fexp_nonneg
                (round_nearest_even (shr_m mrs') (loc_of_shr_record mrs'))
                e' loc_Exact
                (round_nearest_even_nonneg _ _ H1)) as H2.
  destruct (shr_fexp prec emax
              (round_nearest_even (shr_m mrs') (loc_of_shr_record mrs'))
              e' loc_Exact) as [mrs'' e''] eqn:E2. simpl in H2.
  destruct (shr_m mrs'') as [|p|p]; [reflexivity| |lia].
  destruct (e'' <=? emax - prec); reflexivity.
Qed.

Lemma binary_round_sign : forall m e,
  not_negative (binary_round prec emax false m e) = true.
Proof.
  intros m e. unfold binary_round.
  destruct (shl_align m e (fexp prec emax (Z.pos (digits2_pos m) + e)))
    as [mz ez].
  apply binary_round_aux_sign. lia.
Qed.

Lemma SFdiv_sign : forall m1 e1 m2 e2,
  not_negative (SFdiv prec emax (S754_finite false m1 e1)
                  (S754_finite false m2 e2)) = true.
Proof.
  intros m1 e1 m2 e2. unfold SFdiv, SFdiv_core_binary.
  set (s := e1 - e2 -
            Z.min (fexp prec emax (Zdigits2 (Z.pos m1) + e1
                                   - (Zdigits2 (Z.pos m2) + e2)))
                  (e1 - e2)).
  set (m' := match s with
             | 0 => Z.pos m1
             | Z.pos _ => Z.shiftl (Z.pos m1) s
             | Z.neg _ => 0
             end).
  assert (Hm : 0 <= m').
  { unfold m'. destruct s as [|p|p]; try lia.
    apply Z.shiftl_nonneg. lia. }
  pose proof (Z_div_mod m' (Z.pos m2) ltac:(lia)) as Hd.
  destruct (Z.div_eucl m' (Z.pos m2)) as [q r].
  simpl. apply binary_round_aux_sign.
  destruct Hd as [Hd Hr]. nia.
Qed.

End Rounding.

Lemma float_of_decimal_sign : forall m e,
  not_negative (float_of_decimal false m e) = true.
Proof.
  intros m e. unfold float_of_decimal.
  destruct m as [|p]; [reflexivity|].
  destruct e as [|k|k].
  - apply binary_round_sign.
  - apply binary_round_sign.
  - apply SFdiv_sign.
Qed.

(** What [float] returns for the text of an amount is neither negative nor
    a NaN. *)
Lemma py_float_sign : forall s c,
  py_float s = Ret c -> not_negative c = true.
Proof.
  intros s c H. unfold py_float in H.
  destruct (read_digits 0 0 s) as [[ip ni] s1].
  destruct s1 as [|x s2].
  - destruct ni; [discriminate|]. injection H as <-.
    apply float_of_decimal_sign.
  - destruct (N.eqb x (ch ".")); [|discriminate].
    destruct (read_digits ip 0 s2) as [[m nf] s3].
    destruct s3; [|discriminate].
    destruct (ni + nf)%nat; [discriminate|]. injection H as <-.
    apply float_of_decimal_sign.
Qed.

End FloatFacts.

Module ShapeFacts.

Import Py Re Spec Terms.
Import ListFacts StrFacts ReFacts DateFacts AmountFacts ExtractFacts
  PassengerFacts FloatFacts.
Local Open Scope list_scope.

(** ** Inversion of the language of a pattern *)

Lemma lang_seq_inv : forall r1 r2 a,
  lang (Seq r1 r2) a ->
  exists a1 a2, a = a1 ++ a2 /\ lang r1 a1 /\ lang r2 a2.
Proof.
  intros r1 r2 a H. inversion H; subst. eauto.
Qed.

Lemma lang_alt_inv : forall r1 r2 a,
  lang (Alt r1 r2) a -> lang r1 a \/ lang r2 a.
Proof.
  intros r1 r2 a H. inversion H; subst; auto.
Qed.

Lemma lang_cls_inv : forall items a,
  lang (Cls items) a ->
  exists y, a = [y] /\ existsb (item_mem y) items = true.
Proof.
  intros items a H. inversion H; subst. eauto.
Qed.

Lemma lang_eps_inv : forall a, lang Eps a -> a = [].
Proof.
  intros a H. inversion H. reflexivity.
Qed.

Lemma lang_chr_inv : forall c a, lang (Chr c) a -> a = [c].
Proof.
  intros c a H. inversion H. reflexivity.
Qed.

Lemma lang_group_inv : forall n r a, lang (Group n r) a -> lang r a.
Proof.
  intros n r a H. inversion H. assumption.
Qed.

(** The texts of a literal. *)
Lemma lang_str_inv : forall w a, lang (Str w) a -> a = w.
Proof.
  induction w as [|c w IH]; intros a H.
  - apply lang_eps_inv. exact H.
  - destruct w as [|c' w'].
    + apply lang_chr_inv. exact H.
    + change (Str (c :: c' :: w')) with (Seq (Chr c) (Str (c' :: w'))) in H.
      apply lang_seq_inv in H. destruct H as (a1 & a2 & -> & H1 & H2).
      apply lang_chr_inv in H1. apply IH in H2. subst. reflexivity.
Qed.

Lemma lang_str : forall w, lang (Str w) w.
Proof.
  induction w as [|c w IH]; [constructor|].
  destruct w as [|c' w']; [constructor|].
  change (Str (c :: c' :: w')) with (Seq (Chr c) (Str (c' :: w'))).
  change (c :: c' :: w') with ([c] ++ c' :: w').
  constructor; [constructor|exact IH].
Qed.

(** ** Classes of characters *)

Lemma space_class : forall a,
  Forall (fun y => existsb (item_mem y) [Space] = true) a -> spaces a.
Proof.
  intros a H. eapply Forall_impl; [|exact H].
  intros y Hy. simpl in Hy. rewrite orb_false_r in Hy. exact Hy.
Qed.

Lemma isspace_cases : forall c,
  isspace c = true ->
  In c [9; 10; 11; 12; 13; 28; 29; 30; 31; 32; 133; 160; 5760;
        8192; 8193; 8194; 8195; 8196; 8197; 8198; 8199; 8200; 8201; 8202;
        8232; 8233; 8239; 8287; 12288]%N.
Proof.
  intros c H. unfold isspace in H.
  repeat rewrite orb_true_iff in H. repeat rewrite andb_true_iff in H.
  repeat rewrite N.eqb_eq in H. repeat rewrite N.leb_le in H.
  simpl.
  assert (Hc : (c = 9 \/ c = 10 \/ c = 11 \/ c = 12 \/ c = 13 \/ c = 28 \/
                c = 29 \/ c = 30 \/ c = 31 \/ c = 32 \/ c = 133 \/ c = 160 \/
                c = 5760 \/ c = 8192 \/ c = 8193 \/ c = 8194 \/ c = 8195 \/
                c = 8196 \/ c = 8197 \/ c = 8198 \/ c = 8199 \/ c = 8200 \/
                c = 8201 \/ c = 8202 \/ c = 8232 \/ c = 8233 \/ c = 8239 \/
                c = 8287 \/ c = 12288)%N) by lia.
  repeat (destruct Hc as [Hc|Hc]; [subst; auto 40|]). subst; auto 40.
Qed.

(** No decimal digit is a blank. *)
Lemma isdecimal_not_space : forall c,
  isdecimal c = true -> isspace c = false.
Proof.
  intros c H. destruct (isspace c) eqn:E; [|reflexivity].
  apply isspace_cases in E. simpl in E.
  repeat (destruct E as [E|E]; [subst; discriminate H|]). destruct E.
Qed.

(** No decimal digit is a sign. *)
Lemma isdecimal_not_sign : forall c,
  isdecimal c = true -> N.eqb c (ch "+") || N.eqb c (ch "-") = false.
Proof.
  intros c H.
  destruct (N.eqb c (ch "+")) eqn:E1; [apply N.eqb_eq in E1; subst;
                                         discriminate H|].
  destruct (N.eqb c (ch "-")) eqn:E2; [apply N.eqb_eq in E2; subst;
                                         discriminate H|].
  reflexivity.
Qed.

Lemma ascii_digit_decimal : forall c,
  ascii_digit_char c = true -> isdecimal c = true.
Proof.
  intros c H. unfold ascii_digit_char in H.
  rewrite andb_true_iff in H. repeat rewrite N.leb_le in H.
  assert (Hc : (c = 48 \/ c = 49 \/ c = 50 \/ c = 51 \/ c = 52 \/ c = 53 \/
                c = 54 \/ c = 55 \/ c = 56 \/ c = 57)%N) by lia.
  repeat (destruct Hc as [Hc|Hc]; [subst; reflexivity|]).
  subst; reflexivity.
Qed.

Lemma currency_item : forall y,
  existsb (item_mem y)
    [Range (ch "A") (ch "Z"); Range (ch "a") (ch "z"); One (ch "$");
     One euro; One pound]
  = currency_char y.
Proof.
  intros y. unfold currency_char, ascii_letter. cbn [existsb item_mem].
  change (ch "A") with 65%N. change (ch "Z") with 90%N.
  change (ch "a") with 97%N. change (ch "z") with 122%N.
  change (ch "$") with 36%N. change euro with 8364%N.
  change pound with 163%N.
  rewrite orb_false_r. repeat rewrite orb_assoc. reflexivity.
Qed.

Lemma name_item : forall y,
  existsb (item_mem y)
    [Range (ch "A") (ch "Z"); Range (ch "a") (ch "z");
     One a_ring; One a_uml; One o_uml; One A_ring; One A_uml; One O_uml]
  = name_char y.
Proof.
  intros y. unfold name_char, ascii_letter. cbn [existsb item_mem].
  change (ch "A") with 65%N. change (ch "Z") with 90%N.
  change (ch "a") with 97%N. change (ch "z") with 122%N.
  change a_ring with 229%N. change a_uml with 228%N.
  change o_uml with 246%N. change A_ring with 197%N.
  change A_uml with 196%N. change O_uml with 214%N.
  rewrite orb_false_r. repeat rewrite orb_assoc. reflexivity.
Qed.

Lemma word_of_class : forall items ok a,
  (forall y, existsb (item_mem y) items = ok y) ->
  lang (Plus (Cls items)) a -> word_of ok a = true.
Proof.
  intros items ok a Hok H. apply lang_plus_cls in H. destruct H as [Hne H].
  unfold word_of. apply andb_true_iff. split.
  - destruct a; [congruence|reflexivity].
  - apply forallb_forall. rewrite Forall_forall in H.
    intros y Hy. rewrite <- Hok. apply H. exact Hy.
Qed.

Lemma word_of_not_empty : forall ok a, word_of ok a = true -> a <> [].
Proof.
  intros ok a H Ha. subst. discriminate H.
Qed.

(** ** Cost and currency *)

Lemma extract_total_shape : forall body c cur,
  ExtractUberData.extract_total body = Ret (c, cur) ->
  (c = None /\ cur = None) \/
  (exists x u, c = Some x /\ cur = Some u /\
     not_negative x = true /\ word_of currency_char u = true).
Proof.
  intros body c cur H. unfold ExtractUberData.extract_total in H.
  destruct (search ExtractUberData.total_pattern body) as [m|] eqn:E.
  - destruct (group_str_bound _ _ _ 2%nat E eq_refl)
      as (g & r1 & Hg & _ & _ & _).
    rewrite Hg in H. cbn [bind] in H.
    destruct (py_float (replace (ch ",") (ch ".") g)) as [x|e] eqn:Ef;
      [|discriminate].
    cbn [bind] in H. injection H as <- <-.
    destruct (group_bound _ _ _ 3%nat E eq_refl) as (u & r3 & Hu & Hin & Hl).
    simpl in Hin. destruct Hin as [<-|[]].
    right. exists x, u. repeat split; auto.
    + eapply py_float_sign. exact Ef.
    + eapply word_of_class; [apply currency_item|exact Hl].
  - destruct (search ExtractUberData.total_pattern2 body) as [m|] eqn:E2.
    + destruct (group_str_bound _ _ _ 1%nat E2 eq_refl)
        as (g & r1 & Hg & _ & _ & _).
      rewrite Hg in H. cbn [bind] in H.
      destruct (py_float (replace (ch ",") (ch ".") g)) as [x|e] eqn:Ef;
        [|discriminate].
      cbn [bind] in H. injection H as <- <-.
      destruct (group_bound _ _ _ 2%nat E2 eq_refl)
        as (u & r3 & Hu & Hin & Hl).
      simpl in Hin. destruct Hin as [<-|[]].
      right. exists x, u. repeat split; auto.
      * eapply py_float_sign. exact Ef.
      * eapply word_of_class; [apply currency_item|exact Hl].
    + injection H as <- <-. left. auto.
Qed.

Lemma strict_extract_total_shape : forall body c cur,
  ProcessUberReceipts.extract_total body = Ret (c, cur) ->
  (c = None /\ cur = None) \/
  (exists x u, c = Some x /\ cur = Some u /\
     not_negative x = true /\ word_of currency_char u = true).
Proof.
  intros body c cur H. unfold ProcessUberReceipts.extract_total in H.
  destruct (search ProcessUberReceipts.total_pattern body) as [m|] eqn:E.
  - destruct (group_bound _ _ _ 1%nat E eq_refl) as (g & r1 & Hg & _ & _).
    unfold ProcessUberReceipts.group_str in H.
    rewrite Hg in H. cbn [bind] in H.
    destruct (py_float (replace (ch ",") (ch ".") g)) as [x|e] eqn:Ef;
      [|discriminate].
    cbn [bind] in H. injection H as <- <-.
    destruct (group_bound _ _ _ 2%nat E eq_refl) as (u & r3 & Hu & Hin & Hl).
    simpl in Hin. destruct Hin as [<-|[]].
    right. exists x, u. repeat split; auto.
    + eapply py_float_sign. exact Ef.
    + eapply word_of_class; [apply currency_item|exact Hl].
  - injection H as <- <-. left. auto.
Qed.

(** ** The passenger *)

Lemma by_known_name_in : forall body names p,
  Forall (fun n => n <> []) names ->
  ExtractUberData.by_known_name body names None = Some p -> In p names.
Proof.
  induction names as [|name names IH]; intros p Hn H; simpl in H;
    [discriminate|].
  inversion Hn as [|n ns Hname Hnames]; subst.
  destruct (ExtractUberData.name_found body name).
  - destruct name as [|c name]; [congruence|].
    simpl in H. injection H as <-. left. reflexivity.
  - simpl in H. right. apply IH; assumption.
Qed.

Lemma canonical_in : forall candidate members passenger,
  ExtractUberData.canonical candidate members passenger = passenger \/
  exists member,
    In member members /\
    ExtractUberData.canonical candidate members passenger = Some member.
Proof.
  induction members as [|member members IH]; intros passenger; simpl;
    [left; reflexivity|].
  destruct (str_eqb (lower candidate) (lower member)).
  - right. exists member. auto.
  - destruct (IH passenger) as [H|(m & Hm & H)]; [left; exact H|].
    right. exists m. auto.
Qed.

Lemma extract_passenger_shape : forall family_order body p,
  Forall (fun n => word_of name_char n = true) family_order ->
  ExtractUberData.extract_passenger family_order body = Ret (Some p) ->
  word_of name_char p = true.
Proof.
  intros family_order body p Hf H.
  assert (Hne : Forall (fun n : str => n <> []) family_order).
  { eapply Forall_impl; [|exact Hf]. intros n Hn.
    eapply word_of_not_empty. exact Hn. }
  rewrite Forall_forall in Hf.
  unfold ExtractUberData.extract_passenger in H.
  destruct (search ExtractUberData.passenger_pattern body) as [m|] eqn:E.
  - destruct (group_str_bound _ _ _ 2%nat E eq_refl)
      as (g & r1 & Hg & _ & Hin & Hl).
    rewrite Hg in H. cbn [bind] in H. injection H as <-.
    simpl in Hin. destruct Hin as [<-|[]].
    rewrite (name_class_no_space _ Hl).
    eapply word_of_class; [apply name_item|exact Hl].
  - destruct (ExtractUberData.by_known_name body family_order None)
      as [q|] eqn:Ek.
    + pose proof (by_known_name_in _ _ _ Hne Ek) as Hq.
      assert (Ht : truthy (Some q) = true).
      { specialize (Hf q Hq). destruct q; [discriminate Hf|reflexivity]. }
      rewrite Ht in H. simpl in H. injection H as <-. apply Hf. exact Hq.
    + cbn [truthy negb] in H.
      destruct (first_match body ExtractUberData.general_patterns)
        as [m|] eqn:Em.
      * rewrite (by_general_pattern_first _ _ _ _ _ Em) in H.
        destruct (general_capture _ _ Em) as (g & Hg & Hg' & Hs).
        rewrite Hg' in H. cbn [bind] in H. cbv zeta in H. rewrite Hs in H.
        assert (Hw : word_of name_char g = true).
        { destruct (first_match_In _ _ _ Em) as (pat & Hp & Hsr).
          assert (Hb : binds 1 pat = true /\
                       subgroups 1 pat
                       = [Plus ExtractUberData.name_class]).
          { unfold ExtractUberData.general_patterns in Hp. simpl in Hp.
            destruct Hp as [<-|[<-|[<-|[]]]]; split; reflexivity. }
          destruct Hb as [Hb Hsub].
          destruct (group_bound _ _ _ 1%nat Hsr Hb)
            as (g2 & r1 & Hg2 & Hin & Hl).
          rewrite Hsub in Hin. destruct Hin as [<-|[]].
          assert (g2 = g) by congruence. subst g2.
          eapply word_of_class; [apply name_item|exact Hl]. }
        destruct (canonical_in g family_order None) as [Hc|(mem & Hm & Hc)];
          rewrite Hc in H.
        -- simpl in H. injection H as <-. exact Hw.
        -- destruct (truthy (Some mem)); injection H as <-; auto.
      * exfalso.
        assert (Hnone : forall patterns,
                   first_match body patterns = None ->
                   ExtractUberData.by_general_pattern family_order body
                     patterns None = Ret None).
        { induction patterns as [|pat patterns IH]; intros Hfm;
            [reflexivity|].
          simpl in *. destruct (search pat body); [discriminate|].
          apply IH. exact Hfm. }
        rewrite (Hnone _ Em) in H. discriminate.
Qed.

Lemma strict_passenger_shape : forall body (m : rmatch),
  search ProcessUberReceipts.passenger_pattern body = Some m ->
  exists g, group body m 1 = Some g /\ strip g = g /\
            word_of name_char g = true.
Proof.
  intros body m E.
  destruct (group_bound _ _ _ 1%nat E eq_refl) as (g & r1 & Hg & Hin & Hl).
  simpl in Hin. destruct Hin as [<-|[]].
  exists g. split; [exact Hg|]. split.
  - apply name_class_no_space. exact Hl.
  - eapply word_of_class; [apply name_item|exact Hl].
Qed.

(** ** The date *)

Lemma split_aux_word : forall t rest cur,
  Forall (fun c => isspace c = false) t ->
  Py.split_aux cur (t ++ rest) = Py.split_aux (rev t ++ cur) rest.
Proof.
  induction t as [|c t IH]; intros rest cur H; [reflexivity|].
  inversion H as [|c' t' Hc Ht]; subst. simpl. rewrite Hc.
  rewrite IH by exact Ht. simpl. rewrite <- app_assoc. reflexivity.
Qed.

Lemma split_aux_gap : forall ws rest cur,
  spaces ws -> ws <> [] -> cur <> [] ->
  Py.split_aux cur (ws ++ rest) = rev cur :: Py.split_aux [] rest.
Proof.
  intros ws rest cur Hws Hne Hcur.
  destruct ws as [|c ws]; [congruence|].
  inversion Hws as [|c' ws' Hc Hws']; subst. simpl. rewrite Hc.
  destruct cur as [|x cur]; [congruence|].
  f_equal. apply split_aux_spaces_app. exact Hws'.
Qed.

(** Three words with blanks between them are the three parts of the
    text. *)
Lemma split_three : forall d ws1 w ws2 y,
  Forall (fun c => isspace c = false) d -> d <> [] ->
  spaces ws1 -> ws1 <> [] ->
  Forall (fun c => isspace c = false) w -> w <> [] ->
  spaces ws2 -> ws2 <> [] ->
  Forall (fun c => isspace c = false) y -> y <> [] ->
  Py.split (d ++ ws1 ++ w ++ ws2 ++ y) = [d; w; y].
Proof.
  intros d ws1 w ws2 y Hd Hd' H1 H1' Hw Hw' H2 H2' Hy Hy'.
  assert (Hrev : forall t : str, t <> [] -> rev t ++ [] <> []).
  { intros t Ht E. rewrite app_nil_r in E.
    apply (f_equal (@rev char)) in E. rewrite rev_involutive in E.
    simpl in E. congruence. }
  unfold Py.split.
  rewrite split_aux_word by exact Hd.
  rewrite split_aux_gap by auto.
  rewrite app_nil_r, rev_involutive. f_equal.
  rewrite split_aux_word by exact Hw.
  rewrite split_aux_gap by auto.
  rewrite app_nil_r, rev_involutive. f_equal.
  rewrite <- (app_nil_r y) at 1.
  rewrite split_aux_word by exact Hy.
  rewrite app_nil_r. simpl.
  destruct (rev y) as [|c t] eqn:E.
  - apply (f_equal (@rev char)) in E. rewrite rev_involutive in E.
    simpl in E. congruence.
  - rewrite <- E, rev_involutive. reflexivity.
Qed.

Lemma name_char_not_space : forall c,
  name_char c = true -> isspace c = false.
Proof.
  intros c H. destruct (isspace c) eqn:E; [|reflexivity].
  apply isspace_cases in E. simpl in E.
  repeat (destruct E as [E|E]; [subst; discriminate H|]). destruct E.
Qed.

Lemma month_item : forall y,
  existsb (item_mem y)
    [Range (ch "a") (ch "z"); Range (ch "A") (ch "Z");
     One a_ring; One a_uml; One o_uml; One A_ring; One A_uml; One O_uml]
  = name_char y.
Proof.
  intros y. unfold name_char, ascii_letter. cbn [existsb item_mem].
  change (ch "A") with 65%N. change (ch "Z") with 90%N.
  change (ch "a") with 97%N. change (ch "z") with 122%N.
  change a_ring with 229%N. change a_uml with 228%N.
  change o_uml with 246%N. change A_ring with 197%N.
  change A_uml with 196%N. change O_uml with 214%N.
  rewrite orb_false_r. repeat rewrite orb_assoc.
  rewrite (orb_comm (N.leb 65 y && N.leb y 90)). reflexivity.
Qed.

(** The values of the month table. *)
Lemma month_lookup_values : forall key mm,
  ExtractUberData.month_lookup ExtractUberData.swedish_months key = Some mm ->
  month_number mm = true /\ exists m1 m2, mm = [m1; m2].
Proof.
  intros key mm H. unfold ExtractUberData.swedish_months in H.
  cbn [ExtractUberData.month_lookup] in H.
  repeat match type of H with
         | (if ?b then _ else _) = _ =>
             destruct b;
             [injection H as <-; split; [reflexivity|eexists; eexists;
                                                      reflexivity]|]
         end.
  discriminate.
Qed.

Section DateToken.

(** The digits of the token: the members of a class. *)
Variable dig : list item.
Variable is_digit : char -> bool.

Hypothesis dig_mem : forall y, existsb (item_mem y) dig = is_digit y.
Hypothesis digit_not_space : forall c, is_digit c = true -> isspace c = false.
Hypothesis digit_not_sign : forall c,
  is_digit c = true -> N.eqb c (ch "+") || N.eqb c (ch "-") = false.
Hypothesis zero_digit : is_digit (ch "0") = true.

Lemma lang_dig : forall a,
  lang (Cls dig) a -> exists y, a = [y] /\ is_digit y = true.
Proof.
  intros a H. apply lang_cls_inv in H. destruct H as (y & -> & Hy).
  rewrite dig_mem in Hy. eauto.
Qed.

(** A text of the date token converts to a text of the shape of a date,
    or to nothing. *)
Lemma token_date : forall g r,
  lang ((Cls dig +++ Opt (Cls dig)) +++ Plus space
        +++ Plus ExtractUberData.month_class +++ Plus space
        +++ (Cls dig +++ Cls dig +++ Cls dig +++ Cls dig)) g ->
  ExtractUberData.convert_swedish_date_to_iso (strip g) = Ret r ->
  absent_or (dated is_digit) r = true.
Proof.
  intros g r H Hc.
  apply lang_seq_inv in H. destruct H as (d & g1 & -> & Hd & H).
  apply lang_seq_inv in H. destruct H as (ws1 & g2 & -> & Hws1 & H).
  apply lang_seq_inv in H. destruct H as (w & g3 & -> & Hw & H).
  apply lang_seq_inv in H. destruct H as (ws2 & y & -> & Hws2 & Hy).
  (* the day *)
  apply lang_seq_inv in Hd. destruct Hd as (d1 & d2 & -> & Hd1 & Hd2).
  apply lang_dig in Hd1. destruct Hd1 as (x1 & -> & Hx1).
  assert (Hd2' : d2 = [] \/ exists x2, d2 = [x2] /\ is_digit x2 = true).
  { apply lang_alt_inv in Hd2. destruct Hd2 as [Hd2|Hd2].
    - right. apply lang_dig. exact Hd2.
    - left. apply lang_eps_inv. exact Hd2. }
  (* the year *)
  apply lang_seq_inv in Hy. destruct Hy as (a1 & y' & -> & Ha1 & Hy).
  apply lang_seq_inv in Hy. destruct Hy as (a2 & y'' & -> & Ha2 & Hy).
  apply lang_seq_inv in Hy. destruct Hy as (a3 & a4 & -> & Ha3 & Ha4).
  apply lang_dig in Ha1, Ha2, Ha3, Ha4.
  destruct Ha1 as (y1 & -> & Hy1). destruct Ha2 as (y2 & -> & Hy2).
  destruct Ha3 as (y3 & -> & Hy3). destruct Ha4 as (y4 & -> & Hy4).
  (* the blanks and the month *)
  apply lang_plus_cls in Hws1, Hws2, Hw.
  destruct Hws1 as [Hn1 Hs1]. destruct Hws2 as [Hn2 Hs2].
  destruct Hw as [Hnw Hw].
  apply space_class in Hs1, Hs2.
  assert (Hw' : Forall (fun c => isspace c = false) w).
  { eapply Forall_impl; [|exact Hw]. intros c Hc'.
    apply name_char_not_space. rewrite <- month_item. exact Hc'. }
  assert (Hsplit : Py.split (([x1] ++ d2) ++ ws1 ++ w ++ ws2
                             ++ [y1] ++ [y2] ++ [y3] ++ [y4])
                   = [[x1] ++ d2; w; [y1; y2; y3; y4]]).
  { apply split_three; auto; try discriminate.
    - constructor; [apply digit_not_space; exact Hx1|].
      destruct Hd2' as [->|(x2 & -> & Hx2)]; [constructor|].
      constructor; [apply digit_not_space; exact Hx2|constructor].
    - repeat constructor; apply digit_not_space; assumption. }
  rewrite convert_cases, split_strip, Hsplit in Hc.
  destruct (ExtractUberData.month_lookup ExtractUberData.swedish_months
              (lower w)) as [mm|] eqn:Em.
  - destruct (month_lookup_values _ _ Em) as (Hmm & m1 & m2 & ->).
    injection Hc as <-.
    destruct Hd2' as [->|(x2 & -> & Hx2)].
    + unfold zfill. cbn [app length Nat.sub repeat].
      rewrite (digit_not_sign _ Hx1).
      cbn [absent_or dated forallb app lit ch].
      rewrite Hy1, Hy2, Hy3, Hy4, Hx1.
      change (chr "0") with (ch "0"). rewrite zero_digit.
      simpl. exact Hmm.
    + unfold zfill. cbn [app length Nat.sub repeat].
      cbn [absent_or dated forallb app lit ch].
      rewrite Hy1, Hy2, Hy3, Hy4, Hx1, Hx2. simpl. exact Hmm.
  - injection Hc as <-. reflexivity.
Qed.

End DateToken.

Lemma extract_date_shape : forall body r,
  ExtractUberData.extract_date body = Ret r ->
  absent_or (dated isdecimal) r = true.
Proof.
  intros body r H. unfold ExtractUberData.extract_date in H.
  assert (Htok : forall g,
             lang ExtractUberData.date_token g ->
             ExtractUberData.convert_swedish_date_to_iso (strip g) = Ret r ->
             absent_or (dated isdecimal) r = true).
  { intros g Hl Hc.
    apply (token_date [Digit] isdecimal) with (g := g); auto.
    - intros y. simpl. apply orb_false_r.
    - apply isdecimal_not_space.
    - apply isdecimal_not_sign. }
  destruct (search ExtractUberData.date_pattern body) as [m|] eqn:E.
  - destruct (group_str_bound _ _ _ 2%nat E eq_refl)
      as (g & r1 & Hg & _ & Hin & Hl).
    rewrite Hg in H. cbn [bind] in H.
    simpl in Hin. destruct Hin as [<-|[]].
    apply (Htok g); assumption.
  - destruct (search ExtractUberData.general_date_pattern body)
      as [m|] eqn:E2.
    + destruct (group_str_bound _ _ _ 1%nat E2 eq_refl)
        as (g & r1 & Hg & _ & Hin & Hl).
      rewrite Hg in H. cbn [bind] in H.
      simpl in Hin. destruct Hin as [<-|[]].
      apply (Htok g); assumption.
    + injection H as <-. reflexivity.
Qed.

Lemma strict_date_shape : forall body (m : rmatch) g r,
  search ProcessUberReceipts.date_pattern body = Some m ->
  group body m 1 = Some g ->
  ProcessUberReceipts.convert_swedish_date_to_iso (strip g) = Ret r ->
  absent_or (dated ascii_digit_char) r = true.
Proof.
  intros body m g r E Hg Hc.
  destruct (group_bound _ _ _ 1%nat E eq_refl) as (g' & r1 & Hg' & Hin & Hl).
  assert (g' = g) by congruence. subst g'.
  simpl in Hin. destruct Hin as [<-|[]].
  rewrite convert_same in Hc.
  apply (token_date [Range (ch "0") (ch "9")] ascii_digit_char)
    with (g := g); auto.
  - intros y. simpl. apply orb_false_r.
  - intros c Hd. apply isdecimal_not_space, ascii_digit_decimal. exact Hd.
  - intros c Hd. apply isdecimal_not_sign, ascii_digit_decimal. exact Hd.
Qed.

(** A text of the shape of a date with ASCII digits has the fields of an
    ISO date. *)
Lemma dated_iso_shaped : forall s,
  dated ascii_digit_char s = true -> iso_shaped s = true.
Proof.
  intros s H. unfold dated in H.
  destruct s
    as [|y1 [|y2 [|y3 [|y4 [|h1 [|m1 [|m2 [|h2 [|d1 [|d2 [|x s]]]]]]]]]]];
    try discriminate H.
  repeat rewrite andb_true_iff in H.
  destruct H as [[[Hd Hh1] Hh2] Hm].
  cbn [forallb] in Hd. repeat rewrite andb_true_iff in Hd.
  destruct Hd as (Hy1 & Hy2 & Hy3 & Hy4 & Hd1 & Hd2 & _).
  assert (Hdig : forall c, ascii_digit_char c = true ->
                           exists n, ascii_digit c = Some n).
  { intros c Hc. unfold ascii_digit. unfold ascii_digit_char in Hc.
    rewrite Hc. eauto. }
  assert (Hm12 : exists a b,
             ascii_digit m1 = Some a /\ ascii_digit m2 = Some b).
  { unfold month_number in Hm. cbn [existsb] in Hm.
    repeat rewrite orb_true_iff in Hm.
    repeat match type of Hm with
           | _ \/ _ => destruct Hm as [Hm|Hm]
           end; try discriminate Hm;
      apply str_eqb_eq in Hm; injection Hm as -> ->;
      eexists; eexists; split; reflexivity. }
  destruct Hm12 as (a & b & Ha & Hb).
  destruct (Hdig _ Hy1) as (n1 & E1). destruct (Hdig _ Hy2) as (n2 & E2).
  destruct (Hdig _ Hy3) as (n3 & E3). destruct (Hdig _ Hy4) as (n4 & E4).
  destruct (Hdig _ Hd1) as (n5 & E5). destruct (Hdig _ Hd2) as (n6 & E6).
  unfold iso_shaped, iso_fields. rewrite Hh1, Hh2. cbn [andb].
  cbn [number]. rewrite E1, E2, E3, E4, Ha, Hb, E5, E6. reflexivity.
Qed.

(** ** The fields of a receipt *)

Lemma receipt_fields : forall family_order recursion_limit email r,
  ExtractUberData.extract_receipt_from_email family_order recursion_limit
    email = Ret r ->
  r = ExtractUberData.no_receipt \/
  exists body,
    ExtractUberData.extract_total body
      = Ret (ExtractUberData.cost r, ExtractUberData.currency r) /\
    ExtractUberData.extract_date body = Ret (ExtractUberData.date r) /\
    ExtractUberData.extract_passenger family_order body
      = Ret (ExtractUberData.passenger r).
Proof.
  intros family_order recursion_limit email r H.
  assert (Hf : forall v,
             ExtractUberData.extract_fields family_order v = Ret r ->
             exists body,
               ExtractUberData.extract_total body
                 = Ret (ExtractUberData.cost r, ExtractUberData.currency r) /\
               ExtractUberData.extract_date body
                 = Ret (ExtractUberData.date r) /\
               ExtractUberData.extract_passenger family_order body
                 = Ret (ExtractUberData.passenger r)).
  { intros v Hv. unfold ExtractUberData.extract_fields in Hv.
    destruct (py_get v (lit "body") (VStr [])) as [b|e]; [|discriminate].
    cbn [bind] in Hv. destruct b; try discriminate.
    exists s.
    destruct (ExtractUberData.extract_total s) as [[c cur]|e];
      [|discriminate].
    cbn [bind] in Hv.
    destruct (ExtractUberData.extract_date s) as [d|e]; [|discriminate].
    cbn [bind] in Hv.
    destruct (ExtractUberData.extract_passenger family_order s) as [p|e];
      [|discriminate].
    cbn [bind] in Hv. injection Hv as <-. simpl. auto. }
  unfold ExtractUberData.extract_receipt_from_email in H.
  destruct email; try (right; apply (Hf _ H)).
  destruct (Json.loads recursion_limit s) as [v|e].
  - right. apply (Hf _ H).
  - destruct e; try discriminate. injection H as <-. left. reflexivity.
Qed.

Lemma strict_receipt_fields : forall email r,
  ProcessUberReceipts.extract_single_receipt email = Ret r ->
  exists body,
    ProcessUberReceipts.extract_total body
      = Ret (ProcessUberReceipts.cost r, ProcessUberReceipts.currency r) /\
    match search ProcessUberReceipts.date_pattern body with
    | Some date_match =>
        exists g, group body date_match 1 = Some g /\
          ProcessUberReceipts.convert_swedish_date_to_iso (strip g)
            = Ret (ProcessUberReceipts.date r)
    | None => ProcessUberReceipts.date r = None
    end /\
    match search ProcessUberReceipts.passenger_pattern body with
    | Some passenger_match =>
        exists g, group body passenger_match 1 = Some g /\
          ProcessUberReceipts.passenger r = Some (strip g)
    | None => ProcessUberReceipts.passenger r = None
    end.
Proof.
  intros email r H. unfold ProcessUberReceipts.extract_single_receipt in H.
  destruct (py_get email (lit "body") (VStr [])) as [b|e]; [|discriminate].
  cbn [bind] in H. destruct b; try discriminate.
  exists s.
  destruct (ProcessUberReceipts.extract_total s) as [[c cur]|e];
    [|discriminate].
  cbn [bind] in H.
  unfold ProcessUberReceipts.group_str in H.
  destruct (search ProcessUberReceipts.date_pattern s) as [dm|].
  - destruct (group s dm 1) as [g|]; [|discriminate]. cbn [bind] in H.
    destruct (ProcessUberReceipts.convert_swedish_date_to_iso (strip g))
      as [d|e] eqn:Ec; [|discriminate].
    cbn [bind] in H.
    destruct (search ProcessUberReceipts.passenger_pattern s) as [pm|].
    + destruct (group s pm 1) as [g2|]; [|discriminate]. cbn [bind] in H.
      injection H as <-. simpl. split; [reflexivity|]. split; eauto.
    + cbn [bind] in H. injection H as <-. simpl.
      split; [reflexivity|]. split; eauto.
  - cbn [bind] in H.
    destruct (search ProcessUberReceipts.passenger_pattern s) as [pm|].
    + destruct (group s pm 1) as [g2|]; [|discriminate]. cbn [bind] in H.
      injection H as <-. simpl. split; [reflexivity|]. split; eauto.
    + cbn [bind] in H. injection H as <-. simpl. auto.
Qed.

(** ** The fields of a row *)

Lemma row_of_shape : forall family_order recursion_limit email d p c cur,
  row_of family_order recursion_limit email = Some (d, p, c, cur) ->
  not_negative c = true /\ word_of currency_char cur = true /\
  absent_or (dated isdecimal) d = true /\
  (Forall (fun n => word_of name_char n = true) family_order ->
   absent_or (word_of name_char) p = true).
Proof.
  intros family_order recursion_limit email d p c cur H.
  apply RowFacts.row_of_receipt in H.
  destruct (receipt_fields _ _ _ _ H) as [Hr|(body & Ht & Hd & Hp)];
    [discriminate Hr|].
  simpl in Ht, Hd, Hp.
  destruct (extract_total_shape _ _ _ Ht)
    as [[Hc _]|(x & u & Hx & Hu & Hn & Hw)]; [discriminate Hc|].
  injection Hx as <-. injection Hu as <-.
  split; [exact Hn|]. split; [exact Hw|]. split.
  - eapply extract_date_shape. exact Hd.
  - intros Hf. destruct p as [p|]; [|reflexivity]. simpl.
    eapply extract_passenger_shape; [exact Hf|exact Hp].
Qed.

Lemma strict_row_of_shape : forall email d p c cur,
  strict_row_of email = Some (d, p, c, cur) ->
  not_negative c = true /\ word_of currency_char cur = true /\
  absent_or (dated ascii_digit_char) d = true /\
  absent_or (word_of name_char) p = true.
Proof.
  intros email d p c cur H.
  apply RowFacts.strict_row_of_receipt in H.
  destruct (strict_receipt_fields _ _ H) as (body & Ht & Hd & Hp).
  simpl in Ht, Hd, Hp.
  destruct (strict_extract_total_shape _ _ _ Ht)
    as [[Hc _]|(x & u & Hx & Hu & Hn & Hw)]; [discriminate Hc|].
  injection Hx as <-. injection Hu as <-.
  split; [exact Hn|]. split; [exact Hw|]. split.
  - destruct (search ProcessUberReceipts.date_pattern body) as [m|] eqn:E.
    + destruct Hd as (g & Hg & Hc). eapply strict_date_shape; eauto.
    + subst d. reflexivity.
  - destruct (search ProcessUberReceipts.passenger_pattern body)
      as [m|] eqn:E.
    + destruct Hp as (g & Hg & ->).
      destruct (strict_passenger_shape _ _ E) as (g' & Hg' & Hs & Hw').
      assert (g' = g) by congruence. subst g'. simpl. rewrite Hs. exact Hw'.
    + subst p. reflexivity.
Qed.

Lemma somes_forall : forall (A : Type) (P : A -> Prop) (l : list (option A)),
  (forall x, In (Some x) l -> P x) -> Forall P (somes l).
Proof.
  induction l as [|[x|] l IH]; intros H; simpl.
  - constructor.
  - constructor; [apply H; left; reflexivity|].
    apply IH. intros y Hy. apply H. right. exact Hy.
  - apply IH. intros y Hy. apply H. right. exact Hy.
Qed.

Lemma rows_forall : forall family_order recursion_limit (P : row -> Prop)
    emails,
  (forall email r,
     row_of family_order recursion_limit email = Some r -> P r) ->
  Forall P (rows family_order recursion_limit emails).
Proof.
  intros family_order recursion_limit P emails H. unfold rows.
  apply somes_forall. intros r Hr. apply in_map_iff in Hr.
  destruct Hr as (email & He & _). eapply H. exact He.
Qed.

Lemma strict_rows_forall : forall (P : row -> Prop) emails,
  (forall email r, strict_row_of email = Some r -> P r) ->
  Forall P (strict_rows emails).
Proof.
  intros P emails H. unfold strict_rows.
  apply somes_forall. intros r Hr. apply in_map_iff in Hr.
  destruct Hr as (email & He & _). eapply H. exact He.
Qed.

(** A property of every row is a property of every entry of the lists. *)
Lemma columns_forall : forall (rs : list row) ds ps cs cus
    (Pd Pp : option str -> Prop) (Pc : float -> Prop) (Pu : str -> Prop),
  columns_of rs = (ds, ps, cs, cus) ->
  Forall (fun r => Pd (fst (fst (fst r))) /\ Pp (snd (fst (fst r))) /\
                   Pc (snd (fst r)) /\ Pu (snd r)) rs ->
  Forall Pd ds /\ Forall Pp ps /\ Forall Pc cs /\ Forall Pu cus.
Proof.
  intros rs ds ps cs cus Pd Pp Pc Pu H Hf. unfold columns_of in H.
  injection H as <- <- <- <-.
  repeat split; apply Forall_map; (eapply Forall_impl; [|exact Hf]);
    intros r Hr; simpl in *; tauto.
Qed.

End ShapeFacts.

(* ================================================================== *)
(** * The strict patterns and the lenient ones                         *)
(* ================================================================== *)

Module StrictFacts.

Import Py Re PyLib Spec Terms.
Import ListFacts StrFacts ReFacts ExtractFacts ParseFacts ShapeFacts.
Local Open Scope list_scope.

(** ** Literals *)

Lemma is_prefix_app : forall w s,
  is_prefix w s = true -> s = w ++ skipn (length w) s.
Proof.
  induction w as [|x w IH]; intros s H; [reflexivity|].
  destruct s as [|y s]; [discriminate|]. simpl in H.
  apply andb_true_iff in H. destruct H as [Hx Hw].
  apply N.eqb_eq in Hx. subst y. simpl. f_equal. apply IH. exact Hw.
Qed.

Lemma is_prefix_refl : forall w s, is_prefix w (w ++ s) = true.
Proof.
  induction w as [|x w IH]; intros s; [reflexivity|].
  simpl. rewrite N.eqb_refl. apply IH.
Qed.

(** A literal matches the text that starts with it, and no other. *)
Lemma match_at_str : forall w i s c k,
  match_at (Str w) i s c k =
  if is_prefix w s then k (i + length w)%nat (skipn (length w) s) c
  else None.
Proof.
  induction w as [|x w IH]; intros i s c k.
  - simpl. rewrite Nat.add_0_r. reflexivity.
  - destruct w as [|x' w'].
    + simpl. destruct s as [|y s]; [reflexivity|].
      rewrite (N.eqb_sym x y), andb_true_r.
      replace (i + 1)%nat with (S i) by lia. reflexivity.
    + change (Str (x :: x' :: w')) with (Seq (Chr x) (Str (x' :: w'))).
      cbn [match_at]. destruct s as [|y s]; [reflexivity|].
      cbn [is_prefix]. rewrite (N.eqb_sym x y).
      destruct (N.eqb y x); [|reflexivity].
      rewrite IH. cbn [andb length skipn].
      replace (S i + S (length w'))%nat with (i + S (S (length w')))%nat
        by lia.
      reflexivity.
Qed.

(** [a in b] in terms of the pieces of [b]. *)
Lemma str_in_infix : forall a b, str_in a b = true <-> infix a b.
Proof.
  intros a b. split.
  - induction b as [|y b IH]; intros H; simpl in H.
    + destruct a; [|discriminate]. exists [], []. reflexivity.
    + apply orb_true_iff in H. destruct H as [H|H].
      * exists [], (skipn (length a) (y :: b)). simpl.
        apply is_prefix_app. exact H.
      * destruct (IH H) as (pre & post & E). exists (y :: pre), post.
        simpl. f_equal. exact E.
  - intros (pre & post & E). subst b.
    induction pre as [|y pre IH].
    + simpl. pose proof (is_prefix_refl a post) as Hp.
      destruct (a ++ post); simpl; rewrite Hp; reflexivity.
    + simpl. rewrite IH. apply orb_true_r.
Qed.

Lemma str_in_suffix : forall a b n,
  str_in a b = false -> is_prefix a (skipn n b) = false.
Proof.
  intros a b n H. destruct (is_prefix a (skipn n b)) eqn:E; [|reflexivity].
  exfalso. assert (Hi : infix a b).
  { apply infix_trans with (skipn n b); [|apply infix_skipn].
    exists [], (skipn (length a) (skipn n b)). simpl.
    apply is_prefix_app. exact E. }
  apply str_in_infix in Hi. congruence.
Qed.

(** ** [function] needs the word Totalt *)

Lemma slice_infix : forall i j (s : str), infix (slice i j s) s.
Proof.
  intros i j s. unfold slice.
  apply infix_trans with (skipn i s); [apply infix_firstn|apply infix_skipn].
Qed.

Lemma strict_total_totalt : forall body (m : rmatch),
  search ProcessUberReceipts.total_pattern body = Some m ->
  infix (lit "Totalt") body.
Proof.
  intros body m H. apply search_sound in H. destruct H as (_ & Hl & _).
  unfold ProcessUberReceipts.total_pattern in Hl.
  apply lang_seq_inv in Hl. destruct Hl as (a1 & a2 & E & H1 & _).
  apply lang_str_inv in H1. subst a1.
  apply infix_trans with (slice (m_start m) (m_end m) body);
    [|apply slice_infix].
  exists [], a2. simpl. exact E.
Qed.

(** The extraction reads nothing but the body of the dictionary. *)
Lemma strict_only_body : forall d body,
  dict_get d (lit "body") (VStr []) = VStr body ->
  ProcessUberReceipts.extract_single_receipt (VDict d) =
  ProcessUberReceipts.extract_single_receipt (record body).
Proof.
  intros d body H. unfold ProcessUberReceipts.extract_single_receipt.
  cbn [py_get bind]. rewrite H. reflexivity.
Qed.

Lemma accepted_strict_body : forall email,
  accepted_strict email = true ->
  exists d body (m : rmatch),
    email = VDict d /\ dict_get d (lit "body") (VStr []) = VStr body /\
    search ProcessUberReceipts.total_pattern body = Some m.
Proof.
  intros email H. unfold accepted_strict in H.
  unfold ProcessUberReceipts.extract_single_receipt in H.
  destruct email; try discriminate H. cbn [py_get bind] in H.
  destruct (dict_get d (lit "body") (VStr [])) eqn:Eb; try discriminate H.
  exists d, s.
  unfold ProcessUberReceipts.extract_total in H.
  destruct (search ProcessUberReceipts.total_pattern s) as [m|] eqn:E.
  - exists m. auto.
  - exfalso. cbn [bind fst snd] in H.
    destruct (match search ProcessUberReceipts.date_pattern s with
              | Some date_match =>
                  g <- ProcessUberReceipts.group_str s date_match 1 ;;
                  ProcessUberReceipts.convert_swedish_date_to_iso (strip g)
              | None => Ret None
              end) as [dd|e]; [|discriminate H].
    cbn [bind] in H.
    destruct (match search ProcessUberReceipts.passenger_pattern s with
              | Some passenger_match =>
                  g <- ProcessUberReceipts.group_str s passenger_match 1 ;;
                  Ret (Some (strip g))
              | None => Ret None
              end) as [p|e]; discriminate H.
Qed.

(** ** Group numbers *)

Lemma renumbered_cons : forall f base n span c,
  renumbered f base ((n, span) :: c) = (f n, span) :: renumbered f base c.
Proof. reflexivity. Qed.

Lemma or_else_renumbered : forall f base a b,
  renumbered_result f base (or_else a b) =
  or_else (renumbered_result f base a) (renumbered_result f base b).
Proof.
  intros f base [[e c]|] b; reflexivity.
Qed.

Section Renumber.

Variable f : nat -> nat.
Variable base : captures.

Lemma repeat_match_renumber : forall step step' greedy,
  (forall i s c k k',
     (forall i' s' c',
        k' i' s' (renumbered f base c')
        = renumbered_result f base (k i' s' c')) ->
     step' i s (renumbered f base c) k'
     = renumbered_result f base (step i s c k)) ->
  forall n i s c k k',
    (forall i' s' c',
       k' i' s' (renumbered f base c')
       = renumbered_result f base (k i' s' c')) ->
    repeat_match step' greedy k' n i s (renumbered f base c)
    = renumbered_result f base (repeat_match step greedy k n i s c).
Proof.
  intros step step' greedy Hstep.
  induction n as [|n IH]; intros i s c k k' Hk; simpl; [apply Hk|].
  assert (Hmore :
            step' i s (renumbered f base c)
              (fun i' s' c' =>
                 if (i <? i')%nat
                 then repeat_match step' greedy k' n i' s' c' else None)
            = renumbered_result f base
                (step i s c
                   (fun i' s' c' =>
                      if (i <? i')%nat
                      then repeat_match step greedy k n i' s' c'
                      else None))).
  { apply Hstep. intros i' s' c'.
    destruct (i <? i')%nat; [|reflexivity]. apply IH. exact Hk. }
  destruct greedy; rewrite or_else_renumbered, Hmore, Hk; reflexivity.
Qed.

(** A pattern with other group numbers matches the same texts, and
    captures the same spans under the new numbers. *)
Lemma match_at_renumber : forall r i s c k k',
  (forall i' s' c',
     k' i' s' (renumbered f base c')
     = renumbered_result f base (k i' s' c')) ->
  match_at (renumber f r) i s (renumbered f base c) k'
  = renumbered_result f base (match_at r i s c k).
Proof.
  induction r as [|x|items| |r1 IH1 r2 IH2|r1 IH1 r2 IH2|greedy r1 IH1
                  |n r1 IH1]; intros i s c k k' Hk; cbn [renumber match_at].
  - apply Hk.
  - destruct s as [|y s]; [reflexivity|].
    destruct (N.eqb y x); [apply Hk|reflexivity].
  - destruct s as [|y s]; [reflexivity|].
    destruct (existsb (item_mem y) items); [apply Hk|reflexivity].
  - destruct s as [|y s]; [reflexivity|].
    destruct (N.eqb y 10); [reflexivity|apply Hk].
  - apply IH1. intros i' s' c'. apply IH2. exact Hk.
  - rewrite or_else_renumbered, (IH1 _ _ _ k k' Hk), (IH2 _ _ _ k k' Hk).
    reflexivity.
  - apply repeat_match_renumber; [|exact Hk].
    intros i0 s0 c0 k0 k0' Hk0. apply IH1. exact Hk0.
  - apply IH1. intros i' s' c'. rewrite <- renumbered_cons. apply Hk.
Qed.

End Renumber.

Lemma lookup_renumbered : forall n span c,
  (1 <= n)%nat ->
  lookup (S n) (renumbered S [(1%nat, span)] c) = lookup n c.
Proof.
  intros n span c Hn. unfold renumbered.
  induction c as [|[g sp] c IH]; simpl.
  - destruct n; [lia|reflexivity].
  - destruct (Nat.eqb g n); [reflexivity|exact IH].
Qed.

(** ** The two patterns of the total *)

(** The match of the lenient pattern that stands for a match of the strict
    one: the keyword is group 1, and the other groups move up by one. *)
Lemma total_patterns_at : forall i s,
  is_prefix (lit "Avbokningsavgift") s = false ->
  try_at ExtractUberData.total_pattern i s =
  renumbered_result S [(1%nat, (i, i + 6)%nat)]
    (try_at ProcessUberReceipts.total_pattern i s).
Proof.
  intros i s Ha. unfold try_at.
  set (k0 := fun (e : nat) (_ : str) (c : captures) => Some (e, c)).
  set (tail := Plus space +++ Group 1 (Plus ProcessUberReceipts.amount_class)
               +++ Plus space
               +++ Group 2 (Plus ProcessUberReceipts.currency_class)).
  assert (E1 : match_at ExtractUberData.total_pattern i s [] k0 =
               or_else
                 (match_at (Str (lit "Totalt")) i s []
                    (fun i' s' c' =>
                       match_at (renumber S tail) i' s' ((1%nat, (i, i')) :: c')
                         k0))
                 (match_at (Str (lit "Avbokningsavgift")) i s []
                    (fun i' s' c' =>
                       match_at (renumber S tail) i' s' ((1%nat, (i, i')) :: c')
                         k0))) by reflexivity.
  assert (E2 : match_at ProcessUberReceipts.total_pattern i s [] k0 =
               match_at (Str (lit "Totalt")) i s []
                 (fun i' s' c' => match_at tail i' s' c' k0))
    by reflexivity.
  rewrite E1, E2, !match_at_str, Ha.
  destruct (is_prefix (lit "Totalt") s); [|reflexivity].
  change (length (lit "Totalt")) with 6%nat.
  assert (Hor : forall a : result, or_else a None = a)
    by (intros [x|]; reflexivity).
  rewrite Hor.
  change [(1%nat, (i, (i + 6)%nat))]
    with (renumbered S [(1%nat, (i, (i + 6)%nat))] []).
  apply match_at_renumber. intros i' s' c'. reflexivity.
Qed.

Lemma total_patterns_search_from : forall s i,
  (forall n, is_prefix (lit "Avbokningsavgift") (skipn n s) = false) ->
  search_from ExtractUberData.total_pattern i s =
  match search_from ProcessUberReceipts.total_pattern i s with
  | Some m =>
      Some (mk_match (m_start m) (m_end m)
              (renumbered S [(1%nat, (m_start m, m_start m + 6)%nat)]
                 (m_groups m)))
  | None => None
  end.
Proof.
  induction s as [|y s IH]; intros i Ha.
  - cbn [search_from].
    pose proof (total_patterns_at i [] (Ha 0%nat)) as H.
    unfold try_at in H. rewrite H.
    destruct (match_at ProcessUberReceipts.total_pattern i [] []
                (fun e _ c => Some (e, c))) as [[e c]|]; reflexivity.
  - cbn [search_from].
    pose proof (total_patterns_at i (y :: s) (Ha 0%nat)) as H.
    unfold try_at in H. rewrite H.
    destruct (match_at ProcessUberReceipts.total_pattern i (y :: s) []
                (fun e _ c => Some (e, c))) as [[e c]|]; [reflexivity|].
    cbn [renumbered_result]. apply IH. intros n. apply (Ha (S n)).
Qed.

(** When the word Avbokningsavgift does not occur in the body, the total
    that the strict pattern finds is the total that the lenient one
    finds. *)
Lemma totals_agree : forall body (m : rmatch),
  str_in (lit "Avbokningsavgift") body = false ->
  search ProcessUberReceipts.total_pattern body = Some m ->
  ExtractUberData.extract_total body =
  ProcessUberReceipts.extract_total body.
Proof.
  intros body m Ha Hs.
  unfold ExtractUberData.extract_total, ProcessUberReceipts.extract_total.
  unfold search in *.
  rewrite total_patterns_search_from
    by (intros n; apply str_in_suffix; exact Ha).
  rewrite Hs.
  unfold ExtractUberData.group_str, ProcessUberReceipts.group_str, group.
  cbn [m_groups].
  rewrite !lookup_renumbered by lia. reflexivity.
Qed.

(** ** The record of a body *)

Lemma strict_date_returns : forall body,
  exists d,
    match search ProcessUberReceipts.date_pattern body with
    | Some date_match =>
        g <- ProcessUberReceipts.group_str body date_match 1 ;;
        ProcessUberReceipts.convert_swedish_date_to_iso (strip g)
    | None => Ret None
    end = Ret d.
Proof.
  intros body.
  destruct (search ProcessUberReceipts.date_pattern body) as [m|] eqn:E;
    [|eauto].
  destruct (group_bound _ _ _ 1%nat E eq_refl) as (g & r1 & Hg & _ & _).
  unfold ProcessUberReceipts.group_str. rewrite Hg. cbn [bind].
  rewrite DateFacts.convert_same, DateFacts.convert_cases. eauto.
Qed.

Lemma strict_passenger_returns : forall body,
  exists p,
    match search ProcessUberReceipts.passenger_pattern body with
    | Some passenger_match =>
        g <- ProcessUberReceipts.group_str body passenger_match 1 ;;
        Ret (Some (strip g))
    | None => Ret None
    end = Ret p.
Proof.
  intros body.
  destruct (search ProcessUberReceipts.passenger_pattern body) as [m|] eqn:E;
    [|eauto].
  destruct (group_bound _ _ _ 1%nat E eq_refl) as (g & r1 & Hg & _ & _).
  unfold ProcessUberReceipts.group_str. rewrite Hg. cbn [bind]. eauto.
Qed.

Lemma strict_record_receipt : forall body c cur,
  ProcessUberReceipts.extract_total body = Ret (c, cur) ->
  exists d p,
    ProcessUberReceipts.extract_single_receipt (record body)
    = Ret (ProcessUberReceipts.mk_receipt c cur d p).
Proof.
  intros body c cur H. rewrite strict_record_extraction, H. cbn [bind].
  destruct (strict_date_returns body) as (d & ->). cbn [bind].
  destruct (strict_passenger_returns body) as (p & ->). cbn [bind].
  eauto.
Qed.

Lemma strict_record_raise : forall body e,
  ProcessUberReceipts.extract_total body = Raise e ->
  ProcessUberReceipts.extract_single_receipt (record body) = Raise e.
Proof.
  intros body e H. rewrite strict_record_extraction, H. reflexivity.
Qed.

(** The row of a record is decided by the total found in its body. *)
Lemma row_of_total : forall family_order recursion_limit body,
  match row_of family_order recursion_limit (record body) with
  | Some (_, _, c, cur) =>
      ExtractUberData.extract_total body = Ret (Some c, Some cur)
  | None =>
      forall c cur,
        ExtractUberData.extract_total body <> Ret (Some c, Some cur)
  end.
Proof.
  intros family_order recursion_limit body. unfold row_of.
  destruct (ExtractUberData.extract_total body) as [[c cur]|e] eqn:E.
  - destruct (record_receipt family_order recursion_limit _ _ _ E)
      as (d & p & _ & _ & ->).
    simpl. destruct c as [c|]; [|intros; discriminate].
    destruct cur as [cur|]; [reflexivity|intros; discriminate].
  - rewrite (record_raise family_order recursion_limit _ _ E).
    intros; discriminate.
Qed.

Lemma strict_row_of_total : forall body,
  match strict_row_of (record body) with
  | Some (_, _, c, cur) =>
      ProcessUberReceipts.extract_total body = Ret (Some c, Some cur)
  | None =>
      forall c cur,
        ProcessUberReceipts.extract_total body <> Ret (Some c, Some cur)
  end.
Proof.
  intros body. unfold strict_row_of.
  destruct (ProcessUberReceipts.extract_total body) as [[c cur]|e] eqn:E.
  - destruct (strict_record_receipt _ _ _ E) as (d & p & ->).
    simpl. destruct c as [c|]; [|intros; discriminate].
    destruct cur as [cur|]; [reflexivity|intros; discriminate].
  - rewrite (strict_record_raise _ _ E). intros; discriminate.
Qed.

End StrictFacts.

(* ================================================================== *)
(** * The functions that print                                         *)
(* ================================================================== *)

Module ScriptFacts.

Import Py Re PyLib Spec Terms.
Import ListFacts StrFacts ReFacts BatchFacts ExtractFacts ParseFacts
  RowFacts ShapeFacts StrictFacts.
Local Open Scope list_scope.

(** ** [extract_uber_receipt_data] *)

(** The function extracts what [extract_single_receipt] extracts, and adds
    the identifier, the subject and the date of the email and a flag. *)
Lemma receipt_data_cases : forall email,
  match ProcessUberReceiptsScript.extract_uber_receipt_data email,
        ProcessUberReceipts.extract_single_receipt email with
  | Ret r, Ret r' =>
      ProcessUberReceiptsScript.cost r = ProcessUberReceipts.cost r' /\
      ProcessUberReceiptsScript.currency r = ProcessUberReceipts.currency r' /\
      ProcessUberReceiptsScript.date r = ProcessUberReceipts.date r' /\
      ProcessUberReceiptsScript.passenger r
        = ProcessUberReceipts.passenger r' /\
      exists d body,
        email = VDict d /\
        dict_get d (lit "body") (VStr []) = VStr body /\
        ProcessUberReceiptsScript.email_id r = dict_get d (lit "id") VNone /\
        ProcessUberReceiptsScript.subject r
          = dict_get d (lit "subject") (VStr []) /\
        ProcessUberReceiptsScript.email_date r
          = dict_get d (lit "date") (VStr []) /\
        ProcessUberReceiptsScript.is_cancellation r
          = str_in (lit "Avbokningsavgift") body
  | Raise e, Raise e' => e = e'
  | _, _ => False
  end.
Proof.
  intros email.
  unfold ProcessUberReceiptsScript.extract_uber_receipt_data,
    ProcessUberReceipts.extract_single_receipt.
  destruct email; try reflexivity. cbn [py_get bind].
  destruct (dict_get d (lit "body") (VStr [])) eqn:Eb; try reflexivity.
  unfold ProcessUberReceiptsScript.total_pattern,
    ProcessUberReceiptsScript.date_pattern,
    ProcessUberReceiptsScript.passenger_pattern,
    ProcessUberReceipts.extract_total.
  change ProcessUberReceiptsScript.group_str
    with ProcessUberReceipts.group_str.
  destruct (match search ProcessUberReceipts.total_pattern s with
            | Some total_match =>
                g <- ProcessUberReceipts.group_str s total_match 1 ;;
                cost <- py_float (replace (ch ",") (ch ".") g) ;;
                Ret (Some cost, group s total_match 2)
            | None => Ret (None, None)
            end) as [[c cur]|e]; [|reflexivity].
  cbn [bind].
  destruct (match search ProcessUberReceipts.date_pattern s with
            | Some date_match =>
                g <- ProcessUberReceipts.group_str s date_match 1 ;;
                ProcessUberReceipts.convert_swedish_date_to_iso (strip g)
            | None => Ret None
            end) as [dd|e]; [|reflexivity].
  cbn [bind].
  destruct (match search ProcessUberReceipts.passenger_pattern s with
            | Some passenger_match =>
                g <- ProcessUberReceipts.group_str s passenger_match 1 ;;
                Ret (Some (strip g))
            | None => Ret None
            end) as [p|e]; [|reflexivity].
  cbn [bind]. simpl. repeat split; try reflexivity.
  exists d, s. repeat split. exact Eb.
Qed.

(** ** [process_all_emails] *)



(** ** [parse_uber_data_file] *)

Lemma object_items_dict : forall scan n s acc v rest,
  Json.object_items scan n s acc = Ret (v, rest) -> is_dict v = true.
Proof.
  intros scan. induction n as [|n IH]; intros s acc v rest H;
    cbn [Json.object_items] in H; [discriminate|].
  destruct s as [|q s0]; [discriminate|].
  destruct (N.eqb q Json.quote); [|discriminate].
  destruct (Json.scanstring (length s0) s0 []) as [[key s1]|e];
    [|discriminate].
  cbn [bind] in H.
  destruct (Json.skip_ws s1) as [|c s2]; [discriminate|].
  destruct (N.eqb c (ch ":")); [|discriminate].
  destruct (scan (Json.skip_ws s2)) as [[v0 s3]|e]; [|discriminate].
  cbn [bind] in H. cbv zeta in H.
  destruct (Json.skip_ws s3) as [|d s4]; [discriminate|].
  destruct (N.eqb d (ch "}")).
  - injection H as <- _. reflexivity.
  - destruct (N.eqb d (ch ",")); [|discriminate].
    eapply IH. exact H.
Qed.

(** A text that starts with a brace decodes to a dictionary, if it
    decodes. *)
Lemma loads_brace : forall limit s v,
  startswith (ch "{") s = true ->
  Json.loads limit s = Ret v -> is_dict v = true.
Proof.
  intros limit s v Hs H. destruct s as [|c s]; [discriminate|].
  simpl in Hs. apply N.eqb_eq in Hs. subst c.
  unfold Json.loads in H. cbn [startswith] in H.
  change (N.eqb 123 65279) with false in H. cbv iota in H.
  change (Json.skip_ws (123%N :: s)) with (123%N :: s) in H.
  destruct (Json.scan_once limit (123%N :: s)) as [[v0 rest]|e] eqn:E;
    [|discriminate].
  cbn [bind fst snd] in H.
  destruct (Json.skip_ws rest); [|discriminate]. injection H as <-.
  destruct limit as [|d]; [discriminate E|].
  cbn [Json.scan_once] in E.
  change (N.eqb 123 Json.quote) with false in E.
  change (N.eqb 123 (ch "{")) with true in E. cbv iota in E.
  destruct (Json.skip_ws s) as [|x s'']; [discriminate|].
  destruct (N.eqb x (ch "}")).
  - injection E as <- _. reflexivity.
  - eapply object_items_dict. exact E.
Qed.

Lemma find_char_skipn : forall c s,
  contains c s = true -> startswith c (skipn (find_char c s) s) = true.
Proof.
  intros c s. unfold contains.
  induction s as [|x s IH]; intros H; [discriminate|].
  simpl in H. simpl find_char.
  destruct (N.eqb x c) eqn:E.
  - simpl. exact E.
  - rewrite N.eqb_sym, E in H. simpl in H. simpl. apply IH. exact H.
Qed.

Section Parse.

Variable recursion_limit : nat.

Lemma script_parse_part_dict : forall part v,
  ProcessUberReceiptsScript.parse_part recursion_limit part = Ret (Some v) ->
  is_dict v = true.
Proof.
  intros part v H. unfold ProcessUberReceiptsScript.parse_part in H.
  destruct (startswith (ch "{") part && endswith (ch "}") part) eqn:E1.
  - apply andb_true_iff in E1. destruct E1 as [Hs _].
    destruct (Json.loads recursion_limit part) as [v0|e] eqn:El;
      [|discriminate].
    cbn [bind] in H. injection H as <-. eapply loads_brace; eauto.
  - destruct (contains (ch "{") part) eqn:E2; [|discriminate].
    destruct (endswith (ch "}") (skipn (find_char (ch "{") part) part));
      [|discriminate].
    destruct (Json.loads recursion_limit
                (skipn (find_char (ch "{") part) part)) as [v0|e] eqn:El;
      [|discriminate].
    cbn [bind] in H. injection H as <-.
    eapply loads_brace; [|exact El]. apply find_char_skipn. exact E2.
Qed.

(** The two copies of the body of the loop. *)
Lemma parse_part_copies : forall part,
  ExtractUberData.parse_part recursion_limit part =
  match strip part with
  | [] => Ret None
  | _ :: _ =>
      match ProcessUberReceiptsScript.parse_part recursion_limit
              (strip part) with
      | Raise JSONDecodeError => Ret None
      | other => other
      end
  end.
Proof.
  intros part. unfold ExtractUberData.parse_part,
                 ProcessUberReceiptsScript.parse_part.
  destruct (strip part) as [|c s]; [reflexivity|].
  match goal with
  | |- match ?x with _ => _ end = _ =>
      destruct x as [a|e]; [reflexivity|destruct e; reflexivity]
  end.
Qed.

(** The loop of [parse_uber_data_file] collects what the loop of
    [extract_uber_data] collects, dictionaries only, and prints nothing
    but warnings. *)
Lemma parse_parts_copies : forall parts emails,
  Forall (fun v => is_dict v = true) emails ->
  exists lines,
    fst (ProcessUberReceiptsScript.parse_parts recursion_limit parts emails)
      = lines /\
    Forall (fun l => l = ProcessUberReceiptsScript.WarningCouldNotParse)
      lines /\
    snd (ProcessUberReceiptsScript.parse_parts recursion_limit parts emails)
      = ExtractUberData.parse_parts recursion_limit parts emails /\
    forall l,
      ExtractUberData.parse_parts recursion_limit parts emails = Ret l ->
      Forall (fun v => is_dict v = true) l.
Proof.
  induction parts as [|part parts IH]; intros emails He.
  - exists []. simpl. repeat split; auto. intros l H. injection H as <-.
    exact He.
  - cbn [ProcessUberReceiptsScript.parse_parts ExtractUberData.parse_parts].
    rewrite parse_part_copies.
    destruct (strip part) as [|c p] eqn:Es.
    + cbn [bind]. apply IH. exact He.
    + destruct (ProcessUberReceiptsScript.parse_part recursion_limit (c :: p))
        as [[v|]|e] eqn:Ep.
      * cbn [bind]. apply IH. apply Forall_app. split; [exact He|].
        constructor; [|constructor].
        eapply script_parse_part_dict. exact Ep.
      * cbn [bind]. apply IH. exact He.
      * destruct e;
          try (exists []; cbn; repeat split; auto; intros; discriminate).
        cbn [bind].
        destruct (IH emails He) as (lines & Hl & Hw & Hs & Hd).
        exists (ProcessUberReceiptsScript.WarningCouldNotParse :: lines).
        unfold and_then, print.
        destruct (ProcessUberReceiptsScript.parse_parts recursion_limit
                    parts emails) as [printed r].
        simpl in *. subst. repeat split; auto.
Qed.

End Parse.

(** ** [main] *)

Section Main.

Variable recursion_limit : nat.
Variable files : file_system.
Variable float_sum : list float -> float.

(** What [parse_uber_data_file] returns and prints. *)
Lemma parse_file_cases : forall file_path,
  let r :=
    ProcessUberReceiptsScript.parse_uber_data_file recursion_limit files
      file_path in
  Forall (fun v => is_dict v = true) (snd r) /\
  existsb is_failure (fst r) = false /\
  match files file_path with
  | Content content =>
      match ExtractUberData.parse_parts recursion_limit
              (Re.split ExtractUberData.value_marker content) [] with
      | Ret l => snd r = l
      | Raise e => snd r = []
      end
  | NotRead _ => snd r = []
  end.
Proof.
  intros file_path. cbv zeta.
  unfold ProcessUberReceiptsScript.parse_uber_data_file.
  destruct (files file_path) as [content|[|]];
    try (repeat split; constructor).
  change ProcessUberReceiptsScript.value_marker
    with ExtractUberData.value_marker.
  destruct (parse_parts_copies recursion_limit
              (Re.split ExtractUberData.value_marker content) []
              (Forall_nil _)) as (lines & Hl & Hw & Hs & Hd).
  destruct (ProcessUberReceiptsScript.parse_parts recursion_limit
              (Re.split ExtractUberData.value_marker content) [])
    as [printed r].
  simpl in Hl, Hs. subst printed r.
  assert (Hf : existsb is_failure lines = false).
  { clear -Hw. induction Hw as [|l lines Hl _ IH]; [reflexivity|].
    subst l. simpl. exact IH. }
  destruct (ExtractUberData.parse_parts recursion_limit
              (Re.split ExtractUberData.value_marker content) [])
    as [l|e]; simpl.
  - repeat split; auto.
  - repeat split; auto. rewrite existsb_app, Hf. reflexivity.
Qed.



End Main.

End ScriptFacts.

(* ================================================================== *)
(** * Sorting and counting                                             *)
(* ================================================================== *)

Module SortFacts.

Import Py PyLib Spec Terms.
Import PassengerFacts.
Local Open Scope list_scope.

(** ** The order of strings *)

Lemma str_ltb_irrefl : forall a, str_ltb a a = false.
Proof.
  induction a as [|x a IH]; [reflexivity|].
  simpl. rewrite N.ltb_irrefl, N.eqb_refl. exact IH.
Qed.

Lemma str_ltb_trans : forall a b c,
  str_ltb a b = true -> str_ltb b c = true -> str_ltb a c = true.
Proof.
  induction a as [|x a IH]; intros b c Hab Hbc.
  - destruct b as [|y b]; [discriminate|].
    destruct c as [|z c]; [discriminate|]. reflexivity.
  - destruct b as [|y b]; [discriminate|].
    destruct c as [|z c]; [discriminate|].
    simpl in *.
    apply orb_true_iff in Hab. apply orb_true_iff in Hbc.
    apply orb_true_iff.
    destruct Hab as [Hab|Hab]; destruct Hbc as [Hbc|Hbc].
    + left. apply N.ltb_lt in Hab, Hbc. apply N.ltb_lt. lia.
    + apply andb_true_iff in Hbc. destruct Hbc as [E _].
      apply N.eqb_eq in E. subst z. left. exact Hab.
    + apply andb_true_iff in Hab. destruct Hab as [E _].
      apply N.eqb_eq in E. subst y. left. exact Hbc.
    + apply andb_true_iff in Hab. destruct Hab as [E1 H1].
      apply andb_true_iff in Hbc. destruct Hbc as [E2 H2].
      apply N.eqb_eq in E1, E2. subst y z. right.
      rewrite N.eqb_refl. simpl. eapply IH; eauto.
Qed.

(** Two strings are equal, or one comes before the other. *)
Lemma str_ltb_total : forall a b,
  str_ltb a b = false -> a <> b -> str_ltb b a = true.
Proof.
  induction a as [|x a IH]; intros b Hab Hne.
  - destruct b as [|y b]; [congruence|discriminate].
  - destruct b as [|y b]; [reflexivity|].
    simpl in *. apply orb_false_iff in Hab. destruct Hab as [Hlt Hrest].
    apply N.ltb_ge in Hlt.
    destruct (N.eqb x y) eqn:E.
    + apply N.eqb_eq in E. subst y. simpl in Hrest.
      rewrite N.eqb_refl, N.ltb_irrefl. simpl.
      apply IH; [exact Hrest|congruence].
    + apply N.eqb_neq in E.
      assert (Hyx : (y <? x)%N = true) by (apply N.ltb_lt; lia).
      rewrite Hyx. reflexivity.
Qed.

(** ** [sorted] *)

Section Sorted.

Variable A : Type.
Variable ltb : A -> A -> bool.

(** The key that decides the order of two items with different keys. *)
Variable key : A -> str.
Hypothesis ltb_key : forall a b,
  key a <> key b -> ltb a b = str_ltb (key a) (key b).

Lemma insert_perm : forall x l, Permutation (x :: l) (insert ltb x l).
Proof.
  induction l as [|y l IH]; simpl; [apply Permutation_refl|].
  destruct (ltb y x); [|apply Permutation_refl].
  eapply Permutation_trans; [apply perm_swap|].
  apply perm_skip. exact IH.
Qed.

(** The sorted list has the items of the list. *)
Lemma sorted_perm : forall l, Permutation l (sorted ltb l).
Proof.
  induction l as [|x l IH]; simpl; [apply Permutation_refl|].
  eapply Permutation_trans; [|apply insert_perm].
  apply perm_skip. exact IH.
Qed.

Lemma insert_sorted : forall x l,
  NoDup (map key (x :: l)) ->
  StronglySorted (fun a b => str_ltb (key a) (key b) = true) l ->
  StronglySorted (fun a b => str_ltb (key a) (key b) = true)
    (insert ltb x l).
Proof.
  induction l as [|y l IH]; intros Hnd Hs; simpl.
  - constructor; constructor.
  - assert (Hxy : key y <> key x).
    { inversion Hnd as [|k ks Hk _]; subst. intros E. apply Hk.
      left. exact E. }
    inversion Hs as [|y' l' Hs' Hy]; subst.
    rewrite (ltb_key y x Hxy).
    destruct (str_ltb (key y) (key x)) eqn:E.
    + constructor.
      * apply IH; [|exact Hs'].
        simpl in Hnd. inversion Hnd as [|k ks Hk Hnd']; subst.
        inversion Hnd' as [|k' ks' Hk' Hnd'']; subst.
        simpl. constructor; [|exact Hnd''].
        intros Hin. apply Hk. right. exact Hin.
      * eapply Permutation_Forall; [apply insert_perm|].
        constructor; [exact E|exact Hy].
    + assert (Hlt : str_ltb (key x) (key y) = true)
        by (apply str_ltb_total; [exact E|exact Hxy]).
      constructor; [exact Hs|].
      constructor; [exact Hlt|].
      eapply Forall_impl; [|exact Hy]. intros z Hz.
      eapply str_ltb_trans; eauto.
Qed.

(** When the keys are all different, the sorted list is in the strict
    order of its keys. *)
Lemma sorted_sorted : forall l,
  NoDup (map key l) ->
  StronglySorted (fun a b => str_ltb (key a) (key b) = true)
    (sorted ltb l).
Proof.
  induction l as [|x l IH]; intros Hnd; simpl; [constructor|].
  inversion Hnd as [|k ks Hk Hnd']; subst.
  apply insert_sorted; [|apply IH; exact Hnd'].
  simpl. constructor.
  - intros Hin. apply Hk.
    eapply Permutation_in; [|exact Hin].
    apply Permutation_map, Permutation_sym, sorted_perm.
  - eapply Permutation_NoDup; [|exact Hnd'].
    apply Permutation_map, sorted_perm.
Qed.

End Sorted.

Lemma item_ltb_key : forall a b : str * N,
  fst a <> fst b -> item_ltb a b = str_ltb (fst a) (fst b).
Proof.
  intros a b H. unfold item_ltb.
  destruct (str_eqb (fst a) (fst b)) eqn:E; [|reflexivity].
  apply str_eqb_eq in E. congruence.
Qed.

(** ** The dict that counts *)

Lemma count_get_set : forall d k v k' default,
  count_get (count_set d k v) k' default =
  if str_eqb k k' then v else count_get d k' default.
Proof.
  induction d as [|[k0 v0] d IH]; intros k v k' default; simpl.
  - destruct (str_eqb k k'); reflexivity.
  - destruct (str_eqb k0 k) eqn:E; simpl.
    + apply str_eqb_eq in E. subst k0.
      destruct (str_eqb k k'); reflexivity.
    + destruct (str_eqb k0 k') eqn:E'.
      * apply str_eqb_eq in E'. subst k0.
        destruct (str_eqb k k') eqn:E''; [|reflexivity].
        apply str_eqb_eq in E''. subst k'.
        assert (Hk : str_eqb k k = true) by (apply str_eqb_eq; reflexivity).
        congruence.
      * apply IH.
Qed.

Lemma count_set_keys : forall d k v,
  map fst (count_set d k v) =
  if existsb (str_eqb k) (map fst d) then map fst d else map fst d ++ [k].
Proof.
  induction d as [|[k0 v0] d IH]; intros k v; simpl; [reflexivity|].
  destruct (str_eqb k0 k) eqn:E.
  - apply str_eqb_eq in E. subst k0.
    assert (Hk : str_eqb k k = true) by (apply str_eqb_eq; reflexivity).
    rewrite Hk. reflexivity.
  - assert (Hk : str_eqb k k0 = false).
    { destruct (str_eqb k k0) eqn:E'; [|reflexivity].
      apply str_eqb_eq in E'. subst k0.
      assert (str_eqb k k = true) by (apply str_eqb_eq; reflexivity).
      congruence. }
    rewrite Hk. simpl. rewrite IH.
    destruct (existsb (str_eqb k) (map fst d)); reflexivity.
Qed.

Lemma count_get_absent : forall d k default,
  existsb (str_eqb k) (map fst d) = false -> count_get d k default = default.
Proof.
  induction d as [|[k0 v0] d IH]; intros k default H; simpl in *;
    [reflexivity|].
  apply orb_false_iff in H. destruct H as [H1 H2].
  destruct (str_eqb k0 k) eqn:E.
  - apply str_eqb_eq in E. subst k0.
    assert (str_eqb k k = true) by (apply str_eqb_eq; reflexivity).
    congruence.
  - apply IH. exact H2.
Qed.

Lemma total_count_set : forall d k v,
  NoDup (map fst d) ->
  (total_count (count_set d k v) + count_get d k 0 = total_count d + v)%N.
Proof.
  induction d as [|[k0 v0] d IH]; intros k v Hnd; simpl.
  - unfold total_count. simpl. lia.
  - inversion Hnd as [|x xs Hx Hnd']; subst.
    destruct (str_eqb k0 k) eqn:E.
    + unfold total_count. simpl. lia.
    + unfold total_count in *. simpl. specialize (IH k v Hnd'). lia.
Qed.

Lemma count_get_in : forall d k n,
  NoDup (map fst d) ->
  (In (k, n) d <-> (existsb (str_eqb k) (map fst d) = true /\
                    count_get d k 0%N = n)).
Proof.
  induction d as [|[k0 v0] d IH]; intros k n Hnd; simpl.
  - split; [intros []|intros [H _]; discriminate].
  - inversion Hnd as [|x xs Hx Hnd']; subst.
    destruct (str_eqb k0 k) eqn:E.
    + apply str_eqb_eq in E. subst k0.
      assert (Hk : str_eqb k k = true) by (apply str_eqb_eq; reflexivity).
      rewrite Hk. simpl. split.
      * intros [H|H]; [injection H as <-; auto|].
        exfalso. apply Hx. apply in_map_iff. exists (k, n). auto.
      * intros [_ <-]. left. reflexivity.
    + assert (Hk : str_eqb k k0 = false).
      { destruct (str_eqb k k0) eqn:E'; [|reflexivity].
        apply str_eqb_eq in E'. subst k0.
        assert (str_eqb k k = true) by (apply str_eqb_eq; reflexivity).
        congruence. }
      rewrite Hk. simpl. rewrite <- (IH k n Hnd'). split.
      * intros [H|H]; [|exact H]. injection H as -> _.
        assert (str_eqb k k = true) by (apply str_eqb_eq; reflexivity).
        congruence.
      * intros H. right. exact H.
Qed.

(** ** The loop that counts the rides *)

Lemma str_eqb_refl : forall k, str_eqb k k = true.
Proof.
  intros k. apply str_eqb_eq. reflexivity.
Qed.

Lemma str_eqb_neq : forall a b, a <> b -> str_eqb a b = false.
Proof.
  intros a b H. destruct (str_eqb a b) eqn:E; [|reflexivity].
  apply str_eqb_eq in E. congruence.
Qed.

Lemma existsb_str_in : forall k l,
  existsb (str_eqb k) l = true <-> In k l.
Proof.
  intros k l. rewrite existsb_exists. split.
  - intros (x & Hx & E). apply str_eqb_eq in E. subst. exact Hx.
  - intros H. exists k. split; [exact H|apply str_eqb_refl].
Qed.

Lemma rides_of_cons : forall k p ps,
  rides_of k (p :: ps) =
  ((if is_named k p then 1 else 0) + rides_of k ps)%N.
Proof.
  intros k p ps. unfold rides_of. cbn [filter].
  destruct (is_named k p); cbn [length]; [rewrite Nat2N.inj_succ|]; lia.
Qed.

(** The invariant of the loop, for the dict [d] that it starts from. *)
Lemma count_rides_fold : forall ps d,
  NoDup (map fst d) ->
  (forall k, In k (map fst d) -> k <> []) ->
  let d' :=
    fold_left
      (fun passengers passenger =>
         match passenger with
         | Some p =>
             if truthy passenger
             then count_set passengers p (count_get passengers p 0 + 1)
             else passengers
         | None => passengers
         end) ps d in
  NoDup (map fst d') /\
  (forall k, In k (map fst d') <->
             In k (map fst d) \/ (k <> [] /\ In (Some k) ps)) /\
  (forall k, k <> [] ->
             count_get d' k 0 = (count_get d k 0 + rides_of k ps)%N) /\
  total_count d'
  = (total_count d + N.of_nat (length (filter truthy ps)))%N.
Proof.
  induction ps as [|p ps IH]; intros d Hnd Hne; cbv zeta.
  - simpl. repeat split; auto.
    + intros [H|[_ []]]. exact H.
    + intros k _. unfold rides_of. simpl. lia.
    + lia.
  - cbn [fold_left].
    destruct p as [[|c p]|].
    + (* the empty name *)
      cbn [truthy]. destruct (IH d Hnd Hne) as (H1 & H2 & H3 & H4).
      repeat split.
      * exact H1.
      * intros H. apply H2 in H. destruct H as [H|[Hk H]]; auto.
        right. split; [exact Hk|]. right. exact H.
      * intros [H|[Hk [H|H]]]; apply H2; auto.
        injection H as <-. congruence.
      * intros k Hk. rewrite (H3 k Hk), rides_of_cons.
        cbn [is_named]. rewrite (str_eqb_neq [] k) by congruence. lia.
      * rewrite H4. reflexivity.
    + (* a name *)
      assert (Htr : truthy (Some (c :: p)) = true) by reflexivity.
      assert (Hnn : c :: p <> []) by discriminate.
      remember (c :: p) as name eqn:En. clear En c p.
      match goal with
      | |- context [truthy ?x] =>
          replace (truthy x) with true by (symmetry; exact Htr)
      end.
      set (d1 := count_set d name (count_get d name 0 + 1)).
      assert (Hk1 : map fst d1 =
                    if existsb (str_eqb name) (map fst d) then map fst d
                    else map fst d ++ [name])
        by apply count_set_keys.
      assert (Hnd1 : NoDup (map fst d1)).
      { rewrite Hk1.
        destruct (existsb (str_eqb name) (map fst d)) eqn:E; [exact Hnd|].
        apply NoDup_app; [exact Hnd|repeat constructor; auto|].
        intros x Hx [<-|[]]. apply existsb_str_in in Hx. congruence. }
      assert (Hne1 : forall k, In k (map fst d1) -> k <> []).
      { intros k Hk. rewrite Hk1 in Hk.
        destruct (existsb (str_eqb name) (map fst d)); [auto|].
        apply in_app_iff in Hk. destruct Hk as [Hk|[<-|[]]]; [auto|].
        exact Hnn. }
      assert (Hin1 : forall k, In k (map fst d1) <->
                               In k (map fst d) \/ k = name).
      { intros k. rewrite Hk1.
        destruct (existsb (str_eqb name) (map fst d)) eqn:E.
        - apply existsb_str_in in E. split; [auto|].
          intros [H| ->]; auto.
        - rewrite in_app_iff. simpl. split.
          + intros [H|[H|[]]]; auto.
          + intros [H|H]; auto. }
      destruct (IH d1 Hnd1 Hne1) as (H1 & H2 & H3 & H4).
      repeat split.
      * exact H1.
      * intros H. apply H2 in H. destruct H as [H|[Hk H]].
        -- apply Hin1 in H. destruct H as [H| ->]; auto.
           right. split; [exact Hnn|]. left. reflexivity.
        -- right. split; [exact Hk|]. right. exact H.
      * intros [H|[Hk [H|H]]]; apply H2.
        -- left. apply Hin1. auto.
        -- injection H as <-. left. apply Hin1. auto.
        -- auto.
      * intros k Hk. rewrite (H3 k Hk), rides_of_cons.
        unfold d1. rewrite count_get_set. cbn [is_named].
        destruct (str_eqb name k) eqn:E.
        -- apply str_eqb_eq in E. subst k. lia.
        -- lia.
      * rewrite H4. cbn [filter].
        match goal with
        | |- context [truthy ?x] =>
            replace (truthy x) with true by (symmetry; exact Htr)
        end.
        cbn [length].
        rewrite Nat2N.inj_succ.
        pose proof (total_count_set d name (count_get d name 0 + 1) Hnd)
          as Ht. fold d1 in Ht. lia.
    + destruct (IH d Hnd Hne) as (H1 & H2 & H3 & H4).
      repeat split.
      * exact H1.
      * intros H. apply H2 in H. destruct H as [H|[Hk H]]; auto.
        right. split; [exact Hk|]. right. exact H.
      * intros [H|[Hk [H|H]]]; apply H2; auto. discriminate.
      * intros k Hk. rewrite (H3 k Hk), rides_of_cons. simpl. lia.
      * rewrite H4. reflexivity.
Qed.

Lemma total_count_perm : forall a b,
  Permutation a b -> total_count a = total_count b.
Proof.
  intros a b H. unfold total_count.
  induction H as [|x l l' H IH|x y l|l l' l'' H1 IH1 H2 IH2]; simpl;
    try lia.
Qed.

(** What the report of the rides lists: each name that is not empty, once,
    with the number of its rides, in the order of the names. *)
Lemma rides_report : forall ps,
  let report :=
    sorted item_ltb (ProcessUberReceiptsScript.count_rides ps) in
  StronglySorted (fun a b => str_ltb (fst a) (fst b) = true) report /\
  (forall name n,
     In (name, n) report <->
     name <> [] /\ In (Some name) ps /\ n = rides_of name ps) /\
  total_count report = N.of_nat (length (filter truthy ps)).
Proof.
  intros ps. cbv zeta. unfold ProcessUberReceiptsScript.count_rides.
  destruct (count_rides_fold ps [] (NoDup_nil _) (fun k H => match H with end))
    as (H1 & H2 & H3 & H4).
  cbv zeta in H1, H2, H3, H4.
  match type of H1 with NoDup (map fst ?x) => set (d := x) in * end.
  split; [|split].
  - apply sorted_sorted; [apply item_ltb_key|exact H1].
  - intros name n.
    assert (Hp : In (name, n) (sorted item_ltb d) <-> In (name, n) d).
    { split; apply Permutation_in;
        [apply Permutation_sym|]; apply sorted_perm. }
    split.
    + intros H. apply Hp in H. apply (count_get_in d name n H1) in H.
      destruct H as [Hin Hn]. apply existsb_str_in in Hin.
      apply H2 in Hin. destruct Hin as [[]|[Hk Hin]].
      rewrite (H3 name Hk) in Hn. simpl in Hn. auto.
    + intros (Hk & Hin & ->). apply Hp.
      apply (count_get_in d name _ H1). split.
      * apply existsb_str_in. apply H2. auto.
      * rewrite (H3 name Hk). reflexivity.
  - transitivity (total_count d).
    + symmetry. apply total_count_perm, sorted_perm.
    + rewrite H4. reflexivity.
Qed.

(** Two lists in the strict order of the strings that have the same
    members are the same list. *)
Lemma strongly_sorted_unique : forall l1 l2 : list str,
  StronglySorted (fun a b => str_ltb a b = true) l1 ->
  StronglySorted (fun a b => str_ltb a b = true) l2 ->
  Permutation l1 l2 -> l1 = l2.
Proof.
  induction l1 as [|x l1 IH]; intros l2 H1 H2 Hp.
  - apply Permutation_nil in Hp. subst. reflexivity.
  - destruct l2 as [|y l2].
    { apply Permutation_sym, Permutation_nil in Hp. discriminate. }
    inversion H1 as [|x' l1' H1' Hx]; subst.
    inversion H2 as [|y' l2' H2' Hy]; subst.
    assert (E : x = y).
    { assert (Hxin : In x (y :: l2))
        by (eapply Permutation_in; [exact Hp|left; reflexivity]).
      assert (Hyin : In y (x :: l1))
        by (eapply Permutation_in;
            [apply Permutation_sym; exact Hp|left; reflexivity]).
      destruct Hxin as [->|Hxin]; [reflexivity|].
      destruct Hyin as [->|Hyin]; [reflexivity|].
      rewrite Forall_forall in Hx, Hy.
      pose proof (str_ltb_trans _ _ _ (Hy _ Hxin) (Hx _ Hyin)) as Hc.
      rewrite str_ltb_irrefl in Hc. discriminate. }
    subst y. f_equal. apply IH; [exact H1'|exact H2'|].
    eapply Permutation_cons_inv. exact Hp.
Qed.

(** The sorted list of strings that are all different is in their strict
    order, and it is the same for every order of the list. *)
Lemma sorted_strings : forall l,
  NoDup l ->
  StronglySorted (fun a b => str_ltb a b = true) (sorted str_ltb l) /\
  forall l', Permutation l' l -> sorted str_ltb l' = sorted str_ltb l.
Proof.
  intros l Hnd.
  assert (Hs : forall l0, NoDup l0 ->
             StronglySorted (fun a b => str_ltb a b = true)
               (sorted str_ltb l0)).
  { intros l0 H0.
    apply (sorted_sorted str str_ltb (fun x => x) (fun a b _ => eq_refl)).
    rewrite map_id. exact H0. }
  split; [apply Hs; exact Hnd|].
  intros l' Hp. apply strongly_sorted_unique.
  - apply Hs. eapply Permutation_NoDup; [apply Permutation_sym; exact Hp|].
    exact Hnd.
  - apply Hs. exact Hnd.
  - eapply Permutation_trans; [apply Permutation_sym, sorted_perm|].
    eapply Permutation_trans; [exact Hp|]. apply sorted_perm.
Qed.

End SortFacts.

(* ================================================================== *)
(** * The markers between the records                                  *)
(* ================================================================== *)

Module MarkerFacts.

Import Py Re PyLib Spec Terms.
Import ListFacts StrFacts ReFacts FuelFacts ShapeFacts StrictFacts.
Local Open Scope list_scope.

(** A run of characters of a class is taken whole by the greedy star when
    what follows is not of the class and the rest of the pattern
    matches. *)
Lemma star_class_run : forall items n rest i c k res,
  Forall (fun y => existsb (item_mem y) items = true) n ->
  match rest with
  | [] => True
  | y :: _ => existsb (item_mem y) items = false
  end ->
  k (i + length n)%nat rest c = Some res ->
  match_at (Star true (Cls items)) i (n ++ rest) c k = Some res.
Proof.
  intros items n rest. induction n as [|d n IH]; intros i c k res Hn Hr Hk.
  - cbn [app length] in *. rewrite Nat.add_0_r in Hk. cbn [match_at].
    destruct rest as [|y rest']; [exact Hk|].
    cbn [length repeat_match match_at]. rewrite Hr. cbn [or_else].
    exact Hk.
  - inversion Hn as [|d' n' Hd Hn']; subst.
    cbn [app].
    change (match_at (Star true (Cls items)) i (d :: n ++ rest) c k)
      with (or_else
              (if existsb (item_mem d) items
               then if (i <? S i)%nat
                    then match_at (Star true (Cls items)) (S i) (n ++ rest)
                           c k
                    else None
               else None)
              (k i (d :: n ++ rest) c)).
    rewrite Hd.
    rewrite (proj2 (Nat.ltb_lt i (S i)) (Nat.lt_succ_diag_r i)).
    rewrite (IH (S i) c k res Hn' Hr); [reflexivity|].
    rewrite <- Hk. f_equal. cbn [length]. lia.
Qed.

Lemma plus_class_run : forall items n rest i c k res,
  n <> [] ->
  Forall (fun y => existsb (item_mem y) items = true) n ->
  match rest with
  | [] => True
  | y :: _ => existsb (item_mem y) items = false
  end ->
  k (i + length n)%nat rest c = Some res ->
  match_at (Plus (Cls items)) i (n ++ rest) c k = Some res.
Proof.
  intros items n rest i c k res Hne Hn Hr Hk.
  destruct n as [|d n]; [congruence|].
  inversion Hn as [|d' n' Hd Hn']; subst.
  unfold Plus.
  change (match_at (Seq (Cls items) (Star true (Cls items))) i
            ((d :: n) ++ rest) c k)
    with (match_at (Cls items) i (d :: n ++ rest) c
            (fun i' s' c' => match_at (Star true (Cls items)) i' s' c' k)).
  change (match_at (Cls items) i (d :: n ++ rest) c
            (fun i' s' c' => match_at (Star true (Cls items)) i' s' c' k))
    with (if existsb (item_mem d) items
          then match_at (Star true (Cls items)) (S i) (n ++ rest) c k
          else None).
  rewrite Hd.
  apply star_class_run; auto.
  rewrite <- Hk. f_equal. cbn [length]. lia.
Qed.

Lemma marker_parts : forall n t,
  marker n ++ t =
  ([10%N; 10%N] ++ lit "Value #") ++ n ++ (ch ":" :: [10%N; 10%N]) ++ t.
Proof.
  intros n t. unfold marker. repeat rewrite <- app_assoc. reflexivity.
Qed.

Lemma marker_length : forall n, length (marker n) = (12 + length n)%nat.
Proof.
  intros n. unfold marker. repeat rewrite length_app. simpl. lia.
Qed.

(** The pattern of the marker matches a marker, all of it. *)
Lemma marker_at : forall i n t,
  n <> [] -> digits n ->
  try_at ExtractUberData.value_marker i (marker n ++ t)
  = Some ((i + length (marker n))%nat, []).
Proof.
  intros i n t Hne Hn. unfold try_at, ExtractUberData.value_marker.
  rewrite marker_parts.
  set (k0 := fun (e : nat) (_ : str) (c : captures) => Some (e, c)).
  change (match_at (Str ([10%N; 10%N] ++ lit "Value #") +++ Plus digit
                    +++ Str (ch ":" :: [10%N; 10%N])) i
            (([10%N; 10%N] ++ lit "Value #") ++ n
             ++ (ch ":" :: [10%N; 10%N]) ++ t) [] k0)
    with (match_at (Str ([10%N; 10%N] ++ lit "Value #")) i
            (([10%N; 10%N] ++ lit "Value #") ++ n
             ++ (ch ":" :: [10%N; 10%N]) ++ t) []
            (fun i' s' c' =>
               match_at (Plus digit) i' s' c'
                 (fun i'' s'' c'' =>
                    match_at (Str (ch ":" :: [10%N; 10%N])) i'' s'' c'' k0))).
  rewrite match_at_str, is_prefix_refl.
  rewrite skipn_app, skipn_all, Nat.sub_diag. cbn [skipn app].
  apply plus_class_run.
  - exact Hne.
  - eapply Forall_impl; [|exact Hn]. intros y Hy. simpl. rewrite Hy.
    reflexivity.
  - reflexivity.
  - rewrite match_at_str.
    change (is_prefix (ch ":" :: [10%N; 10%N])
              (ch ":" :: 10%N :: 10%N :: t))
      with (is_prefix (ch ":" :: [10%N; 10%N])
              ((ch ":" :: [10%N; 10%N]) ++ t)).
    rewrite is_prefix_refl. unfold k0. f_equal. f_equal.
    rewrite marker_length. simpl. lia.
Qed.

Lemma is_prefix_app_l : forall a b s,
  is_prefix (a ++ b) s = true -> is_prefix a s = true.
Proof.
  induction a as [|x a IH]; intros b s H; [reflexivity|].
  destruct s as [|y s]; [discriminate|]. cbn [app is_prefix] in *.
  apply andb_true_iff in H. destruct H as [Hx Ha]. rewrite Hx.
  apply (IH b s Ha).
Qed.

(** No marker begins in a text that has no two line feeds before a [V],
    whether the text ends there or two line feeds follow. *)
Lemma no_marker_at : forall i c p t,
  is_prefix ([10%N; 10%N] ++ lit "V") (c :: p) = false ->
  t = [] \/ is_prefix [10%N; 10%N] t = true ->
  try_at ExtractUberData.value_marker i (c :: p ++ t) = None.
Proof.
  intros i c p t Hp Ht. unfold try_at, ExtractUberData.value_marker.
  set (k0 := fun (e : nat) (_ : str) (c : captures) => Some (e, c)).
  change (match_at (Str ([10%N; 10%N] ++ lit "Value #") +++ Plus digit
                    +++ Str (ch ":" :: [10%N; 10%N])) i (c :: p ++ t) [] k0)
    with (match_at (Str ([10%N; 10%N] ++ lit "Value #")) i (c :: p ++ t) []
            (fun i' s' c' =>
               match_at (Plus digit) i' s' c'
                 (fun i'' s'' c'' =>
                    match_at (Str (ch ":" :: [10%N; 10%N])) i'' s'' c'' k0))).
  rewrite match_at_str.
  assert (H3 : is_prefix ([10%N; 10%N] ++ lit "V") (c :: p ++ t) = false).
  { change ([10%N; 10%N] ++ lit "V") with [10%N; 10%N; 86%N] in *.
    destruct p as [|c' [|c'' p'']].
    - cbn [app]. destruct Ht as [->|Ht]; [exact Hp|].
      destruct t as [|t1 [|t2 t']]; try discriminate Ht.
      { cbn [is_prefix] in Ht. rewrite andb_false_r in Ht.
        discriminate Ht. }
      cbn [is_prefix] in *.
      apply andb_true_iff in Ht. destruct Ht as [_ Ht].
      apply andb_true_iff in Ht. destruct Ht as [Ht _].
      apply N.eqb_eq in Ht. subst t2.
      destruct (N.eqb 10 c); [|reflexivity].
      destruct (N.eqb 10 t1); reflexivity.
    - cbn [app]. destruct Ht as [->|Ht].
      + cbn [is_prefix]. destruct (N.eqb 10 c); [|reflexivity].
        destruct (N.eqb 10 c'); reflexivity.
      + destruct t as [|t1 t']; [discriminate Ht|].
        cbn [is_prefix] in Ht.
        apply andb_true_iff in Ht. destruct Ht as [Ht _].
        apply N.eqb_eq in Ht. subst t1. cbn [is_prefix].
        destruct (N.eqb 10 c); [|reflexivity].
        destruct (N.eqb 10 c'); reflexivity.
    - cbn [app is_prefix] in *. exact Hp. }
  destruct (is_prefix ([10%N; 10%N] ++ lit "Value #") (c :: p ++ t)) eqn:E;
    [|reflexivity].
  apply (is_prefix_app_l ([10%N; 10%N] ++ lit "V") (lit "alue #")) in E.
  congruence.
Qed.

Lemma no_marker_suffix : forall s j,
  no_marker s = true ->
  is_prefix ([10%N; 10%N] ++ lit "V") (skipn j s) = false.
Proof.
  intros s j H. apply str_in_suffix. unfold no_marker in H.
  destruct (str_in ([10%N; 10%N] ++ lit "V") s);
    [discriminate|reflexivity].
Qed.

(** In a text in which no marker begins, the pattern of the marker is not
    found. *)
Lemma search_piece_none : forall piece i,
  (forall j,
     is_prefix ([10%N; 10%N] ++ lit "V") (skipn j piece) = false) ->
  search_from ExtractUberData.value_marker i piece = None.
Proof.
  induction piece as [|c p IH]; intros i H.
  - reflexivity.
  - cbn [search_from].
    pose proof (no_marker_at i c p [] (H 0%nat) (or_introl eq_refl)) as Hn.
    rewrite app_nil_r in Hn. unfold try_at in Hn. rewrite Hn.
    apply IH. intros j. apply (H (S j)).
Qed.

(** In a piece followed by a marker, the first match of the pattern is
    the marker. *)
Lemma search_piece_marker : forall piece i n t,
  (forall j,
     is_prefix ([10%N; 10%N] ++ lit "V") (skipn j piece) = false) ->
  n <> [] -> digits n ->
  search_from ExtractUberData.value_marker i (piece ++ marker n ++ t)
  = Some (mk_match (i + length piece)
            (i + length piece + length (marker n)) []).
Proof.
  induction piece as [|c p IH]; intros i n t H Hne Hn.
  - cbn [app length]. rewrite Nat.add_0_r.
    pose proof (marker_at i n t Hne Hn) as Hm. unfold try_at in Hm.
    destruct (marker n ++ t) as [|y s] eqn:E.
    + unfold marker in E. discriminate E.
    + cbn [search_from]. rewrite Hm. reflexivity.
  - cbn [app search_from].
    pose proof (no_marker_at i c p (marker n ++ t) (H 0%nat)
                  (or_intror eq_refl)) as Hf.
    unfold try_at in Hf. rewrite Hf.
    rewrite (IH (S i) n t); auto.
    + f_equal. cbn [length]. f_equal; lia.
    + intros j. apply (H (S j)).
Qed.

(** [re.split] gives back the pieces that the markers separate. *)
Lemma split_joined : forall rest first,
  no_marker first = true ->
  Forall numbered_piece rest ->
  Re.split ExtractUberData.value_marker (joined first rest)
  = first :: map snd rest.
Proof.
  induction rest as [|[n piece] rest IH]; intros first Hf Hr.
  - cbn [joined map]. unfold Re.split.
    destruct first as [|c p] eqn:E; [reflexivity|].
    cbn [length Re.split_aux]. unfold search.
    rewrite search_piece_none; [reflexivity|].
    intros j. apply no_marker_suffix. exact Hf.
  - inversion Hr as [|np rest' (Hne & Hn & Hp) Hr']; subst.
    cbn [fst snd] in *. cbn [joined map snd].
    unfold Re.split.
    assert (Hlen : length (first ++ marker n ++ joined piece rest)
                   = S (length first + 11 + length n
                        + length (joined piece rest))).
    { repeat rewrite length_app. rewrite marker_length. lia. }
    rewrite Hlen. cbn [Re.split_aux]. unfold search.
    rewrite (search_piece_marker first 0 n (joined piece rest));
      [|intros j; apply no_marker_suffix; exact Hf|exact Hne|exact Hn].
    cbn [m_start m_end Nat.add].
    rewrite firstn_app, firstn_all, Nat.sub_diag. cbn [firstn].
    rewrite app_nil_r. f_equal.
    rewrite skipn_app.
    replace (length first + length (marker n) - length first)%nat
      with (length (marker n)) by lia.
    rewrite (skipn_all2 first) by lia. cbn [app].
    rewrite skipn_app, skipn_all, Nat.sub_diag. cbn [skipn app].
    rewrite (split_aux_fuel ExtractUberData.value_marker
               value_marker_progress) by lia.
    apply (IH piece Hp Hr').
Qed.

(** The loop over the pieces, when no piece makes the decoder raise
    anything but a decoding error. *)
Lemma parse_parts_somes : forall recursion_limit parts rs parsed,
  Forall2 (fun part r => ExtractUberData.parse_part recursion_limit part
                         = Ret r) parts rs ->
  ExtractUberData.parse_parts recursion_limit parts parsed
  = Ret (parsed ++ somes rs).
Proof.
  intros recursion_limit parts rs parsed H. revert parsed.
  induction H as [|part r parts rs Hp _ IH]; intros parsed.
  - simpl. rewrite app_nil_r. reflexivity.
  - cbn [ExtractUberData.parse_parts]. rewrite Hp. cbn [bind].
    rewrite IH. destruct r as [v|]; cbn [somes].
    + rewrite <- app_assoc. reflexivity.
    + reflexivity.
Qed.

End MarkerFacts.

(* ================================================================== *)
(** * The demonstration                                                *)
(* ================================================================== *)

Module DemoFacts.

Import Py Re PyLib Spec Terms.
Import ListFacts RowFacts SortFacts PassengerFacts.
Local Open Scope list_scope.

Lemma print_is_one_line : forall (L : Type) (l : L), print l = ([l], Ret tt).
Proof. reflexivity. Qed.





(** ** The names outside the known family *)

Lemma set_add_in : forall x s y, In y (set_add x s) <-> In y s \/ y = x.
Proof.
  intros x s y. unfold set_add, set_mem.
  destruct (existsb (str_eqb x) s) eqn:E.
  - apply existsb_str_in in E. split; [auto|]. intros [H| ->]; auto.
  - rewrite in_app_iff. simpl. split.
    + intros [H|[H|[]]]; auto.
    + intros [H|H]; auto.
Qed.

Lemma set_add_nodup : forall x s, NoDup s -> NoDup (set_add x s).
Proof.
  intros x s H. unfold set_add, set_mem.
  destruct (existsb (str_eqb x) s) eqn:E; [exact H|].
  apply NoDup_app; [exact H|repeat constructor; auto|].
  intros y Hy [<-|[]]. apply existsb_str_in in Hy. congruence.
Qed.

Lemma unknown_names_fold : forall ps unknown,
  NoDup unknown ->
  let unknown' :=
    fold_left
      (fun unknown name =>
         match name with
         | Some n =>
             if negb (set_mem n ExtractUberDataScript.known_family)
             then set_add n unknown else unknown
         | None => unknown
         end) ps unknown in
  NoDup unknown' /\
  forall n, In n unknown' <->
            In n unknown \/
            (In (Some n) ps /\ ~ In n ExtractUberDataScript.known_family).
Proof.
  induction ps as [|p ps IH]; intros unknown Hnd; cbv zeta.
  - simpl. split; [exact Hnd|]. intros n. split; [auto|].
    intros [H|[[] _]]. exact H.
  - cbn [fold_left]. destruct p as [name|].
    + destruct (set_mem name ExtractUberDataScript.known_family) eqn:E;
        cbn [negb].
      * destruct (IH unknown Hnd) as [H1 H2]. split; [exact H1|].
        intros n. rewrite H2. split.
        -- intros [H|[H Hk]]; auto. right. split; [right; exact H|exact Hk].
        -- intros [H|[[H|H] Hk]]; auto.
           injection H as <-. exfalso. apply Hk.
           apply existsb_str_in. exact E.
      * destruct (IH (set_add name unknown) (set_add_nodup _ _ Hnd))
          as [H1 H2].
        split; [exact H1|]. intros n. rewrite H2, set_add_in. split.
        -- intros [[H| ->]|[H Hk]]; auto.
           ++ right. split; [left; reflexivity|].
              intros Hin. apply existsb_str_in in Hin.
              unfold set_mem in E. congruence.
           ++ right. split; [right; exact H|exact Hk].
        -- intros [H|[[H|H] Hk]]; auto. injection H as <-. auto.
    + destruct (IH unknown Hnd) as [H1 H2]. split; [exact H1|].
      intros n. rewrite H2. split.
      * intros [H|[H Hk]]; auto. right. split; [right; exact H|exact Hk].
      * intros [H|[[H|H] Hk]]; auto. discriminate H.
Qed.

(** ** The reports *)




Section Reports.

Variable family_order : list str.
Variable recursion_limit : nat.
Variable float_sum : list float -> float.




End Reports.

End DemoFacts.

(* ================================================================== *)
(** * The properties of the specification                             *)
(* ================================================================== *)

Import Py Re Spec.
Import ListFacts StrFacts ReFacts BatchFacts DateFacts AmountFacts ExtractFacts.
Import PassengerFacts ParseFacts.
Local Open Scope list_scope.

(** C1.  For every input list of records, the four lists that
    [extract_uber_data] returns have one length, the number of records for
    which a cost and a currency were extracted; when that number is zero
    the call raises the no-receipt error instead.  A record counts exactly
    when the cost-and-currency step succeeds on its body.  The error about
    inconsistent lengths is raised for no input at all. *)
Theorem C1_parallel_output_lists :
  forall family_order recursion_limit,
    (forall emails : list value,
       let n :=
         length (filter (accepted family_order recursion_limit) emails) in
       match ExtractUberData.extract_uber_data
               family_order recursion_limit (VList emails) with
       | Ret (ds, ps, cs, cus) =>
           length ds = n /\ length ps = n /\ length cs = n /\
           length cus = n /\ n <> 0%nat
       | Raise e => e = ValueError_NoValidReceipts /\ n = 0%nat
       end) /\
    (forall email,
       accepted family_order recursion_limit email
       = has_total recursion_limit email) /\
    (forall (input : value) a b c d,
       ExtractUberData.extract_uber_data family_order recursion_limit input
         <> Raise (ValueError_Inconsistent a b c d)).
Proof.
  intros family_order recursion_limit. split; [|split].
  - intros emails n.
    rewrite (Lenient.extract_uber_data_records family_order recursion_limit
               (VList emails) emails eq_refl).
    destruct (Lenient.validate_fold family_order recursion_limit emails)
      as (H1 & H2 & H3 & H4 & Hv).
    fold n in H1, H2, H3, H4, Hv. rewrite Hv.
    destruct (Nat.eqb n 0) eqn:E.
    + apply Nat.eqb_eq in E. auto.
    + apply Nat.eqb_neq in E. auto.
  - apply accepted_has_total.
  - intros input a b c d H.
    destruct (input_records family_order recursion_limit input)
      as [items|e] eqn:Ei.
    + rewrite (Lenient.extract_uber_data_records family_order
                 recursion_limit input items Ei) in H.
      destruct (Lenient.validate_fold family_order recursion_limit items)
        as (_ & _ & _ & _ & Hv).
      rewrite Hv in H. destruct (Nat.eqb _ 0); discriminate.
    + unfold ExtractUberData.extract_uber_data, input_records in *.
      destruct (match input with
                | VStr s => ExtractUberData.parse_emails recursion_limit s
                | _ => Ret input
                end) as [v|e'] eqn:Ep; cbn [bind] in *.
      * rewrite Ei in H. inversion H; subst e.
        destruct v; simpl in Ei; discriminate.
      * inversion H; subst e'. destruct input; try discriminate.
        unfold ExtractUberData.parse_emails, try_except in Ep.
        destruct (match Json.loads recursion_limit s with
                  | Ret _ => _ | Raise _ => _ end); discriminate.
Qed.

(** C2, as amended.  Text that the decoder refuses and that has no [{] in
    it is read as an empty list of records, so [extract_uber_data] raises
    the no-receipt validation error, not a parse error.  The parse error is
    raised only when the decoder, on the text or on a fragment of it, raises
    something else than a decoding error. *)
Theorem C2_malformed_text :
  forall family_order recursion_limit s,
    (Json.loads recursion_limit s = Raise JSONDecodeError ->
     contains (ch "{") s = false ->
     ExtractUberData.extract_uber_data family_order recursion_limit (VStr s)
       = Raise ValueError_NoValidReceipts) /\
    (forall cause,
       ExtractUberData.extract_uber_data family_order recursion_limit (VStr s)
         = Raise (ValueError_FailedToParse cause) ->
       is_JSONDecodeError cause = false /\
       exists frag,
         infix frag s /\ Json.loads recursion_limit frag = Raise cause).
Proof.
  intros family_order recursion_limit s. split.
  - intros Hl Hc. unfold ExtractUberData.extract_uber_data.
    rewrite (parse_emails_no_brace recursion_limit s Hl Hc). reflexivity.
  - intros cause H. unfold ExtractUberData.extract_uber_data in H.
    destruct (ExtractUberData.parse_emails recursion_limit s) as [v|e] eqn:Ep;
      cbn [bind] in H.
    + destruct (parse_emails_ret _ _ _ Ep) as (l & ->). cbn [py_iter bind] in H.
      destruct (Lenient.validate_fold family_order recursion_limit l)
        as (_ & _ & _ & _ & Hv).
      rewrite Hv in H. destruct (Nat.eqb _ 0); discriminate.
    + destruct (parse_emails_raise _ _ _ Ep)
        as (cause' & frag & -> & Hn & Hf & Hl).
      inversion H; subst. split; [exact Hn|]. exists frag. auto.
Qed.

(** Instances: a text without any record, and an array nested deeper than
    the decoder has room for. *)
Lemma C2_witness :
  (Json.loads 1000 (lit "Value #1: no receipt") = Raise JSONDecodeError /\
   contains (ch "{") (lit "Value #1: no receipt") = false /\
   ExtractUberData.extract_uber_data ExtractUberData.family_members 1000
     (VStr (lit "Value #1: no receipt")) = Raise ValueError_NoValidReceipts) /\
  (ExtractUberData.extract_uber_data ExtractUberData.family_members 3
     (VStr (lit "[[[[1]]]]")) = Raise (ValueError_FailedToParse RecursionError) /\
   exists frag,
     infix frag (lit "[[[[1]]]]") /\ Json.loads 3 frag = Raise RecursionError).
Proof.
  assert (H1 : Json.loads 1000 (lit "Value #1: no receipt")
               = Raise JSONDecodeError) by run.
  assert (H2 : contains (ch "{") (lit "Value #1: no receipt") = false) by run.
  assert (H3 : ExtractUberData.extract_uber_data
                 ExtractUberData.family_members 3 (VStr (lit "[[[[1]]]]"))
               = Raise (ValueError_FailedToParse RecursionError)) by run.
  split.
  - split; [exact H1|]. split; [exact H2|].
    exact (proj1 (C2_malformed_text ExtractUberData.family_members 1000
                    (lit "Value #1: no receipt")) H1 H2).
  - split; [exact H3|].
    exact (proj2 (proj2 (C2_malformed_text ExtractUberData.family_members 3
                           (lit "[[[[1]]]]")) RecursionError H3)).
Defined.

(** C2 fails as stated: the text "not json" is no JSON, has no marker and
    no [{], and the error raised for it is the no-receipt validation
    error. *)
Lemma C2_counterexample :
  Json.loads 1000 (lit "not json") = Raise JSONDecodeError /\
  search ExtractUberData.value_marker (lit "not json") = None /\
  contains (ch "{") (lit "not json") = false /\
  ExtractUberData.extract_uber_data ExtractUberData.family_members 1000
    (VStr (lit "not json")) = Raise ValueError_NoValidReceipts.
Proof. repeat split; run. Qed.

(** C3, as amended.  When none of the records that [extract_uber_data]
    loops over is accepted, it raises the no-receipt validation error;
    [function] of [process_uber_receipts.py] has no such check and returns
    four empty lists. *)
Theorem C3_zero_accepted_records :
  forall family_order recursion_limit,
    (forall emails items,
       input_records family_order recursion_limit emails = Ret items ->
       filter (accepted family_order recursion_limit) items = [] ->
       ExtractUberData.extract_uber_data family_order recursion_limit emails
         = Raise ValueError_NoValidReceipts) /\
    (forall items,
       filter accepted_strict items = [] ->
       ProcessUberReceipts.function (VList items) = Ret ([], [], [], [])).
Proof.
  intros family_order recursion_limit. split.
  - intros emails items Hi Hn.
    rewrite (Lenient.extract_uber_data_records family_order recursion_limit
               emails items Hi).
    destruct (Lenient.validate_fold family_order recursion_limit items)
      as (_ & _ & _ & _ & Hv).
    rewrite Hv, Hn. reflexivity.
  - intros items Hn.
    destruct (Strict.function_fold items) as (H1 & H2 & H3 & H4 & Hf).
    rewrite Hn in H1, H2, H3, H4. simpl in H1, H2, H3, H4.
    apply length_zero_iff_nil in H1, H2, H3, H4.
    rewrite Hf, H1, H2, H3, H4. reflexivity.
Qed.

(** An instance: one record whose body holds no amount. *)
Lemma C3_witness :
  filter (accepted ExtractUberData.family_members 1000)
    [record (lit "hello")] = [] /\
  ExtractUberData.extract_uber_data ExtractUberData.family_members 1000
    (VList [record (lit "hello")]) = Raise ValueError_NoValidReceipts /\
  ProcessUberReceipts.function (VList [record (lit "hello")])
    = Ret ([], [], [], []).
Proof.
  assert (H1 : filter (accepted ExtractUberData.family_members 1000)
                 [record (lit "hello")] = []) by run.
  split; [exact H1|]. split.
  - exact (proj1 (C3_zero_accepted_records
                    ExtractUberData.family_members 1000)
             (VList [record (lit "hello")]) [record (lit "hello")]
             eq_refl H1).
  - apply (proj2 (C3_zero_accepted_records
                    ExtractUberData.family_members 1000)
             [record (lit "hello")]).
    run.
Defined.

(** C3 does not hold of [function]: on a list with one record from which
    nothing can be extracted it returns four empty lists and raises
    nothing. *)
Lemma C3_counterexample :
  filter accepted_strict [record (lit "hello")] = [] /\
  ProcessUberReceipts.function (VList [record (lit "hello")])
    = Ret ([], [], [], []).
Proof. split; run. Qed.

(** C4.  When the keyword pattern does not match the body, the cost and the
    currency are read from the match of the relaxed pattern that starts
    first in the body (no text of that pattern starts before it), and the
    record is accepted; when no piece of the body is a text of the relaxed
    pattern either, both are absent and the record adds nothing to the
    output lists. *)
Theorem C4_fallback_pattern :
  forall family_order recursion_limit body,
    search ExtractUberData.total_pattern body = None ->
    match search ExtractUberData.total_pattern2 body with
    | Some m =>
        lang ExtractUberData.total_pattern2
          (slice (m_start m) (m_end m) body) /\
        (forall j e, (j < m_start m)%nat -> (j <= e <= length body)%nat ->
           ~ lang ExtractUberData.total_pattern2 (slice j e body)) /\
        exists amt cur c,
          group body m 1 = Some amt /\ group body m 2 = Some cur /\
          py_float (replace (ch ",") (ch ".") amt) = Ret c /\
          ExtractUberData.extract_total body = Ret (Some c, Some cur) /\
          accepted family_order recursion_limit (record body) = true
    | None =>
        (forall j e, (j <= e <= length body)%nat ->
           ~ lang ExtractUberData.total_pattern2 (slice j e body)) /\
        ExtractUberData.extract_total body = Ret (None, None) /\
        accepted family_order recursion_limit (record body) = false /\
        forall out,
          ExtractUberData.process_email family_order recursion_limit out
            (record body) = out
    end.
Proof.
  intros family_order recursion_limit body H1.
  destruct (search ExtractUberData.total_pattern2 body) as [m|] eqn:H2.
  - destruct (search_sound _ _ _ H2) as (_ & Hl & _).
    split; [exact Hl|].
    split; [exact (search_leftmost _ _ _ H2)|].
    destruct (relaxed_total body m H2) as (amt & cur & c & Hg1 & Hg2 & _ & Hc).
    pose proof (extract_total_relaxed body m amt cur c H1 H2 Hg1 Hg2 Hc)
      as Hx.
    destruct (record_receipt family_order recursion_limit body _ _ Hx)
      as (d & p & _ & _ & Hr).
    exists amt, cur, c. repeat (split; [assumption|]).
    unfold accepted. rewrite Hr. reflexivity.
  - assert (Ht : ExtractUberData.extract_total body = Ret (None, None)).
    { unfold ExtractUberData.extract_total. rewrite H1, H2. reflexivity. }
    split; [apply search_none_iff; exact H2|]. split; [exact Ht|].
    destruct (record_receipt family_order recursion_limit body None None Ht)
      as (d & p & _ & _ & Hr).
    assert (Ha : accepted family_order recursion_limit (record body) = false).
    { unfold accepted. rewrite Hr. reflexivity. }
    split; [exact Ha|]. intros out.
    destruct (Lenient.process_email_cases family_order recursion_limit
                out (record body)) as [[_ Hs]|[Hok _]]; [exact Hs|congruence].
Qed.

(** An instance: a body without any number. *)
Lemma C4_witness :
  search ExtractUberData.total_pattern (lit "Tack!") = None /\
  search ExtractUberData.total_pattern2 (lit "Tack!") = None /\
  accepted ExtractUberData.family_members 1000 (record (lit "Tack!")) = false.
Proof.
  assert (H1 : search ExtractUberData.total_pattern (lit "Tack!") = None)
    by run.
  assert (H2 : search ExtractUberData.total_pattern2 (lit "Tack!") = None)
    by run.
  pose proof (C4_fallback_pattern ExtractUberData.family_members 1000
                (lit "Tack!") H1) as H.
  rewrite H2 in H. split; [exact H1|]. split; [exact H2|].
  exact (proj1 (proj2 (proj2 H))).
Defined.

(** C5.  The conversion maps "5 juli 2025" to "2025-07-05" and
    "31 december 1999" to "1999-12-31".  It returns for every text, and it
    returns no date when the text does not split into three parts or when
    its second part, in lower case, is not a key of the month table.  The
    copy in [process_uber_receipts.py] behaves alike. *)
Theorem C5_date_conversion :
  (ExtractUberData.convert_swedish_date_to_iso (lit "5 juli 2025")
     = Ret (Some (lit "2025-07-05")) /\
   ExtractUberData.convert_swedish_date_to_iso (lit "31 december 1999")
     = Ret (Some (lit "1999-12-31"))) /\
  (forall s, exists r,
     ExtractUberData.convert_swedish_date_to_iso s = Ret r) /\
  (forall s,
     length (Py.split s) <> 3%nat ->
     ExtractUberData.convert_swedish_date_to_iso s = Ret None) /\
  (forall s d m y,
     Py.split s = [d; m; y] ->
     ~ In (lower m) (map fst ExtractUberData.swedish_months) ->
     ExtractUberData.convert_swedish_date_to_iso s = Ret None) /\
  (forall s,
     ProcessUberReceipts.convert_swedish_date_to_iso s =
     ExtractUberData.convert_swedish_date_to_iso s).
Proof.
  split; [split; run|].
  split; [intros s; rewrite convert_cases; eauto|].
  split; [|split].
  - intros s H. rewrite convert_cases.
    destruct (Py.split s) as [|d [|m [|y [|z parts]]]]; try reflexivity.
    exfalso. apply H. reflexivity.
  - intros s d m y Hs Hm. rewrite convert_cases, Hs.
    rewrite (month_lookup_none _ _ Hm). reflexivity.
  - exact convert_same.
Qed.

(** Instances: a text of two parts, and an English month name. *)
Lemma C5_witness :
  (length (Py.split (lit "juli 2025")) <> 3%nat /\
   ExtractUberData.convert_swedish_date_to_iso (lit "juli 2025")
     = Ret None) /\
  (Py.split (lit "5 july 2025") = [lit "5"; lit "july"; lit "2025"] /\
   ExtractUberData.convert_swedish_date_to_iso (lit "5 july 2025")
     = Ret None).
Proof.
  assert (H1 : length (Py.split (lit "juli 2025")) <> 3%nat)
    by (vm_compute; discriminate).
  assert (H2 : Py.split (lit "5 july 2025")
               = [lit "5"; lit "july"; lit "2025"]) by run.
  split; (split; [assumption|]).
  - exact (proj1 (proj2 (proj2 C5_date_conversion)) (lit "juli 2025") H1).
  - apply (proj1 (proj2 (proj2 (proj2 C5_date_conversion)))
             (lit "5 july 2025") (lit "5") (lit "july") (lit "2025") H2).
    vm_compute. intuition discriminate.
Defined.

(** C6.  Replacing [,] by [.] in an amount, wherever it stands in a body,
    does not change the cost that is extracted, by either module: neither
    the cost that the cost-and-currency step finds nor the cost of the
    record.  In particular "123,45" and "123.45" both give 123.45, after
    the keyword as well as through the relaxed pattern. *)
Theorem C6_decimal_separator :
  (forall pre amt post,
     cost_of (ExtractUberData.extract_total (pre ++ amt ++ post)) =
     cost_of (ExtractUberData.extract_total
                (pre ++ replace (ch ",") (ch ".") amt ++ post))) /\
  (forall family_order recursion_limit pre amt post,
     receipt_cost
       (ExtractUberData.extract_receipt_from_email family_order
          recursion_limit (record (pre ++ amt ++ post))) =
     receipt_cost
       (ExtractUberData.extract_receipt_from_email family_order
          recursion_limit
          (record (pre ++ replace (ch ",") (ch ".") amt ++ post)))) /\
  (forall pre amt post,
     cost_of (ProcessUberReceipts.extract_total (pre ++ amt ++ post)) =
     cost_of (ProcessUberReceipts.extract_total
                (pre ++ replace (ch ",") (ch ".") amt ++ post))) /\
  (forall pre amt post,
     strict_receipt_cost
       (ProcessUberReceipts.extract_single_receipt
          (record (pre ++ amt ++ post))) =
     strict_receipt_cost
       (ProcessUberReceipts.extract_single_receipt
          (record (pre ++ replace (ch ",") (ch ".") amt ++ post)))) /\
  ExtractUberData.extract_total (lit "Totalt 123,45 kr")
    = Ret (Some float_123_45, Some (lit "kr")) /\
  ExtractUberData.extract_total (lit "Totalt 123.45 kr")
    = Ret (Some float_123_45, Some (lit "kr")) /\
  ExtractUberData.extract_total (lit "123,45 kr")
    = Ret (Some float_123_45, Some (lit "kr")) /\
  ExtractUberData.extract_total (lit "123.45 kr")
    = Ret (Some float_123_45, Some (lit "kr")) /\
  ProcessUberReceipts.extract_total (lit "Totalt 123,45 kr")
    = Ret (Some float_123_45, Some (lit "kr")) /\
  ProcessUberReceipts.extract_total (lit "Totalt 123.45 kr")
    = Ret (Some float_123_45, Some (lit "kr")).
Proof.
  assert (H : forall pre amt post,
            Forall2 sep_equiv (pre ++ amt ++ post)
              (pre ++ replace (ch ",") (ch ".") amt ++ post)).
  { intros pre amt post. apply Forall2_app; [apply Forall2_sep_refl|].
    apply Forall2_app; [apply Forall2_sep_replace|apply Forall2_sep_refl]. }
  split; [intros; apply extract_total_blind, H|].
  split; [intros; rewrite !receipt_cost_total; apply extract_total_blind, H|].
  split; [intros; apply strict_extract_total_blind, H|].
  split; [intros; rewrite !strict_receipt_cost_total;
          apply strict_extract_total_blind, H|].
  repeat split; run.
Qed.

(** C7, as amended.  Take a body in which the keyword pattern matches,
    with the cancellation-fee keyword or the other one.  When the amount
    has a digit and at most one separator, the record has a cost and a
    currency and adds one entry to each output list, whatever the date and
    the passenger; "Avbokningsavgift 50 kr" is accepted with neither.  When
    the amount has no digit or several separators, [float] raises and the
    record is dropped. *)
Theorem C7_cancellation_record :
  forall family_order recursion_limit,
    (forall body m amt,
       search ExtractUberData.total_pattern body = Some m ->
       group body m 2 = Some amt ->
       (plain_amount amt = true ->
        exists c cur d p,
          py_float (replace (ch ",") (ch ".") amt) = Ret c /\
          group body m 3 = Some cur /\
          ExtractUberData.extract_receipt_from_email family_order
            recursion_limit (record body)
            = Ret (ExtractUberData.mk_receipt (Some c) (Some cur) d p) /\
          accepted family_order recursion_limit (record body) = true /\
          forall out,
            ExtractUberData.process_email family_order recursion_limit out
              (record body)
            = ExtractUberData.mk_columns
                (ExtractUberData.dates out ++ [d])
                (ExtractUberData.passenger_names out ++ [p])
                (ExtractUberData.costs out ++ [c])
                (ExtractUberData.currencies out ++ [cur])) /\
       (plain_amount amt = false ->
        ExtractUberData.extract_receipt_from_email family_order
          recursion_limit (record body) = Raise ValueError_float /\
        accepted family_order recursion_limit (record body) = false /\
        forall out,
          ExtractUberData.process_email family_order recursion_limit out
            (record body) = out)) /\
    (Permutation family_order ExtractUberData.family_members ->
     ExtractUberData.extract_receipt_from_email family_order recursion_limit
       (record (lit "Avbokningsavgift 50 kr"))
     = Ret (ExtractUberData.mk_receipt (Some float_50) (Some (lit "kr"))
              None None)).
Proof.
  intros family_order recursion_limit. split.
  - intros body m amt Hs Hg. split.
    + intros Hp. destruct (float_plain_amount amt Hp) as (c & Hc).
      destruct (extract_total_primary body m amt c Hs Hg Hc)
        as (cur & Hg3 & Ht).
      destruct (record_receipt family_order recursion_limit body _ _ Ht)
        as (d & p & _ & _ & Hr).
      exists c, cur, d, p.
      split; [exact Hc|]. split; [exact Hg3|]. split; [exact Hr|].
      split; [unfold accepted; rewrite Hr; reflexivity|].
      intros out. unfold ExtractUberData.process_email. rewrite Hr.
      reflexivity.
    + intros Hp. pose proof (float_not_plain amt Hp) as Hf.
      assert (Ht : ExtractUberData.extract_total body
                   = Raise ValueError_float).
      { unfold ExtractUberData.extract_total, ExtractUberData.group_str.
        rewrite Hs, Hg. cbn [bind]. rewrite Hf. reflexivity. }
      pose proof (record_raise family_order recursion_limit body _ Ht) as Hr.
      split; [exact Hr|].
      split; [unfold accepted; rewrite Hr; reflexivity|].
      intros out. unfold ExtractUberData.process_email. rewrite Hr.
      reflexivity.
  - intros Hperm. rewrite record_extraction.
    assert (Ht : ExtractUberData.extract_total (lit "Avbokningsavgift 50 kr")
                 = Ret (Some float_50, Some (lit "kr")))
      by (run).
    assert (Hd : ExtractUberData.extract_date (lit "Avbokningsavgift 50 kr")
                 = Ret None) by (run).
    rewrite Ht, Hd. cbn [bind fst snd].
    unfold ExtractUberData.extract_passenger.
    assert (Hs : search ExtractUberData.passenger_pattern
                   (lit "Avbokningsavgift 50 kr") = None)
      by (run).
    rewrite Hs, by_known_name_none.
    + vm_compute. reflexivity.
    + intros name Hn. apply (Permutation_in _ Hperm) in Hn.
      unfold ExtractUberData.family_members in Hn. simpl in Hn.
      repeat (destruct Hn as [<-|Hn]; [run|]).
      contradiction.
Qed.

(** Instances: a plain cancellation fee, and an amount with two
    separators. *)
Lemma C7_witness :
  accepted ExtractUberData.family_members 1000
    (record (lit "Avbokningsavgift 50 kr")) = true /\
  accepted ExtractUberData.family_members 1000
    (record (lit "Totalt 1,5,0 kr")) = false.
Proof.
  split.
  - destruct (proj1 (proj1 (C7_cancellation_record
                              ExtractUberData.family_members 1000)
                       (lit "Avbokningsavgift 50 kr")
                       (mk_match 0 22 [(3, (20, 22)); (2, (17, 19));
                                       (1, (0, 16))])%nat
                       (lit "50")
                       ltac:(run)
                       ltac:(run))
                ltac:(run))
      as (c & cur & d & p & _ & _ & _ & Ha & _).
    exact Ha.
  - exact (proj1 (proj2 (proj2 (proj1 (C7_cancellation_record
                                  ExtractUberData.family_members 1000)
                           (lit "Totalt 1,5,0 kr")
                           (mk_match 0 15 [(3, (13, 15)); (2, (7, 12));
                                           (1, (0, 6))])%nat
                           (lit "1,5,0")
                           ltac:(run)
                           ltac:(run))
                    ltac:(run)))).
Defined.

(** C7 fails as stated: the body "Avbokningsavgift 1.234,50 kr" has the
    cancellation-fee keyword, an amount and a currency, and no greeting;
    the extraction raises on the amount and the record is not accepted. *)
Lemma C7_counterexample :
  (exists m,
     search ExtractUberData.total_pattern
       (lit "Avbokningsavgift 1.234,50 kr") = Some m /\
     group (lit "Avbokningsavgift 1.234,50 kr") m 1
       = Some (lit "Avbokningsavgift") /\
     group (lit "Avbokningsavgift 1.234,50 kr") m 2 = Some (lit "1.234,50") /\
     group (lit "Avbokningsavgift 1.234,50 kr") m 3 = Some (lit "kr")) /\
  search ExtractUberData.passenger_pattern
    (lit "Avbokningsavgift 1.234,50 kr") = None /\
  ExtractUberData.extract_receipt_from_email ExtractUberData.family_members
    1000 (record (lit "Avbokningsavgift 1.234,50 kr"))
    = Raise ValueError_float /\
  accepted ExtractUberData.family_members 1000
    (record (lit "Avbokningsavgift 1.234,50 kr")) = false /\
  ExtractUberData.extract_uber_data ExtractUberData.family_members 1000
    (VList [record (lit "Avbokningsavgift 1.234,50 kr")])
    = Raise ValueError_NoValidReceipts.
Proof.
  split.
  - eexists. split; [run|].
    repeat split; run.
  - repeat split; run.
Qed.

(** C8.  Suppose that the greeting pattern does not match the body and that
    no pattern built around a known name does, so that the passenger comes
    from the first general pattern that matches.  The text it captures is
    then emitted in the stored spelling of the known name that it equals up
    to the case of its letters, and as it stands when there is no such
    name.  This holds for every order in which the set of names is
    iterated. *)
Theorem C8_roster_casing :
  forall family_order recursion_limit body m g,
    Permutation family_order ExtractUberData.family_members ->
    search ExtractUberData.passenger_pattern body = None ->
    (forall name, In name ExtractUberData.family_members ->
       ExtractUberData.name_found body name = false) ->
    first_match body ExtractUberData.general_patterns = Some m ->
    group body m 1 = Some g ->
    (forall member,
       In member ExtractUberData.family_members ->
       lower g = lower member ->
       ExtractUberData.extract_passenger family_order body
         = Ret (Some member) /\
       forall r,
         ExtractUberData.extract_receipt_from_email family_order
           recursion_limit (record body) = Ret r ->
         ExtractUberData.passenger r = Some member) /\
    ((forall member,
        In member ExtractUberData.family_members ->
        lower g <> lower member) ->
     ExtractUberData.extract_passenger family_order body = Ret (Some g) /\
     forall r,
       ExtractUberData.extract_receipt_from_email family_order
         recursion_limit (record body) = Ret r ->
       ExtractUberData.passenger r = Some g).
Proof.
  intros family_order recursion_limit body m g Hperm Hgreet Hnames Hfirst Hg.
  assert (Hrec : forall p,
            ExtractUberData.extract_passenger family_order body = Ret p ->
            forall r,
              ExtractUberData.extract_receipt_from_email family_order
                recursion_limit (record body) = Ret r ->
              ExtractUberData.passenger r = p).
  { intros p Hp r Hr. rewrite record_extraction, Hp in Hr.
    destruct (ExtractUberData.extract_total body); [|discriminate].
    cbn [bind] in Hr.
    destruct (ExtractUberData.extract_date body); [|discriminate].
    cbn [bind] in Hr. inversion Hr; subst. reflexivity. }
  assert (Hpass : ExtractUberData.extract_passenger family_order body =
            Ret (let passenger :=
                   ExtractUberData.canonical g family_order None in
                 if truthy passenger then passenger else Some g)).
  { unfold ExtractUberData.extract_passenger. rewrite Hgreet.
    rewrite by_known_name_none.
    - cbn [truthy negb].
      rewrite (by_general_pattern_first family_order body _ None m Hfirst).
      destruct (general_capture body m Hfirst) as (g' & Hg' & Hs' & Hstrip).
      rewrite Hg in Hg'. inversion Hg'; subst g'.
      rewrite Hs'. cbn [bind]. rewrite Hstrip. reflexivity.
    - intros name Hn. apply Hnames. apply (Permutation_in _ Hperm). exact Hn. }
  split.
  - intros member Hin Hl.
    assert (Hin' : In member family_order)
      by (apply (Permutation_in _ (Permutation_sym Hperm)); exact Hin).
    destruct (canonical_found g family_order None member Hin' Hl)
      as (member' & Hc & Hm' & Hl').
    assert (member' = member).
    { apply family_lower_injective; auto.
      - apply (Permutation_in _ Hperm). exact Hm'.
      - congruence. }
    subst member'.
    assert (Hp : ExtractUberData.extract_passenger family_order body
                 = Ret (Some member)).
    { rewrite Hpass. cbv zeta. rewrite Hc.
      rewrite (family_not_empty member Hin). reflexivity. }
    split; [exact Hp|]. apply Hrec. exact Hp.
  - intros Hnone.
    assert (Hp : ExtractUberData.extract_passenger family_order body
                 = Ret (Some g)).
    { rewrite Hpass. cbv zeta. rewrite canonical_none; [reflexivity|].
      intros member Hin. apply Hnone.
      apply (Permutation_in _ Hperm). exact Hin. }
    split; [exact Hp|]. apply Hrec. exact Hp.
Qed.

(** Instances: a known name in lower case, and an unknown name. *)
Lemma C8_witness :
  ExtractUberData.extract_passenger ExtractUberData.family_members
    (lit "Tack fredrik!") = Ret (Some (lit "Fredrik")) /\
  ExtractUberData.extract_passenger ExtractUberData.family_members
    (lit "Tack Bob!") = Ret (Some (lit "Bob")).
Proof.
  split.
  - apply (proj1 (C8_roster_casing ExtractUberData.family_members 1000
                    (lit "Tack fredrik!")
                    (mk_match 0 13 [(1, (5, 12))])%nat (lit "fredrik")
                    (Permutation_refl _)
                    ltac:(run)
                    ltac:(intros name Hn; simpl in Hn;
                          repeat (destruct Hn as [<-|Hn];
                                  [run|]);
                          contradiction)
                    ltac:(run)
                    ltac:(run))
             (lit "Fredrik")).
    + simpl. auto.
    + vm_compute. reflexivity.
  - apply (proj2 (C8_roster_casing ExtractUberData.family_members 1000
                    (lit "Tack Bob!")
                    (mk_match 0 9 [(1, (5, 8))])%nat (lit "Bob")
                    (Permutation_refl _)
                    ltac:(run)
                    ltac:(intros name Hn; simpl in Hn;
                          repeat (destruct Hn as [<-|Hn];
                                  [run|]);
                          contradiction)
                    ltac:(run)
                    ltac:(run))).
    intros member Hn. simpl in Hn.
    repeat (destruct Hn as [<-|Hn]; [vm_compute; discriminate|]).
    contradiction.
Defined.

(** C9.  The body "5 juli 2025" has no keyword line; the relaxed pattern
    takes "5" for the amount and "juli" for the currency, and the record is
    accepted with the cost 5.0 and the currency "juli". *)
Theorem C9_date_read_as_amount :
  forall family_order recursion_limit,
    search ExtractUberData.total_pattern (lit "5 juli 2025") = None /\
    ExtractUberData.extract_total (lit "5 juli 2025")
      = Ret (Some float_5, Some (lit "juli")) /\
    accepted family_order recursion_limit (record (lit "5 juli 2025"))
      = true /\
    exists p,
      ExtractUberData.extract_receipt_from_email family_order
        recursion_limit (record (lit "5 juli 2025"))
        = Ret (ExtractUberData.mk_receipt (Some float_5) (Some (lit "juli"))
                 (Some (lit "2025-07-05")) p) /\
      ExtractUberData.extract_uber_data family_order recursion_limit
        (VList [record (lit "5 juli 2025")])
        = Ret ([Some (lit "2025-07-05")], [p], [float_5], [lit "juli"]).
Proof.
  intros family_order recursion_limit.
  assert (Ht : ExtractUberData.extract_total (lit "5 juli 2025")
               = Ret (Some float_5, Some (lit "juli")))
    by (run).
  destruct (record_receipt family_order recursion_limit _ _ _ Ht)
    as (d & p & Hd & _ & Hr).
  assert (Ed : ExtractUberData.extract_date (lit "5 juli 2025")
               = Ret (Some (lit "2025-07-05"))) by (run).
  rewrite Ed in Hd. inversion Hd; subst d.
  split; [run|]. split; [exact Ht|].
  split; [unfold accepted; rewrite Hr; reflexivity|].
  exists p. split; [exact Hr|].
  unfold ExtractUberData.extract_uber_data. cbn [bind py_iter fold_left].
  unfold ExtractUberData.process_email. rewrite Hr. reflexivity.
Qed.

(** C10.  For every text of three parts whose second part is a month name,
    the result is the year, the number of the month and the first part
    padded to two characters: neither the day nor the year is checked.  So
    "99 juli 2025" gives "2025-07-99", which has the shape of a date and
    names no day of the calendar.  The copy in [process_uber_receipts.py]
    behaves alike. *)
Theorem C10_no_calendar_validation :
  (forall s d m y mm,
     Py.split s = [d; m; y] ->
     ExtractUberData.month_lookup
       ExtractUberData.swedish_months (lower m) = Some mm ->
     ExtractUberData.convert_swedish_date_to_iso s
       = Ret (Some (y ++ lit "-" ++ mm ++ lit "-" ++ zfill 2 d)) /\
     ProcessUberReceipts.convert_swedish_date_to_iso s
       = Ret (Some (y ++ lit "-" ++ mm ++ lit "-" ++ zfill 2 d))) /\
  ExtractUberData.convert_swedish_date_to_iso (lit "99 juli 2025")
    = Ret (Some (lit "2025-07-99")) /\
  ProcessUberReceipts.convert_swedish_date_to_iso (lit "99 juli 2025")
    = Ret (Some (lit "2025-07-99")) /\
  iso_shaped (lit "2025-07-99") = true /\
  calendar_date (lit "2025-07-99") = false.
Proof.
  split.
  - intros s d m y mm Hs Hm.
    change (ProcessUberReceipts.convert_swedish_date_to_iso s)
      with (ExtractUberData.convert_swedish_date_to_iso s).
    rewrite convert_cases, Hs, Hm. auto.
  - repeat split; run.
Qed.

(** An instance: day zero of a year of five digits. *)
Lemma C10_witness :
  ExtractUberData.convert_swedish_date_to_iso (lit "0 Mars 12345")
    = Ret (Some (lit "12345-03-00")).
Proof.
  apply (proj1 (proj1 C10_no_calendar_validation
                  (lit "0 Mars 12345") (lit "0") (lit "Mars") (lit "12345")
                  (lit "03") eq_refl eq_refl)).
Defined.

(* ================================================================== *)
(** * Further properties of the two modules                            *)
(* ================================================================== *)

Import Py Re PyLib Spec Terms.
Import ListFacts StrFacts ReFacts BatchFacts DateFacts AmountFacts ExtractFacts.
Import PassengerFacts ParseFacts.
Import RowFacts FloatFacts ShapeFacts StrictFacts ScriptFacts SortFacts.
Import MarkerFacts DemoFacts.
Local Open Scope list_scope.

(** X1.  The k-th entries of the four lists that [extract_uber_data] returns
    are the date, the passenger, the cost and the currency extracted from
    the k-th accepted record of the input list: the lists are aligned, and
    they follow the order of the input. *)
Theorem X1_rows_of_extract_uber_data :
  forall family_order recursion_limit emails ds ps cs cus,
    ExtractUberData.extract_uber_data family_order recursion_limit
      (VList emails) = Ret (ds, ps, cs, cus) ->
    exists receipts,
      Forall2
        (fun email r =>
           ExtractUberData.extract_receipt_from_email family_order
             recursion_limit email = Ret r)
        (filter (accepted family_order recursion_limit) emails) receipts /\
      ds = map ExtractUberData.date receipts /\
      ps = map ExtractUberData.passenger receipts /\
      map Some cs = map ExtractUberData.cost receipts /\
      map Some cus = map ExtractUberData.currency receipts.
Proof.
  intros family_order recursion_limit emails ds ps cs cus H.
  rewrite extract_uber_data_rows in H.
  pose proof (rows_accepted family_order recursion_limit emails) as Hr.
  destruct (rows family_order recursion_limit emails) as [|r0 rs0] eqn:Er;
    [discriminate|].
  rewrite <- Er in *. clear Er r0 rs0.
  exists (map (fun r : row =>
                 ExtractUberData.mk_receipt (Some (snd (fst r)))
                   (Some (snd r)) (fst (fst (fst r))) (snd (fst (fst r))))
              (rows family_order recursion_limit emails)).
  unfold columns_of in H. injection H as <- <- <- <-.
  repeat rewrite map_map. simpl.
  repeat split; try reflexivity.
  induction Hr; simpl; constructor; assumption.
Qed.

Lemma X1_witness :
  exists receipts,
    Forall2
      (fun email r =>
         ExtractUberData.extract_receipt_from_email
           ExtractUberData.family_members 1000 email = Ret r)
      (filter (accepted ExtractUberData.family_members 1000)
         [record (lit "hello"); record (lit "Totalt 123,45 kr");
          VInt 3; record (lit "Avbokningsavgift 50 kr")])
      receipts /\
    [None; None] = map ExtractUberData.date receipts /\
    [None; None] = map ExtractUberData.passenger receipts /\
    map Some [float_123_45; float_50] = map ExtractUberData.cost receipts /\
    map Some [lit "kr"; lit "kr"] = map ExtractUberData.currency receipts.
Proof.
  apply (X1_rows_of_extract_uber_data ExtractUberData.family_members 1000
           [record (lit "hello"); record (lit "Totalt 123,45 kr");
            VInt 3; record (lit "Avbokningsavgift 50 kr")]).
  vm_compute. reflexivity.
Defined.

(** X2.  The same holds of [function] of [process_uber_receipts.py], which
    returns for every list: its four lists are the fields of the accepted
    records, in the order of the input. *)
Theorem X2_rows_of_function :
  forall emails,
    exists receipts cs cus,
      Forall2
        (fun email r =>
           ProcessUberReceipts.extract_single_receipt email = Ret r)
        (filter accepted_strict emails) receipts /\
      map Some cs = map ProcessUberReceipts.cost receipts /\
      map Some cus = map ProcessUberReceipts.currency receipts /\
      ProcessUberReceipts.function (VList emails) =
        Ret (map ProcessUberReceipts.date receipts,
             map ProcessUberReceipts.passenger receipts, cs, cus).
Proof.
  intros emails.
  pose proof (strict_rows_accepted emails) as Hr.
  exists (map (fun r : row =>
                 ProcessUberReceipts.mk_receipt (Some (snd (fst r)))
                   (Some (snd r)) (fst (fst (fst r))) (snd (fst (fst r))))
              (strict_rows emails)),
         (map (fun r : row => snd (fst r)) (strict_rows emails)),
         (map (fun r : row => snd r) (strict_rows emails)).
  rewrite function_rows. unfold columns_of.
  repeat rewrite map_map. simpl.
  repeat split; try reflexivity.
  induction Hr; simpl; constructor; assumption.
Qed.

(** X3.  A list of records can be processed in two parts: the result for the
    whole list is the result for the first part followed, list by list, by
    the result for the second.  For [extract_uber_data] this holds when
    both parts have an accepted record; a part that has none raises, and
    adds nothing to the other part. *)
Theorem X3_batches_in_parts :
  (forall a b,
     exists x y,
       ProcessUberReceipts.function (VList a) = Ret x /\
       ProcessUberReceipts.function (VList b) = Ret y /\
       ProcessUberReceipts.function (VList (a ++ b)) = Ret (chain x y)) /\
  (forall family_order recursion_limit a b x y,
     ExtractUberData.extract_uber_data family_order recursion_limit
       (VList a) = Ret x ->
     ExtractUberData.extract_uber_data family_order recursion_limit
       (VList b) = Ret y ->
     ExtractUberData.extract_uber_data family_order recursion_limit
       (VList (a ++ b)) = Ret (chain x y)) /\
  (forall family_order recursion_limit a b x e,
     ExtractUberData.extract_uber_data family_order recursion_limit
       (VList a) = Ret x ->
     ExtractUberData.extract_uber_data family_order recursion_limit
       (VList b) = Raise e ->
     ExtractUberData.extract_uber_data family_order recursion_limit
       (VList (a ++ b)) = Ret x /\
     ExtractUberData.extract_uber_data family_order recursion_limit
       (VList (b ++ a)) = Ret x).
Proof.
  split; [|split].
  - intros a b. exists (columns_of (strict_rows a)),
                       (columns_of (strict_rows b)).
    repeat rewrite function_rows. repeat split.
    unfold strict_rows. rewrite map_app, somes_app, columns_of_app.
    reflexivity.
  - intros family_order recursion_limit a b x y Ha Hb.
    rewrite extract_uber_data_rows in *.
    unfold rows in *. rewrite map_app, somes_app.
    destruct (somes (map (row_of family_order recursion_limit) a))
      as [|ra rsa]; [discriminate|].
    destruct (somes (map (row_of family_order recursion_limit) b))
      as [|rb rsb]; [discriminate|].
    injection Ha as <-. injection Hb as <-.
    rewrite <- columns_of_app. reflexivity.
  - intros family_order recursion_limit a b x e Ha Hb.
    rewrite extract_uber_data_rows in Ha, Hb.
    repeat rewrite extract_uber_data_rows.
    unfold rows in *. repeat rewrite map_app, somes_app.
    destruct (somes (map (row_of family_order recursion_limit) b))
      as [|rb rsb]; [|discriminate].
    rewrite app_nil_r. simpl. split; exact Ha.
Qed.

Lemma X3_witness :
  ExtractUberData.extract_uber_data ExtractUberData.family_members 1000
    (VList ([record (lit "Totalt 123,45 kr")]
            ++ [record (lit "hello"); record (lit "Avbokningsavgift 50 kr")]))
  = Ret (chain ([None], [None], [float_123_45], [lit "kr"])
               ([None], [None], [float_50], [lit "kr"])) /\
  ExtractUberData.extract_uber_data ExtractUberData.family_members 1000
    (VList ([record (lit "Totalt 123,45 kr")] ++ [record (lit "hello")]))
  = Ret ([None], [None], [float_123_45], [lit "kr"]).
Proof.
  split.
  - apply (proj1 (proj2 X3_batches_in_parts) ExtractUberData.family_members 1000
             [record (lit "Totalt 123,45 kr")]
             [record (lit "hello"); record (lit "Avbokningsavgift 50 kr")]);
      vm_compute; reflexivity.
  - apply (proj2 (proj2 X3_batches_in_parts) ExtractUberData.family_members 1000
             [record (lit "Totalt 123,45 kr")] [record (lit "hello")]
             ([None], [None], [float_123_45], [lit "kr"])
             ValueError_NoValidReceipts);
      vm_compute; reflexivity.
Defined.

(** X4.  What the two functions do with an argument that is not a list of
    dictionaries.  Both raise [TypeError] for an object that cannot be
    iterated.  [function] returns four empty lists for a dictionary and for
    a string, whose keys and characters it takes for records, and it skips
    every item of a list that is not a dictionary.  It raises in no other
    case: the error that its docstring announces is never raised. *)
Theorem X4_arguments_that_are_no_lists :
  (forall input,
     not_iterable input = true ->
     ProcessUberReceipts.function input = Raise TypeError /\
     forall family_order recursion_limit,
       ExtractUberData.extract_uber_data family_order recursion_limit input
         = Raise TypeError) /\
  (forall input,
     not_iterable input = false ->
     exists out, ProcessUberReceipts.function input = Ret out) /\
  (forall d,
     ProcessUberReceipts.function (VDict d) = Ret ([], [], [], [])) /\
  (forall s,
     ProcessUberReceipts.function (VStr s) = Ret ([], [], [], [])) /\
  (forall emails,
     ProcessUberReceipts.function (VList emails) =
     ProcessUberReceipts.function (VList (filter is_dict emails))) /\
  (forall family_order recursion_limit emails,
     ExtractUberData.extract_uber_data family_order recursion_limit
       (VList emails) =
     ExtractUberData.extract_uber_data family_order recursion_limit
       (VList (filter (fun e => is_dict e || is_str e) emails))).
Proof.
  assert (Hs : forall v, is_dict v = false -> strict_row_of v = None).
  { intros v Hv. unfold strict_row_of,
      ProcessUberReceipts.extract_single_receipt.
    destruct v; try reflexivity. discriminate Hv. }
  assert (Hr : forall l, Forall (fun v => is_dict v = false) l ->
                         strict_rows l = []).
  { induction l as [|v l IH]; intros Hl; [reflexivity|].
    inversion Hl; subst. unfold strict_rows in *. simpl.
    rewrite Hs by assumption. apply IH. assumption. }
  repeat split.
  - destruct input; try discriminate H; reflexivity.
  - intros family_order recursion_limit.
    destruct input; try discriminate H; reflexivity.
  - intros input H. pose proof (function_cases input) as Hc.
    destruct input; try discriminate H; simpl in Hc; eauto.
  - intros d. pose proof (function_cases (VDict d)) as Hc. simpl in Hc.
    rewrite Hc, Hr; [reflexivity|].
    apply Forall_map. apply Forall_forall. intros; reflexivity.
  - intros s. pose proof (function_cases (VStr s)) as Hc. simpl in Hc.
    rewrite Hc, Hr; [reflexivity|].
    apply Forall_map. apply Forall_forall. intros; reflexivity.
  - intros emails. repeat rewrite function_rows. f_equal. f_equal.
    induction emails as [|v l IH]; [reflexivity|].
    unfold strict_rows in *. simpl.
    destruct (is_dict v) eqn:Ev; simpl.
    + destruct (strict_row_of v); [f_equal|]; exact IH.
    + rewrite Hs by exact Ev. exact IH.
  - intros family_order recursion_limit emails.
    repeat rewrite extract_uber_data_rows.
    assert (He : rows family_order recursion_limit emails =
                 rows family_order recursion_limit
                   (filter (fun e => is_dict e || is_str e) emails)).
    { induction emails as [|v l IH]; [reflexivity|].
      unfold rows in *. simpl.
      destruct (is_dict v || is_str v) eqn:Ev; simpl.
      - destruct (row_of family_order recursion_limit v); [f_equal|];
          exact IH.
      - assert (Hn : row_of family_order recursion_limit v = None).
        { unfold row_of, ExtractUberData.extract_receipt_from_email,
            ExtractUberData.extract_fields.
          destruct v; try reflexivity; discriminate Ev. }
        rewrite Hn. exact IH. }
    rewrite He. reflexivity.
Qed.

Lemma X4_witness :
  (ProcessUberReceipts.function (VInt 7) = Raise TypeError /\
   forall family_order recursion_limit,
     ExtractUberData.extract_uber_data family_order recursion_limit (VInt 7)
       = Raise TypeError) /\
  exists out,
    ProcessUberReceipts.function (record (lit "Totalt 123,45 kr")) = Ret out.
Proof.
  split.
  - apply (proj1 X4_arguments_that_are_no_lists (VInt 7)). reflexivity.
  - apply (proj1 (proj2 X4_arguments_that_are_no_lists)
             (record (lit "Totalt 123,45 kr"))). reflexivity.
Defined.

(** X5.  Every cost in the output of either function is zero, a positive number
    or plus infinity, never negative and never a NaN; every currency is a
    text that is not empty and is made of ASCII letters, [$], the euro sign
    and the pound sign. *)
Theorem X5_costs_and_currencies :
  (forall family_order recursion_limit input ds ps cs cus,
     ExtractUberData.extract_uber_data family_order recursion_limit input
       = Ret (ds, ps, cs, cus) ->
     Forall (fun c => not_negative c = true) cs /\
     Forall (fun u => word_of currency_char u = true) cus) /\
  (forall input ds ps cs cus,
     ProcessUberReceipts.function input = Ret (ds, ps, cs, cus) ->
     Forall (fun c => not_negative c = true) cs /\
     Forall (fun u => word_of currency_char u = true) cus).
Proof.
  split.
  - intros family_order recursion_limit input ds ps cs cus H.
    destruct (extract_uber_data_ret _ _ _ _ H) as (items & _ & _ & Hc).
    symmetry in Hc.
    destruct (columns_forall _ _ _ _ _ (fun _ => True) (fun _ => True)
                (fun c => not_negative c = true)
                (fun u => word_of currency_char u = true) Hc)
      as (_ & _ & H1 & H2); [|auto].
    apply rows_forall. intros email [[[d p] c] cur] Hr.
    destruct (row_of_shape _ _ _ _ _ _ _ Hr) as (Hn & Hw & _ & _).
    simpl. auto.
  - intros input ds ps cs cus H.
    destruct (function_ret _ _ H) as (items & _ & Hc). symmetry in Hc.
    destruct (columns_forall _ _ _ _ _ (fun _ => True) (fun _ => True)
                (fun c => not_negative c = true)
                (fun u => word_of currency_char u = true) Hc)
      as (_ & _ & H1 & H2); [|auto].
    apply strict_rows_forall. intros email [[[d p] c] cur] Hr.
    destruct (strict_row_of_shape _ _ _ _ _ Hr) as (Hn & Hw & _ & _).
    simpl. auto.
Qed.

Lemma X5_witness :
  Forall (fun c => not_negative c = true) [float_123_45; float_50] /\
  Forall (fun u => word_of currency_char u = true) [lit "kr"; lit "kr"].
Proof.
  apply (proj1 X5_costs_and_currencies ExtractUberData.family_members 1000
           (VList [record (lit "Totalt 123,45 kr");
                   record (lit "Avbokningsavgift 50 kr")])
           [None; None] [None; None]).
  vm_compute. reflexivity.
Defined.

(** X6.  Every date in the output is absent or a text of ten characters: four
    digits, a hyphen, the two digits of a month from 01 to 12, a hyphen and
    two digits.  In the output of [function] the digits are those of
    ASCII, so the text has the fields of an ISO date; in the output of
    [extract_uber_data] they are decimal digits of any script, as the body
    "Totalt 5 kr <U+0665> juli <U+0662><U+0660><U+0662><U+0665>" shows. *)
Theorem X6_shape_of_dates :
  (forall family_order recursion_limit input ds ps cs cus,
     ExtractUberData.extract_uber_data family_order recursion_limit input
       = Ret (ds, ps, cs, cus) ->
     Forall (fun d => absent_or (dated isdecimal) d = true) ds) /\
  (forall input ds ps cs cus,
     ProcessUberReceipts.function input = Ret (ds, ps, cs, cus) ->
     Forall (fun d => absent_or (dated ascii_digit_char) d = true) ds /\
     Forall (fun d => absent_or iso_shaped d = true) ds) /\
  (let d := [1634; 1632; 1634; 1637]%N ++ lit "-07-0" ++ [1637%N] in
   ExtractUberData.extract_date
     (lit "Totalt 5 kr " ++ [1637%N] ++ lit " juli "
      ++ [1634; 1632; 1634; 1637]%N) = Ret (Some d) /\
   dated isdecimal d = true /\ iso_shaped d = false).
Proof.
  split; [|split].
  - intros family_order recursion_limit input ds ps cs cus H.
    destruct (extract_uber_data_ret _ _ _ _ H) as (items & _ & _ & Hc).
    symmetry in Hc.
    destruct (columns_forall _ _ _ _ _
                (fun d => absent_or (dated isdecimal) d = true)
                (fun _ => True) (fun _ => True) (fun _ => True) Hc)
      as (H1 & _); [|auto].
    apply rows_forall. intros email [[[d p] c] cur] Hr.
    destruct (row_of_shape _ _ _ _ _ _ _ Hr) as (_ & _ & Hd & _).
    simpl. auto.
  - intros input ds ps cs cus H.
    destruct (function_ret _ _ H) as (items & _ & Hc). symmetry in Hc.
    destruct (columns_forall _ _ _ _ _
                (fun d => absent_or (dated ascii_digit_char) d = true)
                (fun _ => True) (fun _ => True) (fun _ => True) Hc)
      as (H1 & _).
    + apply strict_rows_forall. intros email [[[d p] c] cur] Hr.
      destruct (strict_row_of_shape _ _ _ _ _ Hr) as (_ & _ & Hd & _).
      simpl. auto.
    + split; [exact H1|]. eapply Forall_impl; [|exact H1].
      intros [d|] Hd; [|reflexivity]. simpl in *.
      apply dated_iso_shaped. exact Hd.
  - vm_compute. auto.
Qed.

Lemma X6_witness :
  Forall (fun d => absent_or (dated ascii_digit_char) d = true)
    [Some (lit "2025-07-05"); None] /\
  Forall (fun d => absent_or iso_shaped d = true)
    [Some (lit "2025-07-05"); None].
Proof.
  apply (proj1 (proj2 X6_shape_of_dates)
           (VList [record (lit "Totalt 123,45 kr 5 juli 2025");
                   record (lit "Totalt 50 kr")])
           [Some (lit "2025-07-05"); None] [None; None]
           [float_123_45; float_50] [lit "kr"; lit "kr"]).
  vm_compute. reflexivity.
Defined.

(** X7.  Every passenger in the output is absent or a name that is not empty
    and is made of ASCII letters and the six Swedish letters; for
    [extract_uber_data] the known names are taken to be those of the
    source, in any order.  So the rides that the statistics count with
    [p is not None] are those that the reports count with [if p:]. *)
Theorem X7_passengers_are_names :
  (forall family_order recursion_limit input ds ps cs cus,
     Permutation family_order ExtractUberData.family_members ->
     ExtractUberData.extract_uber_data family_order recursion_limit input
       = Ret (ds, ps, cs, cus) ->
     Forall (fun p => absent_or (word_of name_char) p = true) ps /\
     ExtractUberDataScript.attributed_rides ps = length (filter truthy ps)) /\
  (forall input ds ps cs cus,
     ProcessUberReceipts.function input = Ret (ds, ps, cs, cus) ->
     Forall (fun p => absent_or (word_of name_char) p = true) ps).
Proof.
  assert (Hcount : forall ps,
             Forall (fun p => absent_or (word_of name_char) p = true) ps ->
             ExtractUberDataScript.attributed_rides ps
             = length (filter truthy ps)).
  { unfold ExtractUberDataScript.attributed_rides.
    induction ps as [|p ps IH]; intros Hf; [reflexivity|].
    inversion Hf as [|p' ps' Hp Hps]; subst. simpl.
    destruct p as [[|c p]|]; simpl; try discriminate Hp;
      rewrite (IH Hps); reflexivity. }
  split.
  - intros family_order recursion_limit input ds ps cs cus Hperm H.
    assert (Hf : Forall (fun n => word_of name_char n = true) family_order).
    { apply Permutation_sym in Hperm.
      eapply Permutation_Forall; [exact Hperm|].
      repeat constructor. }
    destruct (extract_uber_data_ret _ _ _ _ H) as (items & _ & _ & Hc).
    symmetry in Hc.
    destruct (columns_forall _ _ _ _ _ (fun _ => True)
                (fun p => absent_or (word_of name_char) p = true)
                (fun _ => True) (fun _ => True) Hc)
      as (_ & H1 & _); [|auto].
    apply rows_forall. intros email [[[d p] c] cur] Hr.
    destruct (row_of_shape _ _ _ _ _ _ _ Hr) as (_ & _ & _ & Hp).
    simpl. auto.
  - intros input ds ps cs cus H.
    destruct (function_ret _ _ H) as (items & _ & Hc). symmetry in Hc.
    destruct (columns_forall _ _ _ _ _ (fun _ => True)
                (fun p => absent_or (word_of name_char) p = true)
                (fun _ => True) (fun _ => True) Hc)
      as (_ & H1 & _); [|auto].
    apply strict_rows_forall. intros email [[[d p] c] cur] Hr.
    destruct (strict_row_of_shape _ _ _ _ _ Hr) as (_ & _ & _ & Hp).
    simpl. auto.
Qed.

Lemma X7_witness :
  Forall (fun p => absent_or (word_of name_char) p = true)
    [Some (lit "Agne"); None] /\
  ExtractUberDataScript.attributed_rides [Some (lit "Agne"); None]
  = length (filter truthy [Some (lit "Agne"); None]).
Proof.
  apply (proj1 X7_passengers_are_names ExtractUberData.family_members 1000
           (VList [record (lit "Totalt 10 kr Tack Agne!");
                   record (lit "Avbokningsavgift 50 kr")])
           [None; None] [Some (lit "Agne"); None]
           [S754_finite false 5629499534213120 (-49); float_50]
           [lit "kr"; lit "kr"]).
  - apply Permutation_refl.
  - vm_compute. reflexivity.
Defined.

(** X8.  [function] accepts a record only when its body has the word Totalt
    followed by an amount and a currency: a list of records without that
    word gives four empty lists.  A receipt of a cancellation alone, such
    as "Avbokningsavgift 50 kr", is therefore left out by [function],
    while [extract_uber_data] accepts it. *)
Theorem X8_function_needs_totalt :
  (forall email,
     accepted_strict email = true ->
     exists d body,
       email = VDict d /\
       dict_get d (lit "body") (VStr []) = VStr body /\
       str_in (lit "Totalt") body = true) /\
  (forall emails,
     (forall d body,
        In (VDict d) emails ->
        dict_get d (lit "body") (VStr []) = VStr body ->
        str_in (lit "Totalt") body = false) ->
     ProcessUberReceipts.function (VList emails) = Ret ([], [], [], [])) /\
  (accepted_strict (record (lit "Avbokningsavgift 50 kr")) = false /\
   forall family_order recursion_limit,
     accepted family_order recursion_limit
       (record (lit "Avbokningsavgift 50 kr")) = true).
Proof.
  assert (H1 : forall email,
             accepted_strict email = true ->
             exists d body,
               email = VDict d /\
               dict_get d (lit "body") (VStr []) = VStr body /\
               str_in (lit "Totalt") body = true).
  { intros email H.
    destruct (StrictFacts.accepted_strict_body _ H)
      as (d & body & m & -> & Hb & Hs).
    exists d, body. repeat split; auto.
    apply StrictFacts.str_in_infix.
    eapply StrictFacts.strict_total_totalt. exact Hs. }
  split; [exact H1|]. split.
  - intros emails H. rewrite function_rows.
    assert (Hr : strict_rows emails = []).
    { unfold strict_rows.
      induction emails as [|email emails IH]; [reflexivity|].
      simpl.
      destruct (strict_row_of email) as [r|] eqn:Er.
      - exfalso.
        assert (Ha : accepted_strict email = true)
          by (rewrite strict_row_of_accepted, Er; reflexivity).
        destruct (H1 _ Ha) as (d & body & -> & Hb & Ht).
        rewrite (H d body (or_introl eq_refl) Hb) in Ht. discriminate.
      - apply IH. intros d body Hin. apply H. right. exact Hin. }
    rewrite Hr. reflexivity.
  - split; [vm_compute; reflexivity|].
    intros family_order recursion_limit.
    rewrite accepted_has_total. reflexivity.
Qed.

Lemma X8_witness :
  (exists d body,
     record (lit "Totalt 123,45 kr") = VDict d /\
     dict_get d (lit "body") (VStr []) = VStr body /\
     str_in (lit "Totalt") body = true) /\
  ProcessUberReceipts.function
    (VList [record (lit "Avbokningsavgift 50 kr"); record (lit "12 kr")])
  = Ret ([], [], [], []).
Proof.
  split.
  - apply (proj1 X8_function_needs_totalt (record (lit "Totalt 123,45 kr"))).
    vm_compute. reflexivity.
  - apply (proj1 (proj2 X8_function_needs_totalt)
             [record (lit "Avbokningsavgift 50 kr"); record (lit "12 kr")]).
    intros d body [H|[H|[]]] Hb; injection H as <-; vm_compute in Hb;
      injection Hb as <-; vm_compute; reflexivity.
Defined.

(** X9.  When the word Avbokningsavgift does not occur in a body and the
    pattern of [function] finds a total in it, [extract_uber_data] finds
    the same: the cost and the currency of the record are the same in the
    output of both, or the amount is refused by both. *)
Theorem X9_totals_agree_without_cancellation :
  forall body,
    str_in (lit "Avbokningsavgift") body = false ->
    search ProcessUberReceipts.total_pattern body <> None ->
    ExtractUberData.extract_total body
      = ProcessUberReceipts.extract_total body /\
    forall family_order recursion_limit,
      match row_of family_order recursion_limit (record body),
            strict_row_of (record body) with
      | Some (_, _, c, cur), Some (_, _, c', cur') => c = c' /\ cur = cur'
      | None, None => True
      | _, _ => False
      end.
Proof.
  intros body Ha Hs.
  destruct (search ProcessUberReceipts.total_pattern body) as [m|] eqn:E;
    [|congruence].
  pose proof (StrictFacts.totals_agree body m Ha E) as Ht.
  split; [exact Ht|]. intros family_order recursion_limit.
  pose proof (StrictFacts.row_of_total family_order recursion_limit body)
    as Hl.
  pose proof (StrictFacts.strict_row_of_total body) as Hr.
  destruct (row_of family_order recursion_limit (record body))
    as [[[[d p] c] cur]|];
    destruct (strict_row_of (record body)) as [[[[d' p'] c'] cur']|].
  - rewrite Ht, Hr in Hl. injection Hl as <- <-. auto.
  - rewrite Ht in Hl. exact (Hr _ _ Hl).
  - rewrite <- Ht in Hr. exact (Hl _ _ Hr).
  - exact I.
Qed.

Lemma X9_witness :
  ExtractUberData.extract_total (lit "Resa 12 km. Totalt 123,45 kr")
    = ProcessUberReceipts.extract_total (lit "Resa 12 km. Totalt 123,45 kr") /\
  forall family_order recursion_limit,
    match row_of family_order recursion_limit
            (record (lit "Resa 12 km. Totalt 123,45 kr")),
          strict_row_of (record (lit "Resa 12 km. Totalt 123,45 kr")) with
    | Some (_, _, c, cur), Some (_, _, c', cur') => c = c' /\ cur = cur'
    | None, None => True
    | _, _ => False
    end.
Proof.
  apply (X9_totals_agree_without_cancellation
           (lit "Resa 12 km. Totalt 123,45 kr")).
  - vm_compute. reflexivity.
  - vm_compute. discriminate.
Defined.

(** X10.  [extract_uber_receipt_data] returns and raises when
    [extract_single_receipt], the inner function of [function], does.  Its
    cost, currency, date and passenger are those of the inner function; it
    adds the [id], the [subject] and the [date] of the email as they stand
    in the dictionary, [None] or the empty text when they are missing, and
    a flag that tells whether the word Avbokningsavgift occurs in the
    body. *)
Theorem X10_receipt_data_of_an_email :
  forall email,
    match ProcessUberReceiptsScript.extract_uber_receipt_data email,
          ProcessUberReceipts.extract_single_receipt email with
    | Ret r, Ret r' =>
        ProcessUberReceiptsScript.cost r = ProcessUberReceipts.cost r' /\
        ProcessUberReceiptsScript.currency r
          = ProcessUberReceipts.currency r' /\
        ProcessUberReceiptsScript.date r = ProcessUberReceipts.date r' /\
        ProcessUberReceiptsScript.passenger r
          = ProcessUberReceipts.passenger r' /\
        exists d body,
          email = VDict d /\
          dict_get d (lit "body") (VStr []) = VStr body /\
          ProcessUberReceiptsScript.email_id r
            = dict_get d (lit "id") VNone /\
          ProcessUberReceiptsScript.subject r
            = dict_get d (lit "subject") (VStr []) /\
          ProcessUberReceiptsScript.email_date r
            = dict_get d (lit "date") (VStr []) /\
          ProcessUberReceiptsScript.is_cancellation r
            = str_in (lit "Avbokningsavgift") body
    | Raise e, Raise e' => e = e'
    | _, _ => False
    end.
Proof.
  exact receipt_data_cases.
Qed.






(** X14.  The report of the rides that [main] and [demo_extraction] print lists
    every name of the passenger list that is not empty, once, with the
    number of entries of the list that are this name, in the ascending
    order of the names; the counts add up to the number of passengers that
    are neither absent nor empty. *)
Theorem X14_report_of_the_rides :
  forall ps,
    let report :=
      sorted item_ltb (ProcessUberReceiptsScript.count_rides ps) in
    sorted item_ltb (ExtractUberDataScript.count_rides ps) = report /\
    StronglySorted (fun a b => str_ltb (fst a) (fst b) = true) report /\
    (forall name n,
       In (name, n) report <->
       name <> [] /\ In (Some name) ps /\ n = rides_of name ps) /\
    total_count report = N.of_nat (length (filter truthy ps)).
Proof.
  intros ps. split; [reflexivity|]. apply rides_report.
Qed.

(** X15.  [extract_uber_data] takes its records in several forms.  A text that
    is a JSON document stands for the decoded list, or for the list of the
    one decoded object; in a list, a text that decodes to a dictionary
    stands for that dictionary, and a text that does not decode is
    skipped. *)
Theorem X15_forms_of_the_records :
  forall family_order recursion_limit,
    (forall s v,
       Json.loads recursion_limit s = Ret v ->
       ExtractUberData.extract_uber_data family_order recursion_limit
         (VStr s)
       = ExtractUberData.extract_uber_data family_order recursion_limit
           (match v with VList _ => v | _ => VList [v] end)) /\
    (forall before after s v,
       Json.loads recursion_limit s = Ret v ->
       is_dict v = true ->
       ExtractUberData.extract_uber_data family_order recursion_limit
         (VList (before ++ VStr s :: after))
       = ExtractUberData.extract_uber_data family_order recursion_limit
           (VList (before ++ v :: after))) /\
    (forall before after s,
       Json.loads recursion_limit s = Raise JSONDecodeError ->
       ExtractUberData.extract_uber_data family_order recursion_limit
         (VList (before ++ VStr s :: after))
       = ExtractUberData.extract_uber_data family_order recursion_limit
           (VList (before ++ after))).
Proof.
  intros family_order recursion_limit. split; [|split].
  - intros s v H. unfold ExtractUberData.extract_uber_data,
                    ExtractUberData.parse_emails.
    rewrite H. destruct v; reflexivity.
  - intros before after s v H Hd. repeat rewrite extract_uber_data_rows.
    assert (Hr : row_of family_order recursion_limit (VStr s)
                 = row_of family_order recursion_limit v).
    { unfold row_of, ExtractUberData.extract_receipt_from_email.
      rewrite H. destruct v; try discriminate Hd. reflexivity. }
    unfold rows. repeat rewrite map_app. cbn [map]. rewrite Hr.
    reflexivity.
  - intros before after s H. repeat rewrite extract_uber_data_rows.
    assert (Hr : row_of family_order recursion_limit (VStr s) = None).
    { unfold row_of, ExtractUberData.extract_receipt_from_email.
      rewrite H. reflexivity. }
    unfold rows. repeat rewrite map_app, somes_app. cbn [map somes].
    rewrite Hr. reflexivity.
Qed.

Lemma X15_witness :
  ExtractUberData.extract_uber_data ExtractUberData.family_members 1000
    (VStr (lit "[{" ++ [Json.quote] ++ lit "body" ++ [Json.quote] ++ lit ": "
           ++ [Json.quote] ++ lit "Totalt 50 kr" ++ [Json.quote]
           ++ lit "}]"))
  = ExtractUberData.extract_uber_data ExtractUberData.family_members 1000
      (VList [record (lit "Totalt 50 kr")]).
Proof.
  apply (proj1 (X15_forms_of_the_records ExtractUberData.family_members 1000)
           (lit "[{" ++ [Json.quote] ++ lit "body" ++ [Json.quote]
            ++ lit ": " ++ [Json.quote] ++ lit "Totalt 50 kr"
            ++ [Json.quote] ++ lit "}]")
           (VList [record (lit "Totalt 50 kr")])).
  vm_compute. reflexivity.
Defined.

(** X16.  Neither function reads anything of a record but its [body]: the
    other keys of the dictionary change nothing, and a dictionary without
    a [body], or whose body is the empty text, adds no entry to the
    lists. *)
Theorem X16_only_the_body_counts :
  (forall family_order recursion_limit d body,
     dict_get d (lit "body") (VStr []) = VStr body ->
     row_of family_order recursion_limit (VDict d)
     = row_of family_order recursion_limit (record body) /\
     strict_row_of (VDict d) = strict_row_of (record body)) /\
  (forall family_order recursion_limit d before after,
     dict_get d (lit "body") (VStr []) = VStr [] ->
     ExtractUberData.extract_uber_data family_order recursion_limit
       (VList (before ++ VDict d :: after))
     = ExtractUberData.extract_uber_data family_order recursion_limit
         (VList (before ++ after)) /\
     ProcessUberReceipts.function (VList (before ++ VDict d :: after))
     = ProcessUberReceipts.function (VList (before ++ after))).
Proof.
  assert (H1 : forall family_order recursion_limit d body,
             dict_get d (lit "body") (VStr []) = VStr body ->
             row_of family_order recursion_limit (VDict d)
             = row_of family_order recursion_limit (record body) /\
             strict_row_of (VDict d) = strict_row_of (record body)).
  { intros family_order recursion_limit d body H. split.
    - unfold row_of, ExtractUberData.extract_receipt_from_email,
        ExtractUberData.extract_fields.
      cbn [py_get bind record]. rewrite H. reflexivity.
    - unfold strict_row_of. rewrite (strict_only_body d body H).
      reflexivity. }
  split; [exact H1|].
  intros family_order recursion_limit d before after H.
  destruct (H1 family_order recursion_limit d [] H) as [Hl Hs].
  repeat rewrite extract_uber_data_rows. repeat rewrite function_rows.
  unfold rows, strict_rows. repeat rewrite map_app, somes_app.
  cbn [map somes]. rewrite Hl, Hs.
  replace (strict_row_of (record [])) with (@None row)
    by (vm_compute; reflexivity).
  replace (row_of family_order recursion_limit (record []))
    with (@None row); [split; reflexivity|].
  pose proof (row_of_total family_order recursion_limit []) as Ht.
  destruct (row_of family_order recursion_limit (record []))
    as [[[[dd p] c] cur]|]; [|reflexivity].
  vm_compute in Ht. discriminate Ht.
Qed.

Lemma X16_witness :
  row_of ExtractUberData.family_members 1000
    (VDict [(lit "id", VInt 7); (lit "body", VStr (lit "Totalt 50 kr"))])
  = row_of ExtractUberData.family_members 1000 (record (lit "Totalt 50 kr"))
  /\
  strict_row_of
    (VDict [(lit "id", VInt 7); (lit "body", VStr (lit "Totalt 50 kr"))])
  = strict_row_of (record (lit "Totalt 50 kr")).
Proof.
  apply (proj1 X16_only_the_body_counts ExtractUberData.family_members 1000
           [(lit "id", VInt 7); (lit "body", VStr (lit "Totalt 50 kr"))]
           (lit "Totalt 50 kr")).
  reflexivity.
Defined.

(** X17.  A text made of pieces with a marker [Value #n:] between two line
    feeds on either side before each piece but the first is cut into these
    pieces, when no piece holds two line feeds followed by a [V].  When
    each piece is read without an exception, [parse_uber_data_file] returns
    the records read from the pieces, in their order, and
    [extract_uber_data] treats the text, unless it is one JSON document,
    as the list of these records. *)
Theorem X17_records_between_markers :
  forall recursion_limit first rest rs,
    no_marker first = true ->
    Forall numbered_piece rest ->
    Forall2
      (fun piece r => ExtractUberData.parse_part recursion_limit piece = Ret r)
      (first :: map snd rest) rs ->
    Re.split ExtractUberData.value_marker (joined first rest)
      = first :: map snd rest /\
    (forall files file_path,
       files file_path = Content (joined first rest) ->
       snd (ProcessUberReceiptsScript.parse_uber_data_file recursion_limit
              files file_path) = somes rs) /\
    (forall family_order,
       Json.loads recursion_limit (joined first rest)
         = Raise JSONDecodeError ->
       ExtractUberData.extract_uber_data family_order recursion_limit
         (VStr (joined first rest))
       = ExtractUberData.extract_uber_data family_order recursion_limit
           (VList (somes rs))).
Proof.
  intros recursion_limit first rest rs Hf Hr Hp.
  pose proof (split_joined rest first Hf Hr) as Hs.
  pose proof (parse_parts_somes recursion_limit _ _ [] Hp) as Hq.
  cbn [app] in Hq.
  split; [exact Hs|]. split.
  - intros files file_path Hc.
    destruct (parse_file_cases recursion_limit files file_path)
      as (_ & _ & H).
    cbv zeta in H. rewrite Hc, Hs, Hq in H. exact H.
  - intros family_order Hl.
    unfold ExtractUberData.extract_uber_data at 1.
    unfold ExtractUberData.parse_emails.
    rewrite Hl, Hs, Hq. reflexivity.
Qed.

Lemma X17_witness :
  Re.split ExtractUberData.value_marker
    (joined
       (lit "Value #1:" ++ [10; 10]%N ++ record_text (lit "Totalt 50 kr"))
       [(lit "2", lit "{not json}")])
  = [lit "Value #1:" ++ [10; 10]%N ++ record_text (lit "Totalt 50 kr");
     lit "{not json}"] /\
  forall files file_path,
    files file_path
    = Content
        (joined
           (lit "Value #1:" ++ [10; 10]%N
            ++ record_text (lit "Totalt 50 kr"))
           [(lit "2", lit "{not json}")]) ->
    snd (ProcessUberReceiptsScript.parse_uber_data_file 1000 files file_path)
    = [record (lit "Totalt 50 kr")].
Proof.
  destruct (X17_records_between_markers 1000
              (lit "Value #1:" ++ [10; 10]%N
               ++ record_text (lit "Totalt 50 kr"))
              [(lit "2", lit "{not json}")]
              [Some (record (lit "Totalt 50 kr")); None])
    as (H1 & H2 & _).
  - vm_compute. reflexivity.
  - constructor; [|constructor].
    split; [discriminate|]. split; [|vm_compute; reflexivity].
    constructor; [reflexivity|constructor].
  - constructor; [vm_compute; reflexivity|].
    constructor; [vm_compute; reflexivity|constructor].
  - split; [exact H1|exact H2].
Defined.

(** X18.  The line of the unknown names that the demonstration prints
    lists, in the ascending order of the strings and each once, the
    passengers that are none of the six known names; it is the same
    whatever the order in which the set of these names is iterated.  The
    set is empty, and the line is left out, exactly when every passenger
    is a known name.  The known names are those by which the extraction
    looks for a passenger. *)
Theorem X18_line_of_the_unknown_names :
  forall ps,
    let names :=
      sorted str_ltb (ExtractUberDataScript.unknown_names ps) in
    StronglySorted (fun a b => str_ltb a b = true) names /\
    (forall n,
       In n names <->
       In (Some n) ps /\ ~ In n ExtractUberDataScript.known_family) /\
    (forall order,
       Permutation order (ExtractUberDataScript.unknown_names ps) ->
       sorted str_ltb order = names) /\
    (ExtractUberDataScript.unknown_names ps = [] <->
     forall n, In (Some n) ps -> In n ExtractUberDataScript.known_family) /\
    Permutation ExtractUberDataScript.known_family
      ExtractUberData.family_members.
Proof.
  intros ps names.
  destruct (unknown_names_fold ps [] (NoDup_nil _)) as [Hnd Hin].
  cbv zeta in Hnd, Hin.
  change (fold_left _ ps []) with (ExtractUberDataScript.unknown_names ps)
    in Hnd, Hin.
  destruct (sorted_strings _ Hnd) as [Hs Ho].
  pose proof (sorted_perm _ str_ltb (ExtractUberDataScript.unknown_names ps))
    as Hp.
  fold names in Hs, Ho, Hp.
  split; [exact Hs|]. split; [|split; [exact Ho|split]].
  - intros n. split.
    + intros H. apply (Permutation_in _ (Permutation_sym Hp)) in H.
      apply Hin in H. destruct H as [[]|H]. exact H.
    + intros H. apply (Permutation_in _ Hp). apply Hin. right. exact H.
  - clear Hs Ho Hp. split.
    + intros H n Hn.
      destruct (in_dec (list_eq_dec N.eq_dec) n
                  ExtractUberDataScript.known_family) as [Hk|Hk];
        [exact Hk|].
      exfalso.
      assert (Hu : In n (ExtractUberDataScript.unknown_names ps))
        by (apply Hin; right; split; assumption).
      rewrite H in Hu. exact Hu.
    + intros H.
      destruct (ExtractUberDataScript.unknown_names ps) as [|n l];
        [reflexivity|].
      exfalso. destruct (proj1 (Hin n) (or_introl eq_refl)) as [[]|[Hn Hk]].
      apply Hk, H, Hn.
  - vm_compute.
    repeat first [apply Permutation_refl | apply perm_skip].
Qed.




